(** * The account chaincode (chaincode/asset-management/chaincode.go)

    A shallow embedding of the ledger-resident account contract and of the
    parts of its environment that its behaviour depends on:

    - [strconv]: Go's [strconv.ParseInt] / [strconv.FormatInt] at base 10,
      64 bits, with the unsigned wrap-around written out on [Z];
    - [json]: [encoding/json] for the [Account] struct (encoder and decoder);
    - [shim]: the ledger stub ([GetState], [PutState], [DelState],
      [GetStateByRange], [GetHistoryForKey]) over a key-value world state and
      a per-key change log, with transaction simulation and commit;
    - the contract functions themselves, written in the transaction monad
      so that each definition can be read next to its Go source;
    - the request handlers of the facade (unnamed/part_000) that reach the
      contract through the ledger client.

    Go strings are modelled as [string] (sequences of 8-bit characters) and
    are taken to hold UTF-8 text; a nillable byte slice is an [option string]. *)

From Stdlib Require Import ZArith Lia Ascii String List.
From Stdlib Require OrderedTypeEx.
From stdpp Require Import base option list gmap strings sorting fin_maps.

Local Open Scope string_scope.
Local Open Scope list_scope.
Local Open Scope Z_scope.

(** ** Go values *)

(** Go's [error] interface, restricted to the dynamic types that the
    contract can return. *)
Inductive numErrKind := ErrSyntax | ErrRange.

Inductive error :=
| errorString (msg : string)                      (* errors.New(msg) *)
| NumError (Func Num : string) (Err : numErrKind) (* *strconv.NumError *)
| SyntaxError (msg : string)                      (* *json.SyntaxError *)
| UnmarshalTypeError (Value Field : string).      (* *json.UnmarshalTypeError *)

(** A Go result pair [(v, err)] in which [v] is only used when [err == nil]. *)
Inductive result (A : Type) :=
| Ok (a : A)
| Err (e : error).
Arguments Ok {A} a.
Arguments Err {A} e.

Definition errors_New (msg : string) : error := errorString msg.

(** The value of a byte. *)
Definition byte_val (c : ascii) : Z := Z.of_N (N_of_ascii c).

Definition byte_of (z : Z) : ascii := ascii_of_N (Z.to_N z).

(** The double-quote character, byte 34. *)
Abbreviation dquote := (Ascii false true false false false true false false).

(** ** strconv *)

Module strconv.

Definition maxUint64 : Z := 2 ^ 64 - 1.

(** [uint64(x)] and [int64(x)] conversions: wrap-around on [Z]. *)
Definition uint64 (x : Z) : Z := x mod 2 ^ 64.
Definition int64 (x : Z) : Z := (x + 2 ^ 63) mod 2 ^ 64 - 2 ^ 63.

(** [lower(c)]: [c | ('x' - 'X')]. *)
Definition lower (c : Z) : Z := Z.lor c 32.

(** The body of the [for _, c := range []byte(s)] loop of [ParseUint],
    with [base = 10], [bitSize = 64] and [base0 = false]; [n] is the
    accumulator.  The result is the pair [(value, err)] that Go returns. *)
Fixpoint ParseUint_loop (s : string) (n : Z) : Z * option numErrKind :=
  match s with
  | EmptyString => (n, None)
  | String ch s' =>
      let c := byte_val ch in
      let cutoff := maxUint64 / 10 + 1 in
      let maxVal := uint64 (Z.shiftl 1 64 - 1) in
      let d :=
        if (48 <=? c) && (c <=? 57) then Some (c - 48)
        else if (97 <=? lower c) && (lower c <=? 122)
             then Some (lower c - 97 + 10)
             else None in
      match d with
      | None => (0, Some ErrSyntax)
      | Some d =>
          if 10 <=? d then (0, Some ErrSyntax)
          else if cutoff <=? n then (maxVal, Some ErrRange)
          else
            let n := uint64 (n * 10) in
            let n1 := uint64 (n + d) in
            if (n1 <? n) || (maxVal <? n1) then (maxVal, Some ErrRange)
            else ParseUint_loop s' n1
      end
  end.

Definition ParseUint (s : string) : Z * option numErrKind :=
  match s with
  | EmptyString => (0, Some ErrSyntax)
  | _ => ParseUint_loop s 0
  end.

(** [strconv.ParseInt(s, 10, 64)]. *)
Definition ParseInt (s0 : string) : result Z :=
  match s0 with
  | EmptyString => Err (NumError "ParseInt" s0 ErrSyntax)
  | String c0 rest =>
      let '(neg, s) :=
        if Ascii.eqb c0 "+" then (false, rest)
        else if Ascii.eqb c0 "-" then (true, rest)
        else (false, s0) in
      let '(un, err) := ParseUint s in
      match err with
      | Some ErrSyntax => Err (NumError "ParseInt" s0 ErrSyntax)
      | _ =>
          let cutoff := uint64 (Z.shiftl 1 (64 - 1)) in
          if negb neg && (cutoff <=? un) then
            Err (NumError "ParseInt" s0 ErrRange)
          else if neg && (cutoff <? un) then
            Err (NumError "ParseInt" s0 ErrRange)
          else
            let n := int64 un in
            Ok (if neg then int64 (- n) else n)
      end
  end.

(** [formatBits] for base 10: the digits of [u] are written in front of
    [a], least significant first, by repeated division.  Twenty digits
    are enough for every [uint64]. *)
Fixpoint formatBits (fuel : nat) (u : Z) (a : string) : string :=
  match fuel with
  | O => a
  | S fuel =>
      if u <? 10 then String (byte_of (48 + u)) a
      else formatBits fuel (u / 10) (String (byte_of (48 + u mod 10)) a)
  end.

(** [strconv.FormatInt(i, 10)]. *)
Definition FormatInt (i : Z) : string :=
  let neg := i <? 0 in
  let u := uint64 i in
  let u := if neg then uint64 (- u) else u in
  let digits := formatBits 20 u "" in
  if neg then String "-" digits else digits.

End strconv.

(** *** What "parses as a base-10 64-bit integer" means

    The reading of the specification's words, independent of the code: an
    optional sign, then one or more decimal digits, whose value lies in the
    signed 64-bit range. *)

Definition is_digit (c : ascii) : bool :=
  (48 <=? byte_val c) && (byte_val c <=? 57).

Fixpoint all_digits (s : string) : bool :=
  match s with
  | EmptyString => true
  | String c s' => is_digit c && all_digits s'
  end.

(** The number denoted by the digits of [s], continuing from [n]. *)
Fixpoint dval (s : string) (n : Z) : Z :=
  match s with
  | EmptyString => n
  | String c s' => dval s' (n * 10 + (byte_val c - 48))
  end.

Definition minInt64 : Z := - 2 ^ 63.
Definition maxInt64 : Z := 2 ^ 63 - 1.

Definition in_int64 (z : Z) : Prop := minInt64 <= z <= maxInt64.

Inductive base10_int64 : string -> Z -> Prop :=
| b10_plain ds :
    ds <> "" -> all_digits ds = true -> dval ds 0 <= maxInt64 ->
    base10_int64 ds (dval ds 0)
| b10_plus ds :
    ds <> "" -> all_digits ds = true -> dval ds 0 <= maxInt64 ->
    base10_int64 (String "+" ds) (dval ds 0)
| b10_minus ds :
    ds <> "" -> all_digits ds = true -> minInt64 <= - dval ds 0 ->
    base10_int64 (String "-" ds) (- dval ds 0).

(** ** The contract's data (chaincode.go, lines 11-20 and 129-134) *)

Record Account := {
  DEALERID : string;
  MSISDN : string;
  MPIN : string;
  BALANCE : Z;
  STATUS : string;
  TRANSAMOUNT : Z;
  TRANSTYPE : string;
  REMARKS : string
}.

(** [var a Account]: the zero value. *)
Definition Account_zero : Account :=
  {| DEALERID := ""; MSISDN := ""; MPIN := ""; BALANCE := 0; STATUS := "";
     TRANSAMOUNT := 0; TRANSTYPE := ""; REMARKS := "" |}.

Record History := {
  TxID : string;
  Value : option Account;   (* *Account, nil when absent *)
  IsDelete : bool;
  Timestamp : Z
}.

(** ** encoding/json, for the [Account] struct

    The encoder writes the bytes that [json.Marshal] writes for an [Account]
    holding UTF-8 text.  The decoder parses any JSON text into a [value] and
    then fills the struct the way [json.Unmarshal] does: keys are matched
    exactly or else without regard to ASCII case, unknown keys are skipped,
    [null] leaves a field as it is, a later duplicate overwrites an earlier
    one, and a value of the wrong kind is an [UnmarshalTypeError]. *)

Module json.

#[warnings="-register-all"]
Inductive value :=
| Null
| Bool (b : bool)
| Number (lit : string)
| Str (s : string)
| Array (elems : list value)
| Object (members : list (string * value)).

(** *** Encoder *)

Definition hex : string := "0123456789abcdef".

Definition hex_digit (n : Z) : ascii :=
  match String.get (Z.to_nat n) hex with Some c => c | None => "0"%char end.

(** One byte below [utf8.RuneSelf] in [appendString], with [escapeHTML]
    set (as [json.Marshal] does). *)
Definition escape_byte (c : ascii) : string :=
  let b := byte_val c in
  if (32 <=? b) && negb (b =? 34) && negb (b =? 92)
     && negb (b =? 60) && negb (b =? 62) && negb (b =? 38)
  then String c ""
  else if (b =? 92) || (b =? 34) then String "\" (String c "")
  else if b =? 8 then "\b"
  else if b =? 12 then "\f"
  else if b =? 10 then "\n"
  else if b =? 13 then "\r"
  else if b =? 9 then "\t"
  else String "\" (String "u" (String "0" (String "0"
         (String (hex_digit (Z.shiftr b 4))
            (String (hex_digit (Z.land b 15)) ""))))).

(** [appendString] without the surrounding quotes.  U+2028 and U+2029
    (bytes E2 80 A8 and E2 80 A9) are written as escapes; every other
    byte from [utf8.RuneSelf] up is copied. *)
Fixpoint escape (s : string) : string :=
  match s with
  | EmptyString => ""
  | String c s' =>
      if 128 <=? byte_val c then
        match s' with
        | String c2 (String c3 s3) =>
            if (byte_val c =? 226) && (byte_val c2 =? 128)
               && ((byte_val c3 =? 168) || (byte_val c3 =? 169))
            then String "\" (String "u" (String "2" (String "0" (String "2"
                   (String (hex_digit (Z.land (byte_val c3) 15))
                      (escape s3))))))
            else String c (escape s')
        | _ => String c (escape s')
        end
      else escape_byte c +:+ escape s'
  end.

Definition quote (s : string) : string :=
  String dquote (escape s +:+ String dquote "").

(** [json.Marshal(acc)]: the fields in declaration order, under their
    tags.  Encoding this struct cannot fail. *)
Definition Marshal (acc : Account) : result string :=
  Ok ("{" +:+ quote "DEALERID" +:+ ":" +:+ quote (DEALERID acc)
      +:+ "," +:+ quote "MSISDN" +:+ ":" +:+ quote (MSISDN acc)
      +:+ "," +:+ quote "MPIN" +:+ ":" +:+ quote (MPIN acc)
      +:+ "," +:+ quote "BALANCE" +:+ ":" +:+ strconv.FormatInt (BALANCE acc)
      +:+ "," +:+ quote "STATUS" +:+ ":" +:+ quote (STATUS acc)
      +:+ "," +:+ quote "TRANSAMOUNT" +:+ ":"
              +:+ strconv.FormatInt (TRANSAMOUNT acc)
      +:+ "," +:+ quote "TRANSTYPE" +:+ ":" +:+ quote (TRANSTYPE acc)
      +:+ "," +:+ quote "REMARKS" +:+ ":" +:+ quote (REMARKS acc)
      +:+ "}").

(** *** Decoder: scanning *)

Definition is_space (c : ascii) : bool :=
  let b := byte_val c in (b =? 32) || (b =? 9) || (b =? 13) || (b =? 10).

Fixpoint skip_ws (s : string) : string :=
  match s with
  | String c s' => if is_space c then skip_ws s' else s
  | EmptyString => s
  end.

Definition hex_val (c : ascii) : option Z :=
  let b := byte_val c in
  if (48 <=? b) && (b <=? 57) then Some (b - 48)
  else if (97 <=? b) && (b <=? 102) then Some (b - 97 + 10)
  else if (65 <=? b) && (b <=? 70) then Some (b - 65 + 10)
  else None.

(** [getu4]: the rune of four hexadecimal digits. *)
Definition getu4 (h1 h2 h3 h4 : ascii) : option Z :=
  match hex_val h1, hex_val h2, hex_val h3, hex_val h4 with
  | Some a, Some b, Some c, Some d => Some (((a * 16 + b) * 16 + c) * 16 + d)
  | _, _, _, _ => None
  end.

(** [utf8.AppendRune]. *)
Definition utf8_encode (r : Z) : string :=
  if r <? 128 then String (byte_of r) ""
  else if r <? 2048 then
    String (byte_of (192 + Z.shiftr r 6))
      (String (byte_of (128 + Z.land r 63)) "")
  else if r <? 65536 then
    String (byte_of (224 + Z.shiftr r 12))
      (String (byte_of (128 + Z.land (Z.shiftr r 6) 63))
         (String (byte_of (128 + Z.land r 63)) ""))
  else
    String (byte_of (240 + Z.shiftr r 18))
      (String (byte_of (128 + Z.land (Z.shiftr r 12) 63))
         (String (byte_of (128 + Z.land (Z.shiftr r 6) 63))
            (String (byte_of (128 + Z.land r 63)) ""))).

Definition is_surrogate (r : Z) : bool := (55296 <=? r) && (r <? 57344).

(** [utf16.DecodeRune]: U+FFFD unless [r1], [r2] are a surrogate pair. *)
Definition utf16_DecodeRune (r1 r2 : Z) : Z :=
  if (55296 <=? r1) && (r1 <? 56320) && (56320 <=? r2) && (r2 <? 57344)
  then Z.shiftl (r1 - 55296) 10 + (r2 - 56320) + 65536
  else 65533.

Definition simple_escape (e : ascii) : option ascii :=
  let b := byte_val e in
  if (b =? 34) || (b =? 92) || (b =? 47) then Some e
  else if b =? 98 then Some (byte_of 8)
  else if b =? 102 then Some (byte_of 12)
  else if b =? 110 then Some (byte_of 10)
  else if b =? 114 then Some (byte_of 13)
  else if b =? 116 then Some (byte_of 9)
  else None.

Definition prepend (p : string) (r : option (string * string))
  : option (string * string) :=
  match r with
  | Some (s, rest) => Some (p +:+ s, rest)
  | None => None
  end.

(** A string literal from just after its opening quote: the decoded
    string and the input left after the closing quote. *)
Fixpoint scan_string (s : string) : option (string * string) :=
  match s with
  | EmptyString => None
  | String c s' =>
      if byte_val c =? 34 then Some ("", s')
      else if byte_val c =? 92 then
        match s' with
        | EmptyString => None
        | String e s'' =>
            if byte_val e =? 117 then
              match s'' with
              | String h1 (String h2 (String h3 (String h4 r))) =>
                  match getu4 h1 h2 h3 h4 with
                  | None => None
                  | Some rr =>
                      if is_surrogate rr then
                        match r with
                        | String b1 (String b2 (String g1 (String g2
                            (String g3 (String g4 r2))))) =>
                            match
                              (if (byte_val b1 =? 92) && (byte_val b2 =? 117)
                               then getu4 g1 g2 g3 g4 else None)
                            with
                            | Some rr1 =>
                                let dec := utf16_DecodeRune rr rr1 in
                                if dec =? 65533
                                then prepend (utf8_encode 65533) (scan_string r)
                                else prepend (utf8_encode dec) (scan_string r2)
                            | None =>
                                prepend (utf8_encode 65533) (scan_string r)
                            end
                        | _ => prepend (utf8_encode 65533) (scan_string r)
                        end
                      else prepend (utf8_encode rr) (scan_string r)
                  end
              | _ => None
              end
            else
              match simple_escape e with
              | Some ch => prepend (String ch "") (scan_string s'')
              | None => None
              end
        end
      else if byte_val c <? 32 then None
      else prepend (String c "") (scan_string s')
  end.

Definition is_num_char (c : ascii) : bool :=
  let b := byte_val c in
  ((48 <=? b) && (b <=? 57)) || (b =? 45) || (b =? 43) || (b =? 46)
  || (b =? 101) || (b =? 69).

Fixpoint span_num (s : string) : string * string :=
  match s with
  | String c s' =>
      if is_num_char c then let '(l, r) := span_num s' in (String c l, r)
      else ("", s)
  | EmptyString => ("", "")
  end.

Fixpoint skip_digits (s : string) : string :=
  match s with
  | String c s' => if is_digit c then skip_digits s' else s
  | EmptyString => s
  end.

(** One or more digits, then the rest. *)
Definition digits1 (s : string) : option string :=
  match s with
  | String c s' => if is_digit c then Some (skip_digits s') else None
  | EmptyString => None
  end.

(** The JSON number grammar: an optional minus sign; a zero, or a
    non-zero digit and further digits; an optional fraction (a point and
    one or more digits); an optional exponent (e or E, an optional sign,
    one or more digits). *)
Definition valid_number (lit : string) : bool :=
  let s := match lit with
           | String c r => if byte_val c =? 45 then r else lit
           | EmptyString => lit
           end in
  match s with
  | EmptyString => false
  | String c r =>
      let after_int :=
        if byte_val c =? 48 then Some r
        else if is_digit c then Some (skip_digits r) else None in
      match after_int with
      | None => false
      | Some s1 =>
          let after_frac :=
            match s1 with
            | String d r1 => if byte_val d =? 46 then digits1 r1 else Some s1
            | EmptyString => Some s1
            end in
          match after_frac with
          | None => false
          | Some s2 =>
              match s2 with
              | EmptyString => true
              | String e r2 =>
                  if (byte_val e =? 101) || (byte_val e =? 69) then
                    let r3 := match r2 with
                              | String sg r' =>
                                  if (byte_val sg =? 43) || (byte_val sg =? 45)
                                  then r' else r2
                              | EmptyString => r2
                              end in
                    match digits1 r3 with
                    | Some EmptyString => true
                    | _ => false
                    end
                  else false
              end
          end
      end
  end.

Definition scan_number (s : string) : option (string * string) :=
  let '(lit, rest) := span_num s in
  if valid_number lit then Some (lit, rest) else None.

(** [s] starts with [lit]: the input after it. *)
Fixpoint scan_literal (lit s : string) : option string :=
  match lit, s with
  | EmptyString, _ => Some s
  | String a lit', String b s' =>
      if Ascii.eqb a b then scan_literal lit' s' else None
  | String _ _, EmptyString => None
  end.

(** *** Decoder: parsing

    One recursion on [fuel] for values, array elements and object
    members; each call consumes input before it recurses twice, so
    [2 * length + 2] is enough fuel for any input. *)

Inductive mode :=
| MValue
| MElems (acc : list value)
| MMembers (acc : list (string * value)).

Fixpoint parse (fuel : nat) (m : mode) (s : string)
  : option (value * string) :=
  match fuel with
  | O => None
  | S fuel =>
      match m with
      | MValue =>
          match skip_ws s with
          | EmptyString => None
          | String c r =>
              let b := byte_val c in
              if b =? 123 then
                match skip_ws r with
                | String c' r' =>
                    if byte_val c' =? 125 then Some (Object [], r')
                    else parse fuel (MMembers []) r
                | EmptyString => None
                end
              else if b =? 91 then
                match skip_ws r with
                | String c' r' =>
                    if byte_val c' =? 93 then Some (Array [], r')
                    else parse fuel (MElems []) r
                | EmptyString => None
                end
              else if b =? 34 then
                match scan_string r with
                | Some (str, r') => Some (Str str, r')
                | None => None
                end
              else if b =? 116 then
                option_map (pair (Bool true)) (scan_literal "rue" r)
              else if b =? 102 then
                option_map (pair (Bool false)) (scan_literal "alse" r)
              else if b =? 110 then
                option_map (pair Null) (scan_literal "ull" r)
              else
                match scan_number (String c r) with
                | Some (lit, r') => Some (Number lit, r')
                | None => None
                end
          end
      | MElems acc =>
          match parse fuel MValue s with
          | Some (v, r) =>
              match skip_ws r with
              | String c r' =>
                  if byte_val c =? 44 then parse fuel (MElems (acc ++ [v])) r'
                  else if byte_val c =? 93 then Some (Array (acc ++ [v]), r')
                  else None
              | EmptyString => None
              end
          | None => None
          end
      | MMembers acc =>
          match skip_ws s with
          | String q r =>
              if byte_val q =? 34 then
                match scan_string r with
                | Some (k, r1) =>
                    match skip_ws r1 with
                    | String c r2 =>
                        if byte_val c =? 58 then
                          match parse fuel MValue r2 with
                          | Some (v, r3) =>
                              match skip_ws r3 with
                              | String c' r4 =>
                                  if byte_val c' =? 44 then
                                    parse fuel (MMembers (acc ++ [(k, v)])) r4
                                  else if byte_val c' =? 125 then
                                    Some (Object (acc ++ [(k, v)]), r4)
                                  else None
                              | EmptyString => None
                              end
                          | None => None
                          end
                        else None
                    | EmptyString => None
                    end
                | None => None
                end
              else None
          | EmptyString => None
          end
      end
  end.

(** [checkValid] and the scan of the one top-level value. *)
Definition parse_document (data : string) : option value :=
  match parse (2 * String.length data + 2) MValue data with
  | Some (v, rest) =>
      match skip_ws rest with
      | EmptyString => Some v
      | _ => None
      end
  | None => None
  end.

(** *** Decoder: filling the struct *)

Definition to_upper (c : ascii) : ascii :=
  let b := byte_val c in
  if (97 <=? b) && (b <=? 122) then byte_of (b - 32) else c.

Fixpoint fold_name (s : string) : string :=
  match s with
  | EmptyString => ""
  | String c s' => String (to_upper c) (fold_name s')
  end.

Definition field_names : list string :=
  ["DEALERID"; "MSISDN"; "MPIN"; "BALANCE"; "STATUS"; "TRANSAMOUNT";
   "TRANSTYPE"; "REMARKS"].

(** The field a key selects: an exact match, or else a match of the
    folded names. *)
Definition find_field (key : string) : option string :=
  if bool_decide (key ∈ field_names) then Some key
  else if bool_decide (fold_name key ∈ field_names) then Some (fold_name key)
  else None.

Definition kind_name (v : value) : string :=
  match v with
  | Null => "null" | Bool _ => "bool" | Number _ => "number"
  | Str _ => "string" | Array _ => "array" | Object _ => "object"
  end.

Definition set_string (field : string) (v : value)
    (set : string -> Account) (a : Account) : result Account :=
  match v with
  | Str s => Ok (set s)
  | Null => Ok a
  | _ => Err (UnmarshalTypeError (kind_name v) field)
  end.

Definition set_int64 (field : string) (v : value)
    (set : Z -> Account) (a : Account) : result Account :=
  match v with
  | Number lit =>
      match strconv.ParseInt lit with
      | Ok n => Ok (set n)
      | Err _ => Err (UnmarshalTypeError ("number " +:+ lit) field)
      end
  | Null => Ok a
  | _ => Err (UnmarshalTypeError (kind_name v) field)
  end.

Definition set_field (a : Account) (key : string) (v : value)
  : result Account :=
  match find_field key with
  | None => Ok a
  | Some f =>
      if String.eqb f "DEALERID" then
        set_string f v (fun x =>
          {| DEALERID := x; MSISDN := MSISDN a; MPIN := MPIN a;
             BALANCE := BALANCE a; STATUS := STATUS a;
             TRANSAMOUNT := TRANSAMOUNT a; TRANSTYPE := TRANSTYPE a;
             REMARKS := REMARKS a |}) a
      else if String.eqb f "MSISDN" then
        set_string f v (fun x =>
          {| DEALERID := DEALERID a; MSISDN := x; MPIN := MPIN a;
             BALANCE := BALANCE a; STATUS := STATUS a;
             TRANSAMOUNT := TRANSAMOUNT a; TRANSTYPE := TRANSTYPE a;
             REMARKS := REMARKS a |}) a
      else if String.eqb f "MPIN" then
        set_string f v (fun x =>
          {| DEALERID := DEALERID a; MSISDN := MSISDN a; MPIN := x;
             BALANCE := BALANCE a; STATUS := STATUS a;
             TRANSAMOUNT := TRANSAMOUNT a; TRANSTYPE := TRANSTYPE a;
             REMARKS := REMARKS a |}) a
      else if String.eqb f "BALANCE" then
        set_int64 f v (fun x =>
          {| DEALERID := DEALERID a; MSISDN := MSISDN a; MPIN := MPIN a;
             BALANCE := x; STATUS := STATUS a;
             TRANSAMOUNT := TRANSAMOUNT a; TRANSTYPE := TRANSTYPE a;
             REMARKS := REMARKS a |}) a
      else if String.eqb f "STATUS" then
        set_string f v (fun x =>
          {| DEALERID := DEALERID a; MSISDN := MSISDN a; MPIN := MPIN a;
             BALANCE := BALANCE a; STATUS := x;
             TRANSAMOUNT := TRANSAMOUNT a; TRANSTYPE := TRANSTYPE a;
             REMARKS := REMARKS a |}) a
      else if String.eqb f "TRANSAMOUNT" then
        set_int64 f v (fun x =>
          {| DEALERID := DEALERID a; MSISDN := MSISDN a; MPIN := MPIN a;
             BALANCE := BALANCE a; STATUS := STATUS a;
             TRANSAMOUNT := x; TRANSTYPE := TRANSTYPE a;
             REMARKS := REMARKS a |}) a
      else if String.eqb f "TRANSTYPE" then
        set_string f v (fun x =>
          {| DEALERID := DEALERID a; MSISDN := MSISDN a; MPIN := MPIN a;
             BALANCE := BALANCE a; STATUS := STATUS a;
             TRANSAMOUNT := TRANSAMOUNT a; TRANSTYPE := x;
             REMARKS := REMARKS a |}) a
      else
        set_string f v (fun x =>
          {| DEALERID := DEALERID a; MSISDN := MSISDN a; MPIN := MPIN a;
             BALANCE := BALANCE a; STATUS := STATUS a;
             TRANSAMOUNT := TRANSAMOUNT a; TRANSTYPE := TRANSTYPE a;
             REMARKS := x |}) a
  end.

Fixpoint set_fields (a : Account) (ms : list (string * value))
  : result Account :=
  match ms with
  | [] => Ok a
  | (k, v) :: ms' =>
      match set_field a k v with
      | Ok a' => set_fields a' ms'
      | Err e => Err e
      end
  end.

(** [json.Unmarshal(data, &a)] for [var a Account]. *)
Definition Unmarshal (data : string) : result Account :=
  match parse_document data with
  | None => Err (SyntaxError "invalid JSON")
  | Some Null => Ok Account_zero
  | Some (Object ms) => set_fields Account_zero ms
  | Some v => Err (UnmarshalTypeError (kind_name v) "Account")
  end.

End json.


(** ** The ledger and its stub *)

Module timestamppb.

Record Timestamp := { Seconds : Z; Nanos : Z }.

(** [x.GetSeconds()], which is 0 on a nil pointer. *)
Definition GetSeconds (x : option Timestamp) : Z :=
  match x with
  | Some t => Seconds t
  | None => 0
  end.

End timestamppb.

(** [queryresult.KeyModification]: one record of a key's change log. *)
Module KeyModification.

Record t := mk {
  TxId : string;
  Value : option string;                       (* []byte, possibly nil *)
  Timestamp : option timestamppb.Timestamp;    (* *timestamppb.Timestamp *)
  IsDelete : bool
}.

End KeyModification.

(** [queryresult.KV]: one result of a range query. *)
Module KV.

Record t := mk { Key : string; Value : string }.

End KV.

Module shim.

(** Modelled from the spec: the ledger, which the contract only reaches
    through the stub and which is not part of this repository.  It is "an
    append-only, replicated key-value state log" (glossary): a world state
    mapping each live key to its bytes, and for every key the log of the
    writes committed to it, oldest first ("ordered by ledger commit order
    (oldest to newest as returned by the underlying change-log iterator)",
    section 3). *)
Record Ledger := {
  world : gmap string string;
  changes : gmap string (list KeyModification.t)
}.

Definition genesis : Ledger := {| world := ∅; changes := ∅ |}.

Definition history_of (l : Ledger) (key : string) : list KeyModification.t :=
  default [] (changes l !! key).

(** What a transaction asked of the stub, in call order. *)
Inductive access :=
| ReadState (key : string)
| ReadRange (startKey endKey : string)
| ReadHistory (key : string)
| WriteState (key value : string)
| DeleteState (key : string).

Definition is_write (a : access) : bool :=
  match a with
  | WriteState _ _ | DeleteState _ => true
  | _ => false
  end.

(** The key an access touches; a range query touches no single key. *)
Definition access_key (a : access) : option string :=
  match a with
  | ReadState k | ReadHistory k | WriteState k _ | DeleteState k => Some k
  | ReadRange _ _ => None
  end.

(** Chaincode running in a transaction context: it reads the committed
    ledger, returns a value or an error as Go's [(v, err)], and leaves the
    trace of its stub calls.  Writes are not visible to later reads of the
    same transaction; they take effect at commit. *)
Definition Tx (A : Type) : Type := Ledger -> result A * list access.

Definition ret {A} (a : A) : Tx A := fun _ => (Ok a, []).

Definition bind {A B} (m : Tx A) (f : A -> Tx B) : Tx B :=
  fun l =>
    match m l with
    | (Ok a, t1) => let '(r, t2) := f a l in (r, t1 ++ t2)
    | (Err e, t1) => (Err e, t1)
    end.

(** [return err]. *)
Definition throw {A} (e : error) : Tx A := fun _ => (Err e, []).

(** A library call that does not touch the ledger. *)
Definition lift {A} (r : result A) : Tx A := fun _ => (r, []).

(** Modelled from the spec: the point operations of the stub.  A read
    returns the committed bytes of the key, or nil when the key has no
    record; a write and a delete are accepted for every key and recorded
    for the commit.  The stub itself never fails: the ledger is "a
    black-box transaction log" (section 1) and is taken to be available. *)
Definition GetState (key : string) : Tx (option string) :=
  fun l => (Ok (world l !! key), [ReadState key]).

Definition PutState (key value : string) : Tx unit :=
  fun _ => (Ok tt, [WriteState key value]).

Definition DelState (key : string) : Tx unit :=
  fun _ => (Ok tt, [DeleteState key]).

Definition kv_le (x y : KV.t) : Prop := String.le (KV.Key x) (KV.Key y).

#[global] Instance kv_le_dec : RelDecision kv_le.
Proof. intros x y. unfold kv_le. apply _. Defined.

(** [startKey <= key < endKey] in byte order; an empty [endKey] is no
    upper bound. *)
Definition in_range (startKey endKey key : string) : bool :=
  String.leb startKey key
  && (String.eqb endKey "" || String.ltb key endKey).

(** Modelled from the spec: the range iterator, drained into the list of
    its results.  It yields the live keys of the range "in key-range
    iteration order (lexicographic over subscriber identifiers)"
    (section 4.3). *)
Definition GetStateByRange (startKey endKey : string) : Tx (list KV.t) :=
  fun l =>
    let kvs := (fun p => KV.mk p.1 p.2) <$> map_to_list (world l) in
    (Ok (merge_sort kv_le
           (filter (fun kv => in_range startKey endKey (KV.Key kv) = true) kvs)),
     [ReadRange startKey endKey]).

(** Modelled from the spec: the history iterator, drained into the list of
    its results.  It yields the change log of the key in commit order,
    oldest first (section 3). *)
Definition GetHistoryForKey (key : string) : Tx (list KeyModification.t) :=
  fun l => (Ok (history_of l key), [ReadHistory key]).

(** The transaction a call runs in. *)
Record TxContext := {
  GetTxID : string;
  GetTxTimestamp : timestamppb.Timestamp
}.

(** Modelled from the spec: the commit of one access of a transaction's
    trace.  A write replaces the value of its key and a delete removes the
    key, and each appends one record to the key's change log, stamped with
    the identifier and the timestamp of the committing transaction; reads
    change nothing. *)
Definition apply_access (tx : TxContext) (l : Ledger) (a : access) : Ledger :=
  match a with
  | WriteState k v =>
      {| world := <[k := v]> (world l);
         changes :=
           <[k := history_of l k ++
                  [KeyModification.mk (GetTxID tx) (Some v)
                     (Some (GetTxTimestamp tx)) false]]> (changes l) |}
  | DeleteState k =>
      {| world := delete k (world l);
         changes :=
           <[k := history_of l k ++
                  [KeyModification.mk (GetTxID tx) None
                     (Some (GetTxTimestamp tx)) true]]> (changes l) |}
  | _ => l
  end.

Definition commit (tx : TxContext) (trace : list access) (l : Ledger) : Ledger :=
  fold_left (apply_access tx) trace l.

(** Submit: run the chaincode and, unless it returned an error, commit
    its writes. *)
Definition submit {A} (tx : TxContext) (f : Tx A) (l : Ledger)
  : result A * Ledger :=
  match f l with
  | (Ok a, trace) => (Ok a, commit tx trace l)
  | (Err e, _) => (Err e, l)
  end.

(** Evaluate: run the chaincode and commit nothing. *)
Definition evaluate {A} (f : Tx A) (l : Ledger) : result A := (f l).1.

(** The stub calls a run makes. *)
Definition trace_of {A} (f : Tx A) (l : Ledger) : list access := (f l).2.

End shim.

Import shim.

Notation "x <- m ;;; k" := (bind m (fun x => k))
  (at level 100, m at next level, k at level 200, right associativity,
   format "'[v' x  <-  m  ;;; '/' k ']'").

(** ** The contract (chaincode.go) *)

(** [errors.New("asset exists")], [errors.New("not found")]: the
    specification's AlreadyExists and NotFound.  Its InvalidAmount is the
    [*strconv.NumError] that [CreateAsset] and [UpdateAsset] pass on. *)
Definition AlreadyExists : error := errors_New "asset exists".
Definition NotFound : error := errors_New "not found".

Definition InvalidAmount (e : error) : Prop :=
  exists num kind, e = NumError "ParseInt" num kind.

(** [func (s *SmartContract) exists(ctx, key) (bool, error)] *)
Definition exists_ (key : string) : Tx bool :=
  b <- GetState key ;;;
  ret (bool_decide (b <> None)).

Definition CreateAsset
    (dealerID msisdn mpin balance status transAmount transType remarks : string)
  : Tx unit :=
  ok <- exists_ msisdn ;;;
  if ok then throw (errors_New "asset exists")
  else
    bal <- lift (strconv.ParseInt balance) ;;;
    tamt <- lift (strconv.ParseInt transAmount) ;;;
    let acc := {| DEALERID := dealerID; MSISDN := msisdn; MPIN := mpin;
                  BALANCE := bal; STATUS := status; TRANSAMOUNT := tamt;
                  TRANSTYPE := transType; REMARKS := remarks |} in
    raw <- lift (json.Marshal acc) ;;;
    PutState msisdn raw.

Definition ReadAsset (msisdn : string) : Tx Account :=
  b <- GetState msisdn ;;;
  match b with
  | None => throw (errors_New "not found")
  | Some b =>
      acc <- lift (json.Unmarshal b) ;;;
      ret acc
  end.

Definition UpdateAsset
    (dealerID msisdn mpin balance status transAmount transType remarks : string)
  : Tx unit :=
  ok <- exists_ msisdn ;;;
  if negb ok then throw (errors_New "not found")
  else
    bal <- lift (strconv.ParseInt balance) ;;;
    tamt <- lift (strconv.ParseInt transAmount) ;;;
    let acc := {| DEALERID := dealerID; MSISDN := msisdn; MPIN := mpin;
                  BALANCE := bal; STATUS := status; TRANSAMOUNT := tamt;
                  TRANSTYPE := transType; REMARKS := remarks |} in
    raw <- lift (json.Marshal acc) ;;;
    PutState msisdn raw.

Definition DeleteAsset (msisdn : string) : Tx unit :=
  ok <- exists_ msisdn ;;;
  if negb ok then throw (errors_New "not found")
  else DelState msisdn.

(** The [for it.HasNext()] loop of [GetAllAssets] over the results [it]
    still to come, with [out] collected so far. *)
Fixpoint GetAllAssets_loop (it : list KV.t) (out : list Account)
  : result (list Account) :=
  match it with
  | [] => Ok out
  | kv :: it =>
      match json.Unmarshal (KV.Value kv) with
      | Err e => Err e
      | Ok a => GetAllAssets_loop it (out ++ [a])
      end
  end.

Definition GetAllAssets : Tx (list Account) :=
  it <- GetStateByRange "" "" ;;;
  lift (GetAllAssets_loop it []).

(** The [for it.HasNext()] loop of [GetAssetHistory]. *)
Fixpoint GetAssetHistory_loop (it : list KeyModification.t) (h : list History)
  : result (list History) :=
  match it with
  | [] => Ok h
  | rec :: it =>
      let val :=
        if bool_decide (KeyModification.Value rec <> None)
           && negb (KeyModification.IsDelete rec)
        then
          match json.Unmarshal (default "" (KeyModification.Value rec)) with
          | Err e => Err e
          | Ok a => Ok (Some a)
          end
        else Ok None in
      match val with
      | Err e => Err e
      | Ok val =>
          GetAssetHistory_loop it
            (h ++ [{| TxID := KeyModification.TxId rec;
                      Value := val;
                      IsDelete := KeyModification.IsDelete rec;
                      Timestamp :=
                        timestamppb.GetSeconds (KeyModification.Timestamp rec) |}])
      end
  end.

Definition GetAssetHistory (msisdn : string) : Tx (list History) :=
  it <- GetHistoryForKey msisdn ;;;
  lift (GetAssetHistory_loop it []).

(** *** The contract as a transition system

    The transactions that the contract API dispatches to the contract, by
    function name and string arguments. *)
Inductive Invocation :=
| CallCreateAsset
    (dealerID msisdn mpin balance status transAmount transType remarks : string)
| CallReadAsset (msisdn : string)
| CallUpdateAsset
    (dealerID msisdn mpin balance status transAmount transType remarks : string)
| CallDeleteAsset (msisdn : string)
| CallGetAllAssets
| CallGetAssetHistory (msisdn : string).

Inductive Response :=
| RespNone
| RespAccount (a : Account)
| RespAccounts (l : list Account)
| RespHistory (h : list History).

Definition invoke (i : Invocation) : Tx Response :=
  match i with
  | CallCreateAsset d m p b s t ty r =>
      _ <- CreateAsset d m p b s t ty r ;;; ret RespNone
  | CallReadAsset m => a <- ReadAsset m ;;; ret (RespAccount a)
  | CallUpdateAsset d m p b s t ty r =>
      _ <- UpdateAsset d m p b s t ty r ;;; ret RespNone
  | CallDeleteAsset m => _ <- DeleteAsset m ;;; ret RespNone
  | CallGetAllAssets => l <- GetAllAssets ;;; ret (RespAccounts l)
  | CallGetAssetHistory m => h <- GetAssetHistory m ;;; ret (RespHistory h)
  end.

(** The subscriber identifier an invocation is given, if it takes one. *)
Definition subscriberID (i : Invocation) : option string :=
  match i with
  | CallCreateAsset _ m _ _ _ _ _ _ | CallUpdateAsset _ m _ _ _ _ _ _
  | CallReadAsset m | CallDeleteAsset m | CallGetAssetHistory m => Some m
  | CallGetAllAssets => None
  end.

(** One submitted transaction. *)
Definition step (tx : TxContext) (i : Invocation) (l : Ledger) : Ledger :=
  (submit tx (invoke i) l).2.

(** The ledger states that the contract alone can produce. *)
Inductive reachable : Ledger -> Prop :=
| reachable_genesis : reachable genesis
| reachable_step l tx i : reachable l -> reachable (step tx i l).

(** A record exists for [key]. *)
Definition live (l : Ledger) (key : string) : Prop := world l !! key <> None.


(** *** Vocabulary of the properties *)

(** [s] parses as a base-10 64-bit integer. *)
Definition parses (s : string) : Prop := exists z, base10_int64 s z.

(** The record [CreateAsset] and [UpdateAsset] build from their arguments,
    once the two amounts are parsed. *)
Definition account_of
    (dealerID msisdn mpin : string) (bal : Z) (status : string) (tamt : Z)
    (transType remarks : string) : Account :=
  {| DEALERID := dealerID; MSISDN := msisdn; MPIN := mpin; BALANCE := bal;
     STATUS := status; TRANSAMOUNT := tamt; TRANSTYPE := transType;
     REMARKS := remarks |}.

(** The bytes under [key] encode an account whose [MSISDN] is [key]. *)
Definition stored_ok (key raw : string) : Prop :=
  exists a, json.Marshal a = Ok raw /\ MSISDN a = key
            /\ in_int64 (BALANCE a) /\ in_int64 (TRANSAMOUNT a).

Definition well_formed (l : Ledger) : Prop :=
  forall key raw, world l !! key = Some raw -> stored_ok key raw.

(** The invocation is a create, update or delete addressed to [key]. *)
Definition mutates (i : Invocation) (key : string) : bool :=
  match i with
  | CallCreateAsset _ m _ _ _ _ _ _ | CallUpdateAsset _ m _ _ _ _ _ _
  | CallDeleteAsset m => bool_decide (m = key)
  | _ => false
  end.


(** The history entry of one change-log record that needs no decoding or
    whose value decodes to [val]. *)
Definition entry_of (rec : KeyModification.t) (val : option Account) : History :=
  {| TxID := KeyModification.TxId rec;
     Value := val;
     IsDelete := KeyModification.IsDelete rec;
     Timestamp := timestamppb.GetSeconds (KeyModification.Timestamp rec) |}.


(** *** A sample run

    The ledgers of a short run of the contract from the empty ledger, and
    one ledger whose change log holds records that the contract itself
    never produces.  The properties below are instantiated on them. *)
Module sample.

Definition at_second (s : Z) : timestamppb.Timestamp :=
  {| timestamppb.Seconds := s; timestamppb.Nanos := 0 |}.

Definition tx1 : TxContext :=
  {| GetTxID := "tx1"; GetTxTimestamp := at_second 1700000000 |}.
Definition tx2 : TxContext :=
  {| GetTxID := "tx2"; GetTxTimestamp := at_second 1700000060 |}.
Definition tx3 : TxContext :=
  {| GetTxID := "tx3"; GetTxTimestamp := at_second 1700000120 |}.
Definition tx4 : TxContext :=
  {| GetTxID := "tx4"; GetTxTimestamp := at_second 1700000180 |}.

Definition alice : string := "9990001111".
Definition bob : string := "9990000042".

Definition created : Ledger :=
  step tx1 (CallCreateAsset "D1" alice "1234" "1000" "ACTIVE" "0" "NA" "init")
    genesis.

(** A second subscriber joins; its key sorts before the first one's. *)
Definition joined : Ledger :=
  step tx2 (CallCreateAsset "D2" bob "0000" "-5" "NEW" "7" "CR" "") created.

Definition updated : Ledger :=
  step tx3 (CallUpdateAsset "D9" alice "4321" "2500" "BLOCKED" "-40" "DR" "fee")
    joined.

Definition deleted : Ledger := step tx4 (CallDeleteAsset alice) updated.

(** The bytes stored for the first subscriber by its creation. *)
Definition stored : string := default "" (world created !! alice).

(** A change log with a write that has no value and a deletion that has
    one. *)
Definition odd : Ledger :=
  {| world := ∅;
     changes :=
       {[ alice :=
            [ KeyModification.mk "t1" None None false;
              KeyModification.mk "t2" (Some "junk") (Some (at_second 5)) true ] ]} |}.

End sample.


(** *** Vocabulary of the further properties *)

(** [utf8.ValidString]: [json.Marshal] writes the bytes of a string as
    they are only when they are valid UTF-8 (it replaces any other byte),
    so the properties that read back a string that was written are stated
    for such strings. *)
Module utf8.

Definition between (lo hi : Z) (c : ascii) : bool :=
  (lo <=? byte_val c) && (byte_val c <=? hi).

Fixpoint ValidString (s : string) : bool :=
  match s with
  | EmptyString => true
  | String c s1 =>
      let b := byte_val c in
      if b <? 128 then ValidString s1
      else if (194 <=? b) && (b <=? 223) then
        match s1 with
        | String c1 s2 => between 128 191 c1 && ValidString s2
        | _ => false
        end
      else if (224 <=? b) && (b <=? 239) then
        match s1 with
        | String c1 (String c2 s3) =>
            between (if b =? 224 then 160 else 128)
                    (if b =? 237 then 159 else 191) c1
            && between 128 191 c2 && ValidString s3
        | _ => false
        end
      else if (240 <=? b) && (b <=? 244) then
        match s1 with
        | String c1 (String c2 (String c3 s4)) =>
            between (if b =? 240 then 144 else 128)
                    (if b =? 244 then 143 else 191) c1
            && between 128 191 c2 && between 128 191 c3 && ValidString s4
        | _ => false
        end
      else false
  end.

End utf8.

(** An account as a Go program holds it: text in its strings, 64-bit
    integers in its amounts. *)
Definition valid_account (a : Account) : Prop :=
  utf8.ValidString (DEALERID a) = true /\ utf8.ValidString (MSISDN a) = true
  /\ utf8.ValidString (MPIN a) = true /\ utf8.ValidString (STATUS a) = true
  /\ utf8.ValidString (TRANSTYPE a) = true
  /\ utf8.ValidString (REMARKS a) = true
  /\ in_int64 (BALANCE a) /\ in_int64 (TRANSAMOUNT a).

(** The value of a key after the writes of its change log [recs], from the
    value [cur]; [None] when the log holds a deletion of an absent key, a
    deletion with a value or a write without one. *)
Fixpoint replay (recs : list KeyModification.t) (cur : option string)
  : option (option string) :=
  match recs with
  | [] => Some cur
  | rec :: recs =>
      if KeyModification.IsDelete rec then
        match cur, KeyModification.Value rec with
        | Some _, None => replay recs None
        | _, _ => None
        end
      else
        match KeyModification.Value rec with
        | Some raw => replay recs (Some raw)
        | None => None
        end
  end.

(** The change log of every key replays to the key's record, and every
    value written under a key encodes an account of that key. *)
Definition log_ok (l : Ledger) : Prop :=
  forall key,
    replay (history_of l key) None = Some (world l !! key)
    /\ Forall (fun rec => forall raw, KeyModification.Value rec = Some raw ->
                                       stored_ok key raw)
         (history_of l key).

(** How an entry of [GetAssetHistory] for [k] relates to the record it
    was made from, when the record is one of a log that replays. *)
Definition entry_rel (k : string) (rec : KeyModification.t) (h : History) : Prop :=
  IsDelete h = KeyModification.IsDelete rec
  /\ if KeyModification.IsDelete rec then Value h = None
     else exists raw a, KeyModification.Value rec = Some raw
                        /\ json.Unmarshal raw = Ok a /\ Value h = Some a
                        /\ MSISDN a = k.

(** The submitted invocation returns without error. *)
Definition succeeds (tx : TxContext) (i : Invocation) (l : Ledger) : bool :=
  match (submit tx (invoke i) l).1 with Ok _ => true | Err _ => false end.

(** The members that the decoder reads from an encoded account. *)
Definition members (a : Account) : list (string * json.value) :=
  [("DEALERID", json.Str (DEALERID a)); ("MSISDN", json.Str (MSISDN a));
   ("MPIN", json.Str (MPIN a));
   ("BALANCE", json.Number (strconv.FormatInt (BALANCE a)));
   ("STATUS", json.Str (STATUS a));
   ("TRANSAMOUNT", json.Number (strconv.FormatInt (TRANSAMOUNT a)));
   ("TRANSTYPE", json.Str (TRANSTYPE a)); ("REMARKS", json.Str (REMARKS a))].


(** ** The request facade (unnamed/part_000)

    The handlers that [main] registers with the router, as functions of
    what the router hands them (the path parameter, the outcome of binding
    the request body) and of the ledger behind the client.  The key
    loading and the connection set-up of the file are not modelled. *)

(** *** encoding/json, for a sequence of accounts *)

Module json_seq.

(** The elements of an array, separated by commas. *)
Fixpoint elements (xs : list string) : string :=
  match xs with
  | [] => ""
  | [x] => x
  | x :: xs => x +:+ "," +:+ elements xs
  end.

(** Every account of a sequence encoded, or the first error. *)
Fixpoint encode_all (accs : list Account) : result (list string) :=
  match accs with
  | [] => Ok []
  | a :: accs =>
      match json.Marshal a with
      | Err e => Err e
      | Ok raw =>
          match encode_all accs with
          | Err e => Err e
          | Ok raws => Ok (raw :: raws)
          end
      end
  end.

(** [json.Marshal] of a non-nil [[]*Account] without nil elements. *)
Definition Marshal (accs : list Account) : result string :=
  match encode_all accs with
  | Ok raws => Ok ("[" +:+ elements raws +:+ "]")
  | Err e => Err e
  end.

(** One element of an array decoded into a fresh [Account]. *)
Definition element (v : json.value) : result Account :=
  match v with
  | json.Null => Ok Account_zero
  | json.Object ms => json.set_fields Account_zero ms
  | _ => Err (UnmarshalTypeError (json.kind_name v) "Account")
  end.

Fixpoint elems (vs : list json.value) : result (list Account) :=
  match vs with
  | [] => Ok []
  | v :: vs =>
      match element v with
      | Err e => Err e
      | Ok a =>
          match elems vs with
          | Err e => Err e
          | Ok accs => Ok (a :: accs)
          end
      end
  end.

(** [json.Unmarshal(data, &out)] for [var out []Account], which is nil
    before the call: [None] is the nil slice. *)
Definition Unmarshal (data : string) : result (option (list Account)) :=
  match json.parse_document data with
  | None => Err (SyntaxError "invalid JSON")
  | Some json.Null => Ok None
  | Some (json.Array vs) =>
      match elems vs with
      | Ok accs => Ok (Some accs)
      | Err e => Err e
      end
  | Some v => Err (UnmarshalTypeError (json.kind_name v) "[]Account")
  end.

End json_seq.

Module client.

(** Modelled from the spec: the two calls of the ledger client (sections
    4.2 and 6).  [EvaluateTransaction] runs the contract function that its
    name and arguments select, [f], against the current ledger and returns
    its result as the contract runtime encodes it, [encode], "a
    JSON-encoded byte payload", or the contract's error; it commits
    nothing.  [SubmitTransaction] also commits the writes of a run without
    error, in the transaction [tx] that the client creates for it.
    Timeouts and failures of the network are not modelled. *)
Definition EvaluateTransaction {A} (f : Tx A) (encode : A -> result string)
    (l : Ledger) : result string :=
  match evaluate f l with
  | Ok a => encode a
  | Err e => Err e
  end.

Definition SubmitTransaction {A} (tx : TxContext) (f : Tx A)
    (encode : A -> result string) (l : Ledger) : result string * Ledger :=
  match submit tx f l with
  | (Ok a, l') => (encode a, l')
  | (Err e, l') => (Err e, l')
  end.

(** The payload of a contract function that returns only an error. *)
Definition no_payload (_ : unit) : result string := Ok "".

End client.

Module api.

(** What a handler passes to [c.JSON]; an error is kept as the error
    that the client or the binding returned, not as its text. *)
Inductive Body :=
| H_error (cause : error)                (* gin.H{"error": err.Error()} *)
| H_message (message msisdn : string)    (* gin.H{"message": ..., "msisdn": ...} *)
| OneAccount (a : Account)
| Accounts (out : option (list Account)).

(** [c.JSON(code, obj)]. *)
Record Response := JSON { code : Z; obj : Body }.

(** [r.GET("/assets", ...)] *)
Definition GET_assets (l : Ledger) : Response :=
  match client.EvaluateTransaction GetAllAssets json_seq.Marshal l with
  | Err e => JSON 500 (H_error e)
  | Ok res =>
      if 0 <? Z.of_nat (String.length res) then
        match json_seq.Unmarshal res with
        | Err e => JSON 500 (H_error e)
        | Ok out => JSON 200 (Accounts out)
        end
      else JSON 200 (Accounts None)
  end.

(** [r.GET("/assets/:msisdn", ...)]; [msisdn] is [c.Param("msisdn")]. *)
Definition GET_asset (msisdn : string) (l : Ledger) : Response :=
  match client.EvaluateTransaction (ReadAsset msisdn) json.Marshal l with
  | Err e => JSON 500 (H_error e)
  | Ok res =>
      match json.Unmarshal res with
      | Err e => JSON 500 (H_error e)
      | Ok a => JSON 200 (OneAccount a)
      end
  end.

(** [r.POST("/assets", ...)]; [bound] is the outcome of [c.BindJSON(&a)]:
    the account read from the request body, or the error. *)
Definition POST_assets (tx : TxContext) (bound : result Account) (l : Ledger)
  : Response * Ledger :=
  match bound with
  | Err e => (JSON 400 (H_error e), l)
  | Ok a =>
      match client.SubmitTransaction tx
              (CreateAsset (DEALERID a) (MSISDN a) (MPIN a)
                 (strconv.FormatInt (BALANCE a)) (STATUS a)
                 (strconv.FormatInt (TRANSAMOUNT a)) (TRANSTYPE a) (REMARKS a))
              client.no_payload l with
      | (Err e, l') => (JSON 500 (H_error e), l')
      | (Ok _, l') => (JSON 201 (H_message "created" (MSISDN a)), l')
      end
  end.

(** [if a.MSISDN == "" { a.MSISDN = msisdn }] *)
Definition put_account (msisdn : string) (a : Account) : Account :=
  if String.eqb (MSISDN a) ""
  then {| DEALERID := DEALERID a; MSISDN := msisdn; MPIN := MPIN a;
          BALANCE := BALANCE a; STATUS := STATUS a;
          TRANSAMOUNT := TRANSAMOUNT a; TRANSTYPE := TRANSTYPE a;
          REMARKS := REMARKS a |}
  else a.

(** [r.PUT("/assets/:msisdn", ...)] *)
Definition PUT_asset (tx : TxContext) (msisdn : string) (bound : result Account)
    (l : Ledger) : Response * Ledger :=
  match bound with
  | Err e => (JSON 400 (H_error e), l)
  | Ok a =>
      let a := put_account msisdn a in
      match client.SubmitTransaction tx
              (UpdateAsset (DEALERID a) (MSISDN a) (MPIN a)
                 (strconv.FormatInt (BALANCE a)) (STATUS a)
                 (strconv.FormatInt (TRANSAMOUNT a)) (TRANSTYPE a) (REMARKS a))
              client.no_payload l with
      | (Err e, l') => (JSON 500 (H_error e), l')
      | (Ok _, l') => (JSON 200 (H_message "updated" (MSISDN a)), l')
      end
  end.

(** [r.DELETE("/assets/:msisdn", ...)] *)
Definition DELETE_asset (tx : TxContext) (msisdn : string) (l : Ledger)
  : Response * Ledger :=
  match client.SubmitTransaction tx (DeleteAsset msisdn) client.no_payload l with
  | (Err e, l') => (JSON 500 (H_error e), l')
  | (Ok _, l') => (JSON 200 (H_message "deleted" msisdn), l')
  end.

End api.

(** *** Requests on the sample run *)
Module demo.

(** The body of a request for the first subscriber of the sample run. *)
Definition account : Account :=
  {| DEALERID := "D7"; MSISDN := sample.alice; MPIN := "0042"; BALANCE := 250;
     STATUS := "ACTIVE"; TRANSAMOUNT := -10; TRANSTYPE := "DR";
     REMARKS := "top-up <refund>" |}.

(** The same body without a subscriber identifier. *)
Definition anonymous : Account :=
  {| DEALERID := "D7"; MSISDN := ""; MPIN := "0042"; BALANCE := 250;
     STATUS := "ACTIVE"; TRANSAMOUNT := -10; TRANSTYPE := "DR";
     REMARKS := "top-up <refund>" |}.

(** What [GetAssetHistory] returns for the first subscriber after the
    second subscriber has joined. *)
Definition first_entry : History :=
  {| TxID := "tx1";
     Value := Some {| DEALERID := "D1"; MSISDN := sample.alice; MPIN := "1234";
                      BALANCE := 1000; STATUS := "ACTIVE"; TRANSAMOUNT := 0;
                      TRANSTYPE := "NA"; REMARKS := "init" |};
     IsDelete := false;
     Timestamp := 1700000000 |}.

(** What [GetAllAssets] returns then. *)
Definition listed : list Account :=
  [ {| DEALERID := "D2"; MSISDN := sample.bob; MPIN := "0000"; BALANCE := -5;
       STATUS := "NEW"; TRANSAMOUNT := 7; TRANSTYPE := "CR"; REMARKS := "" |};
    {| DEALERID := "D1"; MSISDN := sample.alice; MPIN := "1234";
       BALANCE := 1000; STATUS := "ACTIVE"; TRANSAMOUNT := 0;
       TRANSTYPE := "NA"; REMARKS := "init" |} ].

End demo.


(** * Properties *)

(** ** Bytes *)

Lemma byte_val_range c : 0 <= byte_val c < 256.
Proof.
  unfold byte_val. pose proof (N_ascii_bounded c) as H.
  split; [apply N2Z.is_nonneg|]. change 256 with (Z.of_N 256). lia.
Qed.

Lemma byte_of_val c : byte_of (byte_val c) = c.
Proof. unfold byte_of, byte_val. rewrite N2Z.id. apply ascii_N_embedding. Qed.

Lemma byte_val_of z : 0 <= z < 256 -> byte_val (byte_of z) = z.
Proof.
  intros H. unfold byte_of, byte_val.
  rewrite N_ascii_embedding by lia. lia.
Qed.

Lemma byte_val_inj c1 c2 : byte_val c1 = byte_val c2 -> c1 = c2.
Proof. intros H. rewrite <- (byte_of_val c1), <- (byte_of_val c2). by rewrite H. Qed.

(** ** Strings *)

Lemma app_cons_s c (s1 s2 : string) : String c s1 +:+ s2 = String c (s1 +:+ s2).
Proof. reflexivity. Qed.

Lemma app_nil_l_s (s : string) : "" +:+ s = s.
Proof. reflexivity. Qed.

Ltac simpl_app := rewrite ?app_cons_s, ?app_nil_l_s.
Ltac simpl_app_in H := rewrite ?app_cons_s, ?app_nil_l_s in H.

Lemma app_assoc_s (s1 s2 s3 : string) : (s1 +:+ s2) +:+ s3 = s1 +:+ s2 +:+ s3.
Proof. induction s1 as [|c s1 IH]; simpl_app; [done|]. by rewrite IH. Qed.

Lemma app_nil_r_s (s : string) : s +:+ "" = s.
Proof. induction s as [|c s IH]; simpl_app; [done|]. by rewrite IH. Qed.

Lemma app_length_s (s1 s2 : string) :
  String.length (s1 +:+ s2) = (String.length s1 + String.length s2)%nat.
Proof.
  induction s1 as [|c s1 IH]; simpl_app; [done|].
  cbn [String.length]. by rewrite IH.
Qed.

Lemma is_digit_spec c : is_digit c = true <-> 48 <= byte_val c <= 57.
Proof. unfold is_digit. rewrite andb_true_iff, !Z.leb_le. tauto. Qed.

(** ** strconv: [ParseInt] against the specification's reading *)

Section ParseUint.

Import strconv.

Let two64 : 2 ^ 64 = 18446744073709551616 := eq_refl.

Lemma ParseUint_loop_nondigit c s n :
  is_digit c = false -> ParseUint_loop (String c s) n = (0, Some ErrSyntax).
Proof.
  intros Hd. unfold is_digit in Hd. cbn [ParseUint_loop]. cbv zeta.
  rewrite Hd.
  destruct ((97 <=? lower (byte_val c)) && (lower (byte_val c) <=? 122)) eqn:Hl;
    [|reflexivity].
  apply andb_true_iff in Hl as [H1 _]. apply Z.leb_le in H1.
  replace (10 <=? lower (byte_val c) - 97 + 10) with true; [reflexivity|].
  symmetry. apply Z.leb_le. lia.
Qed.

Lemma ParseUint_loop_digit c s n :
  is_digit c = true -> 0 <= n ->
  ParseUint_loop (String c s) n =
    if (maxUint64 / 10 + 1 <=? n) || (maxUint64 <? n * 10 + (byte_val c - 48))
    then (maxUint64, Some ErrRange)
    else ParseUint_loop s (n * 10 + (byte_val c - 48)).
Proof.
  intros Hd Hn. pose proof Hd as Hd'. apply is_digit_spec in Hd'.
  unfold is_digit in Hd. cbn [ParseUint_loop]. cbv zeta. rewrite Hd.
  replace (10 <=? byte_val c - 48) with false by (symmetry; apply Z.leb_gt; lia).
  change (uint64 (Z.shiftl 1 64 - 1)) with maxUint64.
  change (maxUint64 / 10 + 1) with 1844674407370955162.
  unfold maxUint64, uint64. rewrite two64.
  destruct (1844674407370955162 <=? n) eqn:Hc; [reflexivity|].
  apply Z.leb_gt in Hc. cbn [orb].
  rewrite (Z.mod_small (n * 10)) by lia.
  destruct (18446744073709551616 - 1 <? n * 10 + (byte_val c - 48)) eqn:Ho.
  - apply Z.ltb_lt in Ho.
    replace ((n * 10 + (byte_val c - 48)) mod 18446744073709551616)
      with (n * 10 + (byte_val c - 48) - 18446744073709551616).
    + replace (n * 10 + (byte_val c - 48) - 18446744073709551616 <? n * 10)
        with true by (symmetry; apply Z.ltb_lt; lia).
      reflexivity.
    + apply Z.mod_unique with (q := 1); lia.
  - apply Z.ltb_ge in Ho. rewrite Z.mod_small by lia.
    replace (n * 10 + (byte_val c - 48) <? n * 10)
      with false by (symmetry; apply Z.ltb_ge; lia).
    replace (18446744073709551616 - 1 <? n * 10 + (byte_val c - 48))
      with false by (symmetry; apply Z.ltb_ge; lia).
    reflexivity.
Qed.

Lemma dval_mono s n : all_digits s = true -> 0 <= n -> n <= dval s n.
Proof.
  revert n. induction s as [|c s IH]; intros n Hs Hn; cbn in *; [lia|].
  apply andb_true_iff in Hs as [Hc Hs]. apply is_digit_spec in Hc.
  specialize (IH (n * 10 + (byte_val c - 48)) Hs). lia.
Qed.

Lemma ParseUint_loop_ok s n :
  all_digits s = true -> 0 <= n -> dval s n <= maxUint64 ->
  ParseUint_loop s n = (dval s n, None).
Proof.
  revert n. induction s as [|c s IH]; intros n Hs Hn Hv; [reflexivity|].
  cbn [all_digits dval] in *. apply andb_true_iff in Hs as [Hc Hs].
  rewrite ParseUint_loop_digit by assumption.
  pose proof Hc as Hc'. apply is_digit_spec in Hc'.
  pose proof (dval_mono s (n * 10 + (byte_val c - 48)) Hs ltac:(lia)) as Hm.
  unfold maxUint64 in *. rewrite two64 in *.
  change ((18446744073709551616 - 1) / 10 + 1) with 1844674407370955162.
  replace (1844674407370955162 <=? n) with false by (symmetry; apply Z.leb_gt; lia).
  replace (18446744073709551616 - 1 <? n * 10 + (byte_val c - 48))
    with false by (symmetry; apply Z.ltb_ge; lia).
  cbn [orb]. apply IH; [assumption|lia|lia].
Qed.

Lemma ParseUint_loop_range s n :
  all_digits s = true -> 0 <= n <= maxUint64 -> maxUint64 < dval s n ->
  ParseUint_loop s n = (maxUint64, Some ErrRange).
Proof.
  revert n. induction s as [|c s IH]; intros n Hs Hn Hv; cbn [all_digits dval] in *.
  - lia.
  - apply andb_true_iff in Hs as [Hc Hs].
    rewrite ParseUint_loop_digit by (assumption || lia).
    destruct ((maxUint64 / 10 + 1 <=? n)
              || (maxUint64 <? n * 10 + (byte_val c - 48))) eqn:Ho; [reflexivity|].
    apply orb_false_iff in Ho as [_ Ho]. apply Z.ltb_ge in Ho.
    apply is_digit_spec in Hc. apply IH; [assumption|lia|assumption].
Qed.

Lemma ParseUint_loop_not_digits s n :
  all_digits s = false -> 0 <= n <= maxUint64 ->
  ParseUint_loop s n = (0, Some ErrSyntax)
  \/ ParseUint_loop s n = (maxUint64, Some ErrRange).
Proof.
  revert n. induction s as [|c s IH]; intros n Hs Hn; cbn [all_digits] in *;
    [discriminate|].
  destruct (is_digit c) eqn:Hc.
  - cbn [andb] in Hs. rewrite ParseUint_loop_digit by (assumption || lia).
    destruct ((maxUint64 / 10 + 1 <=? n)
              || (maxUint64 <? n * 10 + (byte_val c - 48))) eqn:Ho; [by right|].
    apply orb_false_iff in Ho as [_ Ho]. apply Z.ltb_ge in Ho.
    apply is_digit_spec in Hc. apply IH; [assumption|lia].
  - left. by apply ParseUint_loop_nondigit.
Qed.

(** [ParseUint] on a non-empty string of digits, by the value they denote. *)
Lemma ParseUint_digits s :
  s <> "" -> all_digits s = true ->
  ParseUint s = if dval s 0 <=? maxUint64 then (dval s 0, None)
                else (maxUint64, Some ErrRange).
Proof.
  intros Hne Hs. destruct s as [|c s]; [done|]. unfold ParseUint.
  destruct (dval (String c s) 0 <=? maxUint64) eqn:Hv.
  - apply Z.leb_le in Hv. by apply ParseUint_loop_ok.
  - apply Z.leb_gt in Hv. apply ParseUint_loop_range; [assumption| |assumption].
    unfold maxUint64. lia.
Qed.

Lemma ParseUint_not_digits s :
  s = "" \/ all_digits s = false ->
  ParseUint s = (0, Some ErrSyntax) \/ ParseUint s = (maxUint64, Some ErrRange).
Proof.
  intros [->|Hs]; [by left|]. destruct s as [|c s]; [by left|].
  unfold ParseUint. apply ParseUint_loop_not_digits; [assumption|].
  unfold maxUint64. lia.
Qed.

Lemma int64_small u : 0 <= u < 2 ^ 63 -> int64 u = u.
Proof.
  intros H. unfold int64. change (2 ^ 63) with 9223372036854775808 in *.
  rewrite two64. rewrite Z.mod_small by lia. lia.
Qed.

Lemma int64_neg u : 0 <= u <= 2 ^ 63 -> int64 (- int64 u) = - u.
Proof.
  intros H. unfold int64. change (2 ^ 63) with 9223372036854775808 in *.
  rewrite two64. Z.div_mod_to_equations. lia.
Qed.

(** The three shapes of input on which [ParseInt] reaches the range
    check: digits, and digits after a sign. *)
Lemma ParseInt_plain ds :
  ds <> "" -> all_digits ds = true ->
  ParseInt ds = if dval ds 0 <=? maxInt64 then Ok (dval ds 0)
                else Err (NumError "ParseInt" ds ErrRange).
Proof.
  intros Hne Hd. destruct ds as [|c ds]; [done|]. unfold ParseInt.
  assert (Hc : is_digit c = true)
    by (cbn in Hd; apply andb_true_iff in Hd; tauto).
  apply is_digit_spec in Hc.
  assert (Hp : Ascii.eqb c "+" = false).
  { apply Ascii.eqb_neq. intros ->. change (byte_val "+") with 43 in Hc. lia. }
  assert (Hm : Ascii.eqb c "-" = false).
  { apply Ascii.eqb_neq. intros ->. change (byte_val "-") with 45 in Hc. lia. }
  rewrite Hp, Hm. rewrite ParseUint_digits by done.
  pose proof (dval_mono (String c ds) 0 Hd ltac:(lia)) as Hpos.
  change (uint64 (Z.shiftl 1 (64 - 1))) with 9223372036854775808.
  unfold maxInt64, maxUint64 in *.
  change (2 ^ 63) with 9223372036854775808 in *. rewrite two64 in *.
  destruct (dval (String c ds) 0 <=? 18446744073709551616 - 1) eqn:Hu.
  - apply Z.leb_le in Hu. cbn [negb andb].
    destruct (dval (String c ds) 0 <=? 9223372036854775808 - 1) eqn:Hi.
    + apply Z.leb_le in Hi.
      replace (9223372036854775808 <=? dval (String c ds) 0) with false
        by (symmetry; apply Z.leb_gt; lia).
      rewrite int64_small; [done|]. change (2 ^ 63) with 9223372036854775808. lia.
    + apply Z.leb_gt in Hi.
      replace (9223372036854775808 <=? dval (String c ds) 0) with true
        by (symmetry; apply Z.leb_le; lia).
      done.
  - apply Z.leb_gt in Hu. cbn [negb andb].
    replace (dval (String c ds) 0 <=? 9223372036854775808 - 1) with false
      by (symmetry; apply Z.leb_gt; lia).
    done.
Qed.

Lemma ParseInt_plus ds :
  ds <> "" -> all_digits ds = true ->
  ParseInt (String "+" ds) =
    if dval ds 0 <=? maxInt64 then Ok (dval ds 0)
    else Err (NumError "ParseInt" (String "+" ds) ErrRange).
Proof.
  intros Hne Hd. unfold ParseInt. rewrite Ascii.eqb_refl.
  rewrite ParseUint_digits by done.
  pose proof (dval_mono ds 0 Hd ltac:(lia)) as Hpos.
  change (uint64 (Z.shiftl 1 (64 - 1))) with 9223372036854775808.
  unfold maxInt64, maxUint64 in *.
  change (2 ^ 63) with 9223372036854775808 in *. rewrite two64 in *.
  destruct (dval ds 0 <=? 18446744073709551616 - 1) eqn:Hu.
  - apply Z.leb_le in Hu. cbn [negb andb].
    destruct (dval ds 0 <=? 9223372036854775808 - 1) eqn:Hi.
    + apply Z.leb_le in Hi.
      replace (9223372036854775808 <=? dval ds 0) with false
        by (symmetry; apply Z.leb_gt; lia).
      rewrite int64_small; [done|]. change (2 ^ 63) with 9223372036854775808. lia.
    + apply Z.leb_gt in Hi.
      replace (9223372036854775808 <=? dval ds 0) with true
        by (symmetry; apply Z.leb_le; lia).
      done.
  - apply Z.leb_gt in Hu. cbn [negb andb].
    replace (dval ds 0 <=? 9223372036854775808 - 1) with false
      by (symmetry; apply Z.leb_gt; lia).
    done.
Qed.

Lemma ParseInt_minus ds :
  ds <> "" -> all_digits ds = true ->
  ParseInt (String "-" ds) =
    if minInt64 <=? - dval ds 0 then Ok (- dval ds 0)
    else Err (NumError "ParseInt" (String "-" ds) ErrRange).
Proof.
  intros Hne Hd. unfold ParseInt.
  change (Ascii.eqb "-" "+") with false. rewrite Ascii.eqb_refl.
  rewrite ParseUint_digits by done.
  pose proof (dval_mono ds 0 Hd ltac:(lia)) as Hpos.
  change (uint64 (Z.shiftl 1 (64 - 1))) with 9223372036854775808.
  destruct (minInt64 <=? - dval ds 0) eqn:Hi;
    [apply Z.leb_le in Hi|apply Z.leb_gt in Hi];
    unfold minInt64, maxUint64 in *;
    change (2 ^ 63) with 9223372036854775808 in *; rewrite two64 in *.
  - replace (dval ds 0 <=? 18446744073709551616 - 1) with true
      by (symmetry; apply Z.leb_le; lia).
    cbn [negb andb].
    replace (9223372036854775808 <? dval ds 0) with false
      by (symmetry; apply Z.ltb_ge; lia).
    rewrite int64_neg; [done|]. change (2 ^ 63) with 9223372036854775808. lia.
  - destruct (dval ds 0 <=? 18446744073709551616 - 1) eqn:Hu; cbn [negb andb];
      [|done].
    replace (9223372036854775808 <? dval ds 0) with true
      by (symmetry; apply Z.ltb_lt; lia).
    done.
Qed.

(** Every other input is rejected. *)
Lemma ParseInt_bad_tail (neg : bool) (s s0 : string) :
  s = "" \/ all_digits s = false ->
  exists kind,
    (let '(un, err) := ParseUint s in
     match err with
     | Some ErrSyntax => Err (NumError "ParseInt" s0 ErrSyntax)
     | _ =>
         let cutoff := uint64 (Z.shiftl 1 (64 - 1)) in
         if negb neg && (cutoff <=? un) then
           Err (NumError "ParseInt" s0 ErrRange)
         else if neg && (cutoff <? un) then
           Err (NumError "ParseInt" s0 ErrRange)
         else
           let n := int64 un in
           Ok (if neg then int64 (- n) else n)
     end) = Err (NumError "ParseInt" s0 kind).
Proof.
  intros Hs. destruct (ParseUint_not_digits s Hs) as [-> | ->].
  - by exists ErrSyntax.
  - exists ErrRange. by destruct neg.
Qed.

Lemma ParseInt_cases s :
  (exists z, ParseInt s = Ok z /\ base10_int64 s z)
  \/ (exists kind, ParseInt s = Err (NumError "ParseInt" s kind)).
Proof.
  destruct s as [|c0 rest]; [right; by exists ErrSyntax|].
  destruct (Ascii.eqb c0 "+") eqn:Hp.
  { apply Ascii.eqb_eq in Hp. subst c0.
    destruct (decide (rest <> "" /\ all_digits rest = true)) as [[H1 H2]|Hbad].
    - rewrite ParseInt_plus by done.
      destruct (dval rest 0 <=? maxInt64) eqn:Hr; [|right; by exists ErrRange].
      apply Z.leb_le in Hr. left. eexists. split; [done|]. by apply b10_plus.
    - right. unfold ParseInt. rewrite Ascii.eqb_refl. apply ParseInt_bad_tail.
      destruct rest; [by left|right]. destruct (all_digits _); [|done].
      exfalso. apply Hbad. done. }
  destruct (Ascii.eqb c0 "-") eqn:Hm.
  { apply Ascii.eqb_eq in Hm. subst c0.
    destruct (decide (rest <> "" /\ all_digits rest = true)) as [[H1 H2]|Hbad].
    - rewrite ParseInt_minus by done.
      destruct (minInt64 <=? - dval rest 0) eqn:Hr; [|right; by exists ErrRange].
      apply Z.leb_le in Hr. left. eexists. split; [done|]. by apply b10_minus.
    - right. unfold ParseInt. change (Ascii.eqb "-" "+") with false.
      rewrite Ascii.eqb_refl. apply ParseInt_bad_tail.
      destruct rest; [by left|right]. destruct (all_digits _); [|done].
      exfalso. apply Hbad. done. }
  destruct (all_digits (String c0 rest)) eqn:Hd.
  - rewrite ParseInt_plain by done.
    destruct (dval (String c0 rest) 0 <=? maxInt64) eqn:Hr;
      [|right; by exists ErrRange].
    apply Z.leb_le in Hr. left. eexists. split; [done|]. by apply b10_plain.
  - right. unfold ParseInt. rewrite Hp, Hm. apply ParseInt_bad_tail. by right.
Qed.

Lemma ParseInt_accepts s z : base10_int64 s z -> ParseInt s = Ok z.
Proof.
  intros [ds H1 H2 H3 | ds H1 H2 H3 | ds H1 H2 H3].
  - rewrite ParseInt_plain by done. apply Z.leb_le in H3. by rewrite H3.
  - rewrite ParseInt_plus by done. apply Z.leb_le in H3. by rewrite H3.
  - rewrite ParseInt_minus by done. apply Z.leb_le in H3. by rewrite H3.
Qed.

(** [ParseInt] returns a value exactly on the strings that denote a
    64-bit integer in base 10, and the value is the one denoted. *)
Lemma ParseInt_spec s z : ParseInt s = Ok z <-> base10_int64 s z.
Proof.
  split; [|apply ParseInt_accepts].
  intros Hok. destruct (ParseInt_cases s) as [(z' & H1 & H2)|[k Hk]]; congruence.
Qed.

(** Any other string is refused, with a [*strconv.NumError]. *)
Lemma ParseInt_rejects s :
  (forall z, ~ base10_int64 s z) ->
  exists kind, ParseInt s = Err (NumError "ParseInt" s kind).
Proof.
  intros Hno. destruct (ParseInt_cases s) as [(z' & H1 & H2)|H]; [|done].
  by destruct (Hno z').
Qed.

Lemma ParseInt_error s e :
  ParseInt s = Err e -> exists kind, e = NumError "ParseInt" s kind.
Proof.
  intros He. destruct (ParseInt_cases s) as [(z' & H1 & H2)|[k Hk]];
    [congruence|]. exists k. congruence.
Qed.

Lemma base10_int64_range s z : base10_int64 s z -> in_int64 z.
Proof.
  intros [ds H1 H2 H3 | ds H1 H2 H3 | ds H1 H2 H3];
    pose proof (dval_mono ds 0 H2 ltac:(lia)); unfold in_int64, minInt64, maxInt64 in *;
    lia.
Qed.

Lemma ParseInt_range s z : ParseInt s = Ok z -> in_int64 z.
Proof. intros H. apply ParseInt_spec in H. by eapply base10_int64_range. Qed.

(** *** [FormatInt] writes what [ParseInt] reads *)

Lemma all_digits_app s1 s2 :
  all_digits (s1 +:+ s2) = all_digits s1 && all_digits s2.
Proof.
  induction s1 as [|c s1 IH]; simpl_app; cbn [all_digits]; [done|].
  by rewrite IH, andb_assoc.
Qed.

Lemma dval_app s1 s2 n : dval (s1 +:+ s2) n = dval s2 (dval s1 n).
Proof.
  revert n. induction s1 as [|c s1 IH]; intros n; simpl_app; cbn [dval];
    [done|]. apply IH.
Qed.

Lemma formatBits_app fuel u a :
  formatBits fuel u a = formatBits fuel u "" +:+ a.
Proof.
  revert u a. induction fuel as [|fuel IH]; intros u a; cbn [formatBits]; [done|].
  destruct (u <? 10); [done|].
  rewrite (IH _ (String _ a)), (IH _ (String _ "")).
  by rewrite app_assoc_s.
Qed.

Lemma digit_byte u : 0 <= u < 10 -> byte_val (byte_of (48 + u)) = 48 + u.
Proof. intros H. apply byte_val_of. lia. Qed.

Lemma formatBits_digits fuel u :
  0 <= u -> all_digits (formatBits fuel u "") = true.
Proof.
  revert u. induction fuel as [|fuel IH]; intros u Hu; cbn [formatBits]; [done|].
  destruct (u <? 10) eqn:Hlt.
  - apply Z.ltb_lt in Hlt. cbn. unfold is_digit. rewrite digit_byte by lia.
    rewrite andb_true_r. apply andb_true_iff. rewrite !Z.leb_le. lia.
  - rewrite formatBits_app, all_digits_app. rewrite IH by (apply Z.div_pos; lia).
    cbn. unfold is_digit.
    pose proof (Z.mod_pos_bound u 10 ltac:(lia)) as Hm.
    rewrite digit_byte by lia. rewrite andb_true_r.
    apply andb_true_iff. rewrite !Z.leb_le. lia.
Qed.

Lemma formatBits_dval fuel u :
  0 <= u < 10 ^ Z.of_nat fuel -> dval (formatBits fuel u "") 0 = u.
Proof.
  revert u. induction fuel as [|fuel IH]; intros u Hu.
  - cbn in *. lia.
  - cbn [formatBits]. destruct (u <? 10) eqn:Hlt.
    + apply Z.ltb_lt in Hlt. cbn. rewrite digit_byte by lia. lia.
    + apply Z.ltb_ge in Hlt. rewrite formatBits_app, dval_app.
      rewrite Nat2Z.inj_succ, Z.pow_succ_r in Hu by lia.
      rewrite IH.
      * cbn. pose proof (Z.mod_pos_bound u 10 ltac:(lia)) as Hm.
        rewrite digit_byte by lia. pose proof (Z.div_mod u 10 ltac:(lia)). lia.
      * split; [apply Z.div_pos; lia|]. apply Z.div_lt_upper_bound; lia.
Qed.

Lemma formatBits_nonempty fuel u : formatBits (S fuel) u "" <> "".
Proof.
  cbn [formatBits]. destruct (u <? 10); [done|].
  rewrite formatBits_app. destruct (formatBits fuel (u / 10) ""); done.
Qed.

(** No leading zero, except for zero itself. *)
Lemma formatBits_head fuel u :
  0 < u < 10 ^ Z.of_nat fuel ->
  exists c r, formatBits fuel u "" = String c r /\ 49 <= byte_val c <= 57.
Proof.
  revert u. induction fuel as [|fuel IH]; intros u Hu.
  - cbn in Hu. lia.
  - cbn [formatBits]. destruct (u <? 10) eqn:Hlt.
    + apply Z.ltb_lt in Hlt. eexists _, _. split; [done|].
      rewrite digit_byte by lia. lia.
    + apply Z.ltb_ge in Hlt. rewrite formatBits_app.
      rewrite Nat2Z.inj_succ, Z.pow_succ_r in Hu by lia.
      destruct (IH (u / 10)) as (c & r & Heq & Hc).
      * split; [apply Z.div_str_pos; lia|]. apply Z.div_lt_upper_bound; lia.
      * rewrite Heq. cbn. eauto.
Qed.

Lemma FormatInt_nonneg i :
  0 <= i <= maxInt64 -> FormatInt i = formatBits 20 i "".
Proof.
  intros Hi. unfold FormatInt, uint64, maxInt64 in *.
  change (2 ^ 63) with 9223372036854775808 in *. rewrite two64.
  replace (i <? 0) with false by (symmetry; apply Z.ltb_ge; lia).
  by rewrite Z.mod_small by lia.
Qed.

Lemma FormatInt_neg i :
  minInt64 <= i < 0 -> FormatInt i = String "-" (formatBits 20 (- i) "").
Proof.
  intros Hi. unfold FormatInt, uint64, minInt64 in *.
  change (2 ^ 63) with 9223372036854775808 in *. rewrite two64.
  replace (i <? 0) with true by (symmetry; apply Z.ltb_lt; lia).
  do 2 f_equal. Z.div_mod_to_equations. lia.
Qed.

Lemma FormatInt_base10 i : in_int64 i -> base10_int64 (FormatInt i) i.
Proof.
  intros Hi. unfold in_int64, minInt64, maxInt64 in Hi.
  change (2 ^ 63) with 9223372036854775808 in Hi.
  assert (Hpow : 10 ^ Z.of_nat 20 = 100000000000000000000) by reflexivity.
  destruct (Z.ltb_spec i 0) as [Hneg|Hpos].
  - rewrite FormatInt_neg
      by (unfold minInt64; change (2 ^ 63) with 9223372036854775808; lia).
    replace i with (- dval (formatBits 20 (- i) "") 0) at 2
      by (rewrite formatBits_dval by lia; lia).
    apply b10_minus.
    + apply formatBits_nonempty.
    + apply formatBits_digits. lia.
    + rewrite formatBits_dval by lia. unfold minInt64.
      change (2 ^ 63) with 9223372036854775808. lia.
  - rewrite FormatInt_nonneg
      by (unfold maxInt64; change (2 ^ 63) with 9223372036854775808; lia).
    replace i with (dval (formatBits 20 i "") 0) at 2
      by (rewrite formatBits_dval by lia; lia).
    apply b10_plain.
    + apply formatBits_nonempty.
    + apply formatBits_digits. lia.
    + rewrite formatBits_dval by lia. unfold maxInt64.
      change (2 ^ 63) with 9223372036854775808. lia.
Qed.

Lemma ParseInt_FormatInt i : in_int64 i -> ParseInt (FormatInt i) = Ok i.
Proof. intros Hi. apply ParseInt_spec. by apply FormatInt_base10. Qed.

End ParseUint.

(** ** encoding/json: decoding what was encoded *)

Section json_roundtrip.

Import strconv json.

Lemma prepend_app p q r :
  prepend p (prepend q r) = prepend (p +:+ q) r.
Proof. destruct r as [[s rest]|]; cbn; [|done]. by rewrite app_assoc_s. Qed.

(** An escaped byte below 128 is read back as that byte. *)
Lemma scan_escape_byte c r :
  (128 <=? byte_val c) = false ->
  scan_string (escape_byte c +:+ r) = prepend (String c "") (scan_string r).
Proof.
  intros Hc.
  destruct c as [[] [] [] [] [] [] [] []]; try discriminate Hc; reflexivity.
Qed.

(** A byte from 128 up is copied by the decoder. *)
Lemma scan_high_byte c r :
  (128 <=? byte_val c) = true ->
  scan_string (String c r) = prepend (String c "") (scan_string r).
Proof.
  intros Hc. apply Z.leb_le in Hc. cbn [scan_string].
  replace (byte_val c =? 34) with false by (symmetry; apply Z.eqb_neq; lia).
  replace (byte_val c =? 92) with false by (symmetry; apply Z.eqb_neq; lia).
  replace (byte_val c <? 32) with false by (symmetry; apply Z.ltb_ge; lia).
  done.
Qed.

Lemma escape_cons c s :
  escape (String c s) =
    if 128 <=? byte_val c then
      match s with
      | String c2 (String c3 s3) =>
          if (byte_val c =? 226) && (byte_val c2 =? 128)
             && ((byte_val c3 =? 168) || (byte_val c3 =? 169))
          then String "\" (String "u" (String "2" (String "0" (String "2"
                 (String (hex_digit (Z.land (byte_val c3) 15)) (escape s3))))))
          else String c (escape s)
      | _ => String c (escape s)
      end
    else escape_byte c +:+ escape s.
Proof. reflexivity. Qed.

Lemma byte_val_eqb c z :
  (byte_val c =? z) = true -> c = byte_of z.
Proof. intros H. apply Z.eqb_eq in H. rewrite <- H. by rewrite byte_of_val. Qed.

(** The string between the quotes is read back as it was. *)
Lemma scan_escape_aux n : forall s r,
  (String.length s <= n)%nat ->
  scan_string (escape s +:+ String dquote r) = Some (s, r).
Proof.
  induction n as [|n IH]; intros s r Hlen.
  { destruct s; [reflexivity|cbn in Hlen; lia]. }
  destruct s as [|c s]; [reflexivity|]. cbn [String.length] in Hlen.
  rewrite escape_cons. destruct (128 <=? byte_val c) eqn:Hc.
  - assert (Hcopy :
      scan_string (String c (escape s) +:+ String dquote r)
      = Some (String c s, r)).
    { simpl_app. rewrite scan_high_byte by done. rewrite IH by lia. done. }
    destruct s as [|c2 [|c3 s3]]; [exact Hcopy..|].
    destruct ((byte_val c =? 226) && (byte_val c2 =? 128)
              && ((byte_val c3 =? 168) || (byte_val c3 =? 169))) eqn:Hsep;
      [|exact Hcopy].
    apply andb_true_iff in Hsep as [Hsep H3].
    apply andb_true_iff in Hsep as [H1 H2].
    apply byte_val_eqb in H1, H2. subst c c2.
    cbn [String.length] in Hlen.
    assert (Htail : scan_string (escape s3 +:+ String dquote r) = Some (s3, r))
      by (apply IH; lia).
    apply orb_true_iff in H3 as [H3|H3]; apply byte_val_eqb in H3; subst c3.
    + simpl_app.
      change (scan_string (String "\" (String "u" (String "2" (String "0"
                (String "2" (String (hex_digit (Z.land (byte_val (byte_of 168)) 15))
                   (escape s3 +:+ String dquote r)))))))) with
        (prepend (utf8_encode 8232)
           (scan_string (escape s3 +:+ String dquote r))).
      rewrite Htail. reflexivity.
    + simpl_app.
      change (scan_string (String "\" (String "u" (String "2" (String "0"
                (String "2" (String (hex_digit (Z.land (byte_val (byte_of 169)) 15))
                   (escape s3 +:+ String dquote r)))))))) with
        (prepend (utf8_encode 8233)
           (scan_string (escape s3 +:+ String dquote r))).
      rewrite Htail. reflexivity.
  - rewrite app_assoc_s, scan_escape_byte by done. rewrite IH by lia. done.
Qed.

Lemma scan_escape s r :
  scan_string (escape s +:+ String dquote r) = Some (s, r).
Proof. by apply (scan_escape_aux (String.length s)). Qed.

(** *** Numbers *)

Lemma skip_digits_all s : all_digits s = true -> skip_digits s = "".
Proof.
  induction s as [|c s IH]; cbn [all_digits skip_digits]; [done|].
  intros [-> Hs]%andb_true_iff. by apply IH.
Qed.

Lemma is_digit_num_char c : is_digit c = true -> is_num_char c = true.
Proof. unfold is_digit, is_num_char. by intros ->. Qed.

(** Digits followed by a byte that cannot belong to a number: the scan
    stops exactly there. *)
Lemma span_num_digits s d r :
  all_digits s = true -> is_num_char d = false ->
  span_num (s +:+ String d r) = (s, String d r).
Proof.
  intros Hs Hd. induction s as [|c s IH]; simpl_app.
  - cbn [span_num]. by rewrite Hd.
  - cbn [all_digits] in Hs. apply andb_true_iff in Hs as [Hc Hs].
    cbn [span_num]. rewrite is_digit_num_char by done. by rewrite IH.
Qed.

Lemma valid_number_digits s :
  s <> "" -> all_digits s = true ->
  (forall c r, s = String c r -> byte_val c = 48 -> r = "") ->
  valid_number s = true.
Proof.
  intros Hne Hs Hz. destruct s as [|c r]; [done|].
  cbn [all_digits] in Hs. apply andb_true_iff in Hs as [Hc Hr].
  pose proof Hc as Hc'. apply is_digit_spec in Hc'.
  unfold valid_number.
  replace (byte_val c =? 45) with false by (symmetry; apply Z.eqb_neq; lia).
  destruct (byte_val c =? 48) eqn:H0.
  - apply Z.eqb_eq in H0. by rewrite (Hz c r eq_refl H0).
  - rewrite Hc. by rewrite skip_digits_all.
Qed.

Lemma formatBits_zero_head fuel u c r :
  0 <= u < 10 ^ Z.of_nat (S fuel) ->
  formatBits (S fuel) u "" = String c r -> byte_val c = 48 -> r = "".
Proof.
  intros Hu Heq Hc. destruct (decide (u = 0)) as [->|Hnz].
  - cbn in Heq. by simplify_eq.
  - destruct (formatBits_head (S fuel) u) as (c' & r' & Heq' & Hc'); [lia|].
    rewrite Heq in Heq'. simplify_eq. lia.
Qed.

Lemma valid_number_FormatInt i : in_int64 i -> valid_number (FormatInt i) = true.
Proof.
  intros Hi. unfold in_int64, minInt64, maxInt64 in Hi.
  change (2 ^ 63) with 9223372036854775808 in Hi.
  assert (Hpow : 10 ^ Z.of_nat 20 = 100000000000000000000) by reflexivity.
  destruct (Z.ltb_spec i 0) as [Hneg|Hpos].
  - rewrite FormatInt_neg
      by (unfold minInt64; change (2 ^ 63) with 9223372036854775808; lia).
    destruct (formatBits_head 20 (- i)) as (c & r & Heq & Hc); [lia|].
    pose proof (formatBits_digits 20 (- i) ltac:(lia)) as Hd.
    rewrite Heq in *. cbn [all_digits] in Hd.
    apply andb_true_iff in Hd as [Hd1 Hd2].
    unfold valid_number. change (byte_val "-" =? 45) with true. cbv iota.
    replace (byte_val c =? 48) with false by (symmetry; apply Z.eqb_neq; lia).
    rewrite Hd1. by rewrite skip_digits_all.
  - rewrite FormatInt_nonneg
      by (unfold maxInt64; change (2 ^ 63) with 9223372036854775808; lia).
    apply valid_number_digits.
    + apply formatBits_nonempty.
    + apply formatBits_digits. lia.
    + intros c r. apply formatBits_zero_head. lia.
Qed.

Lemma scan_number_FormatInt i d r :
  in_int64 i -> is_num_char d = false ->
  scan_number (FormatInt i +:+ String d r) = Some (FormatInt i, String d r).
Proof.
  intros Hi Hd. unfold scan_number.
  assert (Hspan : span_num (FormatInt i +:+ String d r)
                  = (FormatInt i, String d r)).
  { unfold in_int64, minInt64, maxInt64 in Hi.
    change (2 ^ 63) with 9223372036854775808 in Hi.
    destruct (Z.ltb_spec i 0) as [Hneg|Hpos].
    - rewrite FormatInt_neg
        by (unfold minInt64; change (2 ^ 63) with 9223372036854775808; lia).
      simpl_app. cbn [span_num]. change (is_num_char "-") with true. cbv iota.
      rewrite span_num_digits; [done| |done]. apply formatBits_digits. lia.
    - rewrite FormatInt_nonneg
        by (unfold maxInt64; change (2 ^ 63) with 9223372036854775808; lia).
      apply span_num_digits; [|done]. apply formatBits_digits. lia. }
  rewrite Hspan. by rewrite valid_number_FormatInt.
Qed.

(** The first byte of a written integer: a minus sign or a digit. *)
Lemma FormatInt_head i :
  in_int64 i ->
  exists c r, FormatInt i = String c r
              /\ (byte_val c = 45 \/ 48 <= byte_val c <= 57).
Proof.
  intros Hi. unfold in_int64, minInt64, maxInt64 in Hi.
  change (2 ^ 63) with 9223372036854775808 in Hi.
  destruct (Z.ltb_spec i 0) as [Hneg|Hpos].
  - rewrite FormatInt_neg
      by (unfold minInt64; change (2 ^ 63) with 9223372036854775808; lia).
    eexists _, _. split; [done|]. by left.
  - rewrite FormatInt_nonneg
      by (unfold maxInt64; change (2 ^ 63) with 9223372036854775808; lia).
    pose proof (formatBits_nonempty 19 i) as Hne.
    pose proof (formatBits_digits 20 i ltac:(lia)) as Hd.
    destruct (formatBits 20 i "") as [|c r]; [done|].
    cbn [all_digits] in Hd. apply andb_true_iff in Hd as [Hc _].
    apply is_digit_spec in Hc. eexists _, _. split; [done|]. by right.
Qed.

(** *** Values *)

Lemma parse_string_value fuel s r :
  parse (S fuel) MValue (quote s +:+ r) = Some (Str s, r).
Proof.
  unfold quote. simpl_app. rewrite app_assoc_s. simpl_app.
  cbn [parse]. cbn [skip_ws]. change (is_space dquote) with false. cbv iota.
  change (byte_val dquote =? 123) with false.
  change (byte_val dquote =? 91) with false.
  change (byte_val dquote =? 34) with true. cbv iota.
  by rewrite scan_escape.
Qed.

Lemma parse_number_value fuel i d r :
  in_int64 i -> is_num_char d = false ->
  parse (S fuel) MValue (FormatInt i +:+ String d r)
  = Some (Number (FormatInt i), String d r).
Proof.
  intros Hi Hd. pose proof (scan_number_FormatInt i d r Hi Hd) as Hscan.
  destruct (FormatInt_head i Hi) as (c & t & Heq & Hc).
  rewrite Heq in *. simpl_app. simpl_app_in Hscan.
  cbn [parse]. cbn [skip_ws].
  assert (Hsp : is_space c = false).
  { unfold is_space. repeat (apply orb_false_iff; split);
      apply Z.eqb_neq; lia. }
  rewrite Hsp. cbv iota zeta.
  replace (byte_val c =? 123) with false by (symmetry; apply Z.eqb_neq; lia).
  replace (byte_val c =? 91) with false by (symmetry; apply Z.eqb_neq; lia).
  replace (byte_val c =? 34) with false by (symmetry; apply Z.eqb_neq; lia).
  replace (byte_val c =? 116) with false by (symmetry; apply Z.eqb_neq; lia).
  replace (byte_val c =? 102) with false by (symmetry; apply Z.eqb_neq; lia).
  replace (byte_val c =? 110) with false by (symmetry; apply Z.eqb_neq; lia).
  by rewrite Hscan.
Qed.

(** *** Members and the whole object *)

Lemma parse_member fuel acc k V d r v :
  is_space d = false ->
  parse (S fuel) MValue (V +:+ String d r) = Some (v, String d r) ->
  parse (S (S fuel)) (MMembers acc) (quote k +:+ String ":" (V +:+ String d r))
  = if byte_val d =? 44 then parse (S fuel) (MMembers (acc ++ [(k, v)])) r
    else if byte_val d =? 125 then Some (Object (acc ++ [(k, v)]), r)
         else None.
Proof.
  intros Hd HV. unfold quote at 1. simpl_app. rewrite app_assoc_s. simpl_app.
  remember (S fuel) as f eqn:Hf. cbn [parse]. cbn [skip_ws].
  change (is_space dquote) with false. cbv iota.
  change (byte_val dquote =? 34) with true. cbv iota.
  rewrite scan_escape. cbn [skip_ws]. change (is_space ":") with false.
  cbv iota. change (byte_val ":" =? 58) with true. cbv iota.
  rewrite HV. cbn [skip_ws]. rewrite Hd. done.
Qed.

Lemma Marshal_total a : exists raw, Marshal a = Ok raw.
Proof. by eexists. Qed.

Lemma set_fields_Marshal a :
  in_int64 (BALANCE a) -> in_int64 (TRANSAMOUNT a) ->
  set_fields Account_zero
    [("DEALERID", Str (DEALERID a)); ("MSISDN", Str (MSISDN a));
     ("MPIN", Str (MPIN a)); ("BALANCE", Number (FormatInt (BALANCE a)));
     ("STATUS", Str (STATUS a));
     ("TRANSAMOUNT", Number (FormatInt (TRANSAMOUNT a)));
     ("TRANSTYPE", Str (TRANSTYPE a)); ("REMARKS", Str (REMARKS a))]
  = Ok a.
Proof.
  intros Hb Ht. destruct a as [d m p b s t ty r]. cbn [BALANCE TRANSAMOUNT] in *.
  cbn [set_fields].
  repeat match goal with
  | |- context [set_field ?x ?k ?v] =>
      let e := eval cbv [set_field set_string set_int64] in (set_field x k v) in
      change (set_field x k v) with e;
      match goal with
      | |- context [find_field ?k'] =>
          let f := eval vm_compute in (find_field k') in
          change (find_field k') with f
      end;
      cbv iota beta;
      repeat match goal with
      | |- context [String.eqb ?x1 ?x2] =>
          let f := eval vm_compute in (String.eqb x1 x2) in
          change (String.eqb x1 x2) with f
      end;
      cbv iota beta;
      rewrite ?ParseInt_FormatInt by assumption;
      cbn [DEALERID MSISDN MPIN BALANCE STATUS TRANSAMOUNT TRANSTYPE REMARKS
           Account_zero]
  end.
  reflexivity.
Qed.

(** What [json.Marshal] writes for an account, [json.Unmarshal] reads
    back as that account. *)
Lemma Marshal_Unmarshal a raw :
  in_int64 (BALANCE a) -> in_int64 (TRANSAMOUNT a) ->
  Marshal a = Ok raw -> Unmarshal raw = Ok a.
Proof.
  intros Hb Ht Hraw. unfold Marshal in Hraw. injection Hraw as <-.
  unfold Unmarshal, parse_document.
  assert (Hnc : is_num_char "," = false) by reflexivity.
  assert (Hnb : is_num_char "}" = false) by reflexivity.
  assert (Hsc : is_space "," = false) by reflexivity.
  assert (Hsb : is_space "}" = false) by reflexivity.
  simpl_app.
  match goal with
  | |- context [parse ?n MValue (String "{" ?body)] =>
      assert (Hparse : forall fuel,
        parse (S (S (S (S (S (S (S (S (S (S fuel)))))))))) MValue
          (String "{" body)
        = Some (Object
            [("DEALERID", Str (DEALERID a)); ("MSISDN", Str (MSISDN a));
             ("MPIN", Str (MPIN a)); ("BALANCE", Number (FormatInt (BALANCE a)));
             ("STATUS", Str (STATUS a));
             ("TRANSAMOUNT", Number (FormatInt (TRANSAMOUNT a)));
             ("TRANSTYPE", Str (TRANSTYPE a)); ("REMARKS", Str (REMARKS a))],
            ""));
      [|assert (Hfuel : exists fuel, n =
           S (S (S (S (S (S (S (S (S (S fuel))))))))))]
  end.
  - intros fuel.
    remember (S (S (S (S (S (S (S (S (S fuel))))))))) as f eqn:Hf.
    cbn [parse]. cbn [skip_ws]. change (is_space "{") with false. cbv iota zeta.
    change (byte_val "{" =? 123) with true. cbv iota.
    unfold quote at 1. simpl_app. cbn [skip_ws].
    change (is_space dquote) with false. cbv iota.
    change (byte_val dquote =? 125) with false. cbv iota.
    change (String dquote (escape "DEALERID" +:+ String dquote ?x))
      with (quote "DEALERID" +:+ x).
    subst f.
    erewrite parse_member by (reflexivity || apply parse_string_value).
    change (byte_val "," =? 44) with true. cbv iota.
    erewrite parse_member by (reflexivity || apply parse_string_value).
    change (byte_val "," =? 44) with true. cbv iota.
    erewrite parse_member by (reflexivity || apply parse_string_value).
    change (byte_val "," =? 44) with true. cbv iota.
    erewrite parse_member by (reflexivity || by apply parse_number_value).
    change (byte_val "," =? 44) with true. cbv iota.
    erewrite parse_member by (reflexivity || apply parse_string_value).
    change (byte_val "," =? 44) with true. cbv iota.
    erewrite parse_member by (reflexivity || by apply parse_number_value).
    change (byte_val "," =? 44) with true. cbv iota.
    erewrite parse_member by (reflexivity || apply parse_string_value).
    change (byte_val "," =? 44) with true. cbv iota.
    erewrite parse_member by (reflexivity || apply parse_string_value).
    change (byte_val "}" =? 44) with false.
    change (byte_val "}" =? 125) with true. cbv iota.
    reflexivity.
  - match goal with |- exists fuel, ?n = _ => exists (n - 10)%nat end.
    unfold quote. simpl_app. cbn [String.length].
    rewrite !app_length_s. cbn [String.length]. lia.
  - destruct Hfuel as [fuel ->]. rewrite Hparse. cbn [skip_ws].
    by apply set_fields_Marshal.
Qed.

End json_roundtrip.

(** ** The stub and the commit *)

Section ledger.

Import json.

Lemma history_of_insert l key key' recs w :
  history_of {| world := w; changes := <[key := recs]> (changes l) |} key'
  = if decide (key = key') then recs else history_of l key'.
Proof.
  unfold history_of. cbn [changes]. rewrite lookup_insert.
  by destruct (decide (key = key')).
Qed.

(** Committing a trace without writes changes nothing. *)
Lemma commit_reads tx trace l :
  Forall (fun a => is_write a = false) trace -> commit tx trace l = l.
Proof.
  unfold commit. induction 1 as [|a trace Ha _ IH]; cbn [fold_left]; [done|].
  destruct a; try discriminate Ha; exact IH.
Qed.

(** A commit only touches the keys its trace writes. *)
Lemma commit_frame tx trace l key :
  Forall (fun a => is_write a = true -> access_key a <> Some key) trace ->
  world (commit tx trace l) !! key = world l !! key
  /\ history_of (commit tx trace l) key = history_of l key.
Proof.
  unfold commit. intros H. revert l.
  induction H as [|a trace Ha _ IH]; intros l; cbn [fold_left]; [done|].
  destruct (IH (apply_access tx l a)) as [-> ->].
  destruct a as [k|s e|k|k v|k]; cbn [apply_access]; try done.
  - assert (k <> key) by (intros ->; by apply Ha).
    cbn [world]. rewrite lookup_insert_ne by done.
    rewrite history_of_insert. by rewrite decide_False.
  - assert (k <> key) by (intros ->; by apply Ha).
    cbn [world]. rewrite lookup_delete_ne by done.
    rewrite history_of_insert. by rewrite decide_False.
Qed.

(** *** What each contract function does, by cases on the ledger *)

Lemma exists_run key l :
  exists_ key l = (Ok (bool_decide (world l !! key <> None)), [ReadState key]).
Proof. reflexivity. Qed.

Lemma CreateAsset_run d m p b s t ty r l :
  CreateAsset d m p b s t ty r l =
    match world l !! m with
    | Some _ => (Err AlreadyExists, [ReadState m])
    | None =>
        match strconv.ParseInt b with
        | Err e => (Err e, [ReadState m])
        | Ok bal =>
            match strconv.ParseInt t with
            | Err e => (Err e, [ReadState m])
            | Ok tamt =>
                match Marshal (account_of d m p bal s tamt ty r) with
                | Err e => (Err e, [ReadState m])
                | Ok raw => (Ok tt, [ReadState m; WriteState m raw])
                end
            end
        end
    end.
Proof.
  unfold CreateAsset, bind. rewrite exists_run.
  destruct (world l !! m) as [v|]; [reflexivity|].
  cbn [bool_decide decide_rel]. unfold lift.
  destruct (strconv.ParseInt b) as [bal|e]; [|reflexivity].
  destruct (strconv.ParseInt t) as [tamt|e]; reflexivity.
Qed.

Lemma UpdateAsset_run d m p b s t ty r l :
  UpdateAsset d m p b s t ty r l =
    match world l !! m with
    | None => (Err NotFound, [ReadState m])
    | Some _ =>
        match strconv.ParseInt b with
        | Err e => (Err e, [ReadState m])
        | Ok bal =>
            match strconv.ParseInt t with
            | Err e => (Err e, [ReadState m])
            | Ok tamt =>
                match Marshal (account_of d m p bal s tamt ty r) with
                | Err e => (Err e, [ReadState m])
                | Ok raw => (Ok tt, [ReadState m; WriteState m raw])
                end
            end
        end
    end.
Proof.
  unfold UpdateAsset, bind. rewrite exists_run.
  destruct (world l !! m) as [v|]; [|reflexivity].
  cbn [bool_decide decide_rel]. unfold lift.
  destruct (strconv.ParseInt b) as [bal|e]; [|reflexivity].
  destruct (strconv.ParseInt t) as [tamt|e]; reflexivity.
Qed.

Lemma DeleteAsset_run m l :
  DeleteAsset m l =
    match world l !! m with
    | None => (Err NotFound, [ReadState m])
    | Some _ => (Ok tt, [ReadState m; DeleteState m])
    end.
Proof.
  unfold DeleteAsset, bind. rewrite exists_run.
  destruct (world l !! m) as [v|]; reflexivity.
Qed.

Lemma ReadAsset_run m l :
  ReadAsset m l =
    match world l !! m with
    | None => (Err NotFound, [ReadState m])
    | Some b => (Unmarshal b, [ReadState m])
    end.
Proof.
  unfold ReadAsset, bind, GetState. destruct (world l !! m) as [v|]; [|reflexivity].
  unfold lift, ret. destruct (Unmarshal v); reflexivity.
Qed.

Lemma GetAssetHistory_run m l :
  GetAssetHistory m l
  = (GetAssetHistory_loop (history_of l m) [], [ReadHistory m]).
Proof. reflexivity. Qed.

Lemma bind_ret_run {A B} (m : Tx A) (g : A -> B) l :
  bind m (fun a => ret (g a)) l =
    match m l with
    | (Ok a, t) => (Ok (g a), t)
    | (Err e, t) => (Err e, t)
    end.
Proof.
  unfold bind, ret. destruct (m l) as [[a|e] t]; [|done].
  by rewrite app_nil_r.
Qed.

Lemma GetAllAssets_trace l : (GetAllAssets l).2 = [ReadRange "" ""].
Proof.
  unfold GetAllAssets, bind, GetStateByRange, lift.
  by destruct (GetAllAssets_loop _ _).
Qed.

(** The stub calls of an invocation are those of the function it
    dispatches to. *)
Lemma invoke_trace i l :
  trace_of (invoke i) l =
    match i with
    | CallCreateAsset d m p b s t ty r => trace_of (CreateAsset d m p b s t ty r) l
    | CallReadAsset m => trace_of (ReadAsset m) l
    | CallUpdateAsset d m p b s t ty r => trace_of (UpdateAsset d m p b s t ty r) l
    | CallDeleteAsset m => trace_of (DeleteAsset m) l
    | CallGetAllAssets => trace_of GetAllAssets l
    | CallGetAssetHistory m => trace_of (GetAssetHistory m) l
    end.
Proof.
  unfold trace_of.
  destruct i; cbn [invoke]; rewrite bind_ret_run;
    match goal with |- context [match ?f l with _ => _ end] =>
      destruct (f l) as [[?|?] ?] end; reflexivity.
Qed.

(** One submitted transaction either leaves the ledger as it is, or
    commits the single write of a successful create or update, or the
    single delete of a successful delete. *)
Lemma step_cases tx i l :
  step tx i l = l
  \/ (exists d m p b s t ty r bal tamt raw,
        (i = CallCreateAsset d m p b s t ty r /\ world l !! m = None
         \/ i = CallUpdateAsset d m p b s t ty r /\ world l !! m <> None)
        /\ strconv.ParseInt b = Ok bal /\ strconv.ParseInt t = Ok tamt
        /\ Marshal (account_of d m p bal s tamt ty r) = Ok raw
        /\ step tx i l = apply_access tx l (WriteState m raw))
  \/ (exists m, i = CallDeleteAsset m /\ world l !! m <> None
                /\ step tx i l = apply_access tx l (DeleteState m)).
Proof.
  unfold step, submit.
  destruct i as [d m p b s t ty r|m|d m p b s t ty r|m| |m]; cbn [invoke];
    rewrite bind_ret_run.
  - rewrite CreateAsset_run. destruct (world l !! m) as [v|] eqn:Hm; [by left|].
    destruct (strconv.ParseInt b) as [bal|e] eqn:Hb; [|by left].
    destruct (strconv.ParseInt t) as [tamt|e] eqn:Ht; [|by left].
    right; left. exists d, m, p, b, s, t, ty, r, bal, tamt. eexists.
    split; [by left|]. done.
  - rewrite ReadAsset_run. left.
    destruct (world l !! m) as [v|]; [|done]. by destruct (Unmarshal v).
  - rewrite UpdateAsset_run. destruct (world l !! m) as [v|] eqn:Hm; [|by left].
    destruct (strconv.ParseInt b) as [bal|e] eqn:Hb; [|by left].
    destruct (strconv.ParseInt t) as [tamt|e] eqn:Ht; [|by left].
    right; left. exists d, m, p, b, s, t, ty, r, bal, tamt. eexists.
    split; [right; by rewrite Hm|]. done.
  - rewrite DeleteAsset_run. destruct (world l !! m) as [v|] eqn:Hm; [|by left].
    right; right. exists m. by rewrite Hm.
  - left. pose proof (GetAllAssets_trace l) as Htr.
    destruct (GetAllAssets l) as [[a|e] t]; [|done]. cbn in Htr. by subst t.
  - rewrite GetAssetHistory_run. left.
    by destruct (GetAssetHistory_loop _ _).
Qed.

(** *** The invariant of reachable ledgers *)

Lemma well_formed_genesis : well_formed genesis.
Proof. intros k raw H. cbn [genesis world] in H. by rewrite lookup_empty in H. Qed.

Lemma well_formed_step tx i l : well_formed l -> well_formed (step tx i l).
Proof.
  intros Hwf.
  destruct (step_cases tx i l) as
    [->|[(d & m & p & b & s & t & ty & r & bal & tamt & raw & _ & Hb & Ht & Hraw & ->)
        |(m & _ & _ & ->)]]; [done|..]; intros k v; cbn [apply_access world].
  - rewrite lookup_insert. destruct (decide (m = k)) as [->|Hne]; [|apply Hwf].
    intros [= <-]. exists (account_of d k p bal s tamt ty r).
    split_and!; [done|done|..]; cbn [account_of BALANCE TRANSAMOUNT];
      by eapply ParseInt_range.
  - rewrite lookup_delete. destruct (decide (m = k)); [done|apply Hwf].
Qed.

Lemma reachable_well_formed l : reachable l -> well_formed l.
Proof.
  induction 1 as [|l tx i _ IH]; [apply well_formed_genesis|].
  by apply well_formed_step.
Qed.

Lemma stored_ok_Unmarshal key raw :
  stored_ok key raw -> exists a, Unmarshal raw = Ok a /\ MSISDN a = key.
Proof.
  intros (a & Hraw & Hk & Hb & Ht). exists a. split; [|done].
  by apply Marshal_Unmarshal.
Qed.

(** *** The range query *)

#[local] Instance kv_le_total : Total kv_le.
Proof. intros x y. unfold kv_le. apply (total String.le). Qed.

Lemma in_range_all key : in_range "" "" key = true.
Proof. by destruct key. Qed.

(** [GetStateByRange("", "")] yields every live key once, with its value,
    in the byte order of the keys. *)
Lemma GetStateByRange_all l :
  exists kvs,
    GetStateByRange "" "" l = (Ok kvs, [ReadRange "" ""])
    /\ Sorted kv_le kvs
    /\ NoDup (KV.Key <$> kvs)
    /\ (forall k v, KV.mk k v ∈ kvs <-> world l !! k = Some v).
Proof.
  eexists. split; [reflexivity|].
  set (f := fun p : string * string => KV.mk p.1 p.2).
  set (P := fun kv => in_range "" "" (KV.Key kv) = true).
  split_and!.
  - apply (Sorted_merge_sort kv_le).
  - rewrite merge_sort_Permutation.
    assert (Hs : KV.Key <$> filter P (f <$> map_to_list (world l))
                 `sublist_of` KV.Key <$> (f <$> map_to_list (world l)))
      by apply fmap_sublist, sublist_filter.
    refine (sublist_NoDup _ _ _ Hs).
    rewrite <- list_fmap_compose.
    rewrite (list_fmap_ext _ fst) by (by intros ? []).
    apply NoDup_fst_map_to_list.
  - intros k v. rewrite merge_sort_Permutation.
    rewrite list_elem_of_filter, list_elem_of_fmap. split.
    + intros (_ & [k' v'] & Heq & Hin). unfold f in Heq. cbn in Heq.
      simplify_eq. by apply elem_of_map_to_list.
    + intros Hkv. split; [apply in_range_all|].
      exists (k, v). split; [done|]. by apply elem_of_map_to_list.
Qed.

Lemma GetAllAssets_loop_decodes kvs out accs :
  Forall2 (fun kv a => Unmarshal (KV.Value kv) = Ok a) kvs accs ->
  GetAllAssets_loop kvs out = Ok (out ++ accs).
Proof.
  intros H. revert out.
  induction H as [|kv a kvs accs Hkv _ IH]; intros out; cbn [GetAllAssets_loop].
  - by rewrite app_nil_r.
  - rewrite Hkv, IH. by rewrite <- app_assoc.
Qed.

Lemma well_formed_decodes l kvs :
  well_formed l ->
  (forall kv, kv ∈ kvs -> world l !! KV.Key kv = Some (KV.Value kv)) ->
  exists accs,
    Forall2 (fun kv a => Unmarshal (KV.Value kv) = Ok a /\ MSISDN a = KV.Key kv)
      kvs accs.
Proof.
  intros Hwf. induction kvs as [|kv kvs IH]; intros Hin; [by exists []|].
  destruct IH as [accs Haccs]; [intros ??; apply Hin; by right|].
  destruct (stored_ok_Unmarshal (KV.Key kv) (KV.Value kv)) as (a & Ha & Hk).
  { apply Hwf, Hin. by left. }
  exists (a :: accs). by constructor.
Qed.

(** On a well-formed ledger [GetAllAssets] returns the decoded record of
    every live key, once, in the byte order of the keys. *)
Lemma GetAllAssets_well_formed l :
  well_formed l ->
  exists accs,
    GetAllAssets l = (Ok accs, [ReadRange "" ""])
    /\ Sorted String.le (MSISDN <$> accs)
    /\ NoDup (MSISDN <$> accs)
    /\ (forall k, k ∈ MSISDN <$> accs <-> world l !! k <> None)
    /\ (forall a, a ∈ accs ->
          exists raw, world l !! MSISDN a = Some raw /\ Unmarshal raw = Ok a).
Proof.
  intros Hwf. destruct (GetStateByRange_all l) as (kvs & Hrun & Hsort & Hnd & Hin).
  assert (Hin' : forall kv, kv ∈ kvs -> world l !! KV.Key kv = Some (KV.Value kv)).
  { intros [k v] Hkv. by apply Hin. }
  destruct (well_formed_decodes l kvs Hwf Hin') as [accs Haccs].
  assert (Hkeys : MSISDN <$> accs = KV.Key <$> kvs).
  { clear -Haccs. induction Haccs as [|kv a kvs accs [_ Hk] _ IH]; [done|].
    cbn. by rewrite Hk, IH. }
  exists accs. split_and!.
  - unfold GetAllAssets, bind. rewrite Hrun. unfold lift.
    rewrite (GetAllAssets_loop_decodes kvs [] accs); [done|].
    eapply Forall2_impl; [exact Haccs|]. by intros ?? [? _].
  - rewrite Hkeys. eapply Sorted_fmap; [|exact Hsort]. done.
  - by rewrite Hkeys.
  - intros k. rewrite Hkeys, list_elem_of_fmap. split.
    + intros ([k' v] & -> & Hkv). apply Hin in Hkv. cbn. by rewrite Hkv.
    + intros Hk. destruct (world l !! k) as [v|] eqn:Hv; [|done].
      exists (KV.mk k v). split; [done|]. by apply Hin.
  - intros a Ha. apply list_elem_of_lookup in Ha as [i Hi].
    destruct (Forall2_lookup_r _ _ _ _ _ Haccs Hi) as (kv & Hkv & Hdec & Hk).
    exists (KV.Value kv). split; [|done]. rewrite Hk. apply Hin'.
    apply list_elem_of_lookup. eauto.
Qed.

End ledger.

(** * The claims *)

Section claims.

Import json.

Lemma parses_dec s : parses s \/ ~ parses s.
Proof.
  destruct (ParseInt_cases s) as [(z & _ & Hz)|[kind Hk]]; [left; by exists z|].
  right. intros [z Hz]. apply ParseInt_accepts in Hz. congruence.
Qed.

Lemma not_parses_error s :
  ~ parses s -> exists kind, strconv.ParseInt s = Err (NumError "ParseInt" s kind).
Proof. intros Hno. apply ParseInt_rejects. intros z Hz. apply Hno. by exists z. Qed.

Lemma commit_put tx m raw l :
  commit tx [ReadState m; WriteState m raw] l = apply_access tx l (WriteState m raw).
Proof. reflexivity. Qed.

Lemma CreateAsset_submit_ok l d k p b s t ty r bal tamt :
  world l !! k = None -> base10_int64 b bal -> base10_int64 t tamt ->
  exists raw,
    Marshal (account_of d k p bal s tamt ty r) = Ok raw
    /\ CreateAsset d k p b s t ty r l = (Ok tt, [ReadState k; WriteState k raw]).
Proof.
  intros Hk Hb Ht. apply ParseInt_accepts in Hb, Ht.
  destruct (Marshal_total (account_of d k p bal s tamt ty r)) as [raw Hraw].
  exists raw. split; [done|].
  by rewrite CreateAsset_run, Hk, Hb, Ht, Hraw.
Qed.





(** C2: on a ledger that holds a record for subscriberID, [CreateAsset]
    fails with AlreadyExists, makes no write, and leaves the whole ledger,
    the existing record included, as it was. *)
Theorem CreateAsset_existing l tx d k p b s t ty r v :
  world l !! k = Some v ->
  submit tx (CreateAsset d k p b s t ty r) l = (Err AlreadyExists, l)
  /\ Forall (fun a => is_write a = false)
       (trace_of (CreateAsset d k p b s t ty r) l)
  /\ world (submit tx (CreateAsset d k p b s t ty r) l).2 !! k = Some v.
Proof.
  intros Hk. unfold submit, trace_of. rewrite CreateAsset_run, Hk.
  split_and!; [done| |done]. by repeat constructor.
Qed.

(** A second creation of the first subscriber of the sample run. *)
Lemma CreateAsset_existing_witness :
  world sample.created !! sample.alice = Some sample.stored
  /\ (submit sample.tx2
        (CreateAsset "D2" sample.alice "0000" "5" "NEW" "0" "CR" "again")
        sample.created = (Err AlreadyExists, sample.created)
      /\ Forall (fun a => is_write a = false)
           (trace_of
              (CreateAsset "D2" sample.alice "0000" "5" "NEW" "0" "CR" "again")
              sample.created)
      /\ world (submit sample.tx2
                  (CreateAsset "D2" sample.alice "0000" "5" "NEW" "0" "CR" "again")
                  sample.created).2 !! sample.alice = Some sample.stored).
Proof.
  split; [vm_compute; reflexivity|].
  apply (CreateAsset_existing sample.created sample.tx2).
  vm_compute; reflexivity.
Defined.

(** C3: on a ledger without a record for subscriberID, [UpdateAsset] and
    [DeleteAsset] fail with NotFound, make no write, and leave the ledger
    as it was. *)
Theorem UpdateAsset_DeleteAsset_missing l tx d k p b s t ty r :
  world l !! k = None ->
  (submit tx (UpdateAsset d k p b s t ty r) l = (Err NotFound, l)
   /\ Forall (fun a => is_write a = false)
        (trace_of (UpdateAsset d k p b s t ty r) l))
  /\ (submit tx (DeleteAsset k) l = (Err NotFound, l)
      /\ Forall (fun a => is_write a = false) (trace_of (DeleteAsset k) l)).
Proof.
  intros Hk. unfold submit, trace_of.
  rewrite UpdateAsset_run, DeleteAsset_run, Hk.
  split_and!; try done; by repeat constructor.
Qed.

(** Update and deletion of a subscriber on the empty ledger. *)
Lemma UpdateAsset_DeleteAsset_missing_witness :
  world genesis !! sample.alice = None
  /\ (submit sample.tx1
        (UpdateAsset "D1" sample.alice "1234" "1000" "ACTIVE" "0" "NA" "init")
        genesis = (Err NotFound, genesis)
      /\ Forall (fun a => is_write a = false)
           (trace_of
              (UpdateAsset "D1" sample.alice "1234" "1000" "ACTIVE" "0" "NA" "init")
              genesis))
  /\ (submit sample.tx1 (DeleteAsset sample.alice) genesis
      = (Err NotFound, genesis)
      /\ Forall (fun a => is_write a = false)
           (trace_of (DeleteAsset sample.alice) genesis)).
Proof.
  split; [vm_compute; reflexivity|].
  apply (UpdateAsset_DeleteAsset_missing genesis sample.tx1).
  vm_compute; reflexivity.
Defined.

(** The amount checks shared by [CreateAsset] and [UpdateAsset], once the
    existence check has passed. *)
Lemma amounts_outcome (b t k : string) (mk : Z -> Z -> Account) :
  let out : result unit * list access :=
    match strconv.ParseInt b with
    | Err e => (Err e, [ReadState k])
    | Ok bal =>
        match strconv.ParseInt t with
        | Err e => (Err e, [ReadState k])
        | Ok tamt =>
            match Marshal (mk bal tamt) with
            | Err e => (Err e, [ReadState k])
            | Ok raw => (Ok tt, [ReadState k; WriteState k raw])
            end
        end
    end in
  ((exists e, out.1 = Err e /\ InvalidAmount e) <-> (~ parses b \/ ~ parses t))
  /\ (~ parses b \/ ~ parses t ->
      exists e, out = (Err e, [ReadState k]) /\ InvalidAmount e).
Proof.
  cbv zeta.
  destruct (ParseInt_cases b) as [(bal & Hb & Hb')|[kb Hb]]; rewrite Hb.
  - destruct (ParseInt_cases t) as [(tamt & Ht & Ht')|[kt Ht]]; rewrite Ht.
    + destruct (Marshal_total (mk bal tamt)) as [raw ->].
      assert (Hboth : ~ (~ parses b \/ ~ parses t)).
      { intros [H|H]; apply H; by eexists. }
      split; [|by intros ?]. split; [|by intros ?].
      by intros (e & [=] & _).
    + assert (Hnt : ~ parses t).
      { intros [z Hz]. apply ParseInt_accepts in Hz. congruence. }
      assert (Hinv : InvalidAmount (NumError "ParseInt" t kt)) by by eexists _, _.
      split; [split; [by right|]|]; intros _; eauto.
  - assert (Hnb : ~ parses b).
    { intros [z Hz]. apply ParseInt_accepts in Hz. congruence. }
    assert (Hinv : InvalidAmount (NumError "ParseInt" b kb)) by by eexists _, _.
    split; [split; [by left|]|]; intros _; eauto.
Qed.

(** C4: once the existence check has passed ([CreateAsset] on an absent
    key, [UpdateAsset] on a present key), the call fails with
    InvalidAmount exactly when balanceStr or transAmountStr does not parse
    as a base-10 signed 64-bit integer, and then nothing is written and the
    ledger stays as it was.  [ParseInt] accepts the decimal form of every
    value of the int64 range, negative ones included, refuses digits that
    denote a value beyond either end of the range, and refuses "abc". *)
Theorem InvalidAmount_iff l tx d k p b s t ty r :
  (world l !! k = None ->
   ((exists e, (submit tx (CreateAsset d k p b s t ty r) l).1 = Err e
               /\ InvalidAmount e)
    <-> (~ parses b \/ ~ parses t))
   /\ (~ parses b \/ ~ parses t ->
       (submit tx (CreateAsset d k p b s t ty r) l).2 = l
       /\ Forall (fun a => is_write a = false)
            (trace_of (CreateAsset d k p b s t ty r) l)))
  /\ (world l !! k <> None ->
      ((exists e, (submit tx (UpdateAsset d k p b s t ty r) l).1 = Err e
                  /\ InvalidAmount e)
       <-> (~ parses b \/ ~ parses t))
      /\ (~ parses b \/ ~ parses t ->
          (submit tx (UpdateAsset d k p b s t ty r) l).2 = l
          /\ Forall (fun a => is_write a = false)
               (trace_of (UpdateAsset d k p b s t ty r) l)))
  /\ (forall z, in_int64 z -> strconv.ParseInt (strconv.FormatInt z) = Ok z)
  /\ (forall ds, ds <> "" -> all_digits ds = true -> maxInt64 < dval ds 0 ->
        strconv.ParseInt ds = Err (NumError "ParseInt" ds ErrRange))
  /\ (forall ds, ds <> "" -> all_digits ds = true -> - dval ds 0 < minInt64 ->
        strconv.ParseInt (String "-" ds)
        = Err (NumError "ParseInt" (String "-" ds) ErrRange))
  /\ strconv.ParseInt "abc" = Err (NumError "ParseInt" "abc" ErrSyntax).
Proof.
  split_and!.
  - intros Hk. unfold submit, trace_of. rewrite CreateAsset_run, Hk.
    destruct (amounts_outcome b t k (fun bal tamt => account_of d k p bal s tamt ty r))
      as [Hiff Hfail].
    split.
    + rewrite <- Hiff. clear.
      match goal with |- context [match ?o with _ => _ end] =>
        destruct o as [[[]|e] tr] end; cbn [fst]; [|done].
      split; intros (e & [=] & _).
    + intros Hbad. destruct (Hfail Hbad) as (e & -> & _).
      split; [done|]. by repeat constructor.
  - intros Hk. unfold submit, trace_of. rewrite UpdateAsset_run.
    destruct (world l !! k) as [v|]; [|done].
    destruct (amounts_outcome b t k (fun bal tamt => account_of d k p bal s tamt ty r))
      as [Hiff Hfail].
    split.
    + rewrite <- Hiff. clear.
      match goal with |- context [match ?o with _ => _ end] =>
        destruct o as [[[]|e] tr] end; cbn [fst]; [|done].
      split; intros (e & [=] & _).
    + intros Hbad. destruct (Hfail Hbad) as (e & -> & _).
      split; [done|]. by repeat constructor.
  - apply ParseInt_FormatInt.
  - intros ds Hne Hd Hv. rewrite ParseInt_plain by done.
    by replace (dval ds 0 <=? maxInt64) with false
      by (symmetry; apply Z.leb_gt; lia).
  - intros ds Hne Hd Hv. rewrite ParseInt_minus by done.
    by replace (minInt64 <=? - dval ds 0) with false
      by (symmetry; apply Z.leb_gt; lia).
  - reflexivity.
Qed.

(** The creation with balance "abc" on the empty ledger. *)
Lemma InvalidAmount_iff_witness :
  world genesis !! sample.alice = None
  /\ (exists e,
        (submit sample.tx1
           (CreateAsset "D1" sample.alice "1234" "abc" "ACTIVE" "0" "NA" "init")
           genesis).1 = Err e
        /\ InvalidAmount e)
  /\ (submit sample.tx1
        (CreateAsset "D1" sample.alice "1234" "abc" "ACTIVE" "0" "NA" "init")
        genesis).2 = genesis.
Proof.
  assert (Hk : world genesis !! sample.alice = None) by (vm_compute; reflexivity).
  assert (Hbad : ~ parses "abc" \/ ~ parses "0").
  { left. intros [z Hz]. apply ParseInt_accepts in Hz.
    vm_compute in Hz. discriminate Hz. }
  destruct (InvalidAmount_iff genesis sample.tx1 "D1" sample.alice "1234" "abc"
              "ACTIVE" "0" "NA" "init") as [Hcreate _].
  destruct (Hcreate Hk) as [Hiff Hsame].
  split; [exact Hk|]. split; [apply Hiff, Hbad|apply Hsame, Hbad].
Defined.



(** *** Frame *)

Lemma apply_access_other tx l a key :
  access_key a <> Some key ->
  world (apply_access tx l a) !! key = world l !! key
  /\ history_of (apply_access tx l a) key = history_of l key.
Proof.
  intros Hne. destruct a as [k|? ?|k|k v|k]; cbn [apply_access]; try done.
  - assert (k <> key) by (by intros ->). cbn [world].
    rewrite lookup_insert_ne, history_of_insert by done. by rewrite decide_False.
  - assert (k <> key) by (by intros ->). cbn [world].
    rewrite lookup_delete_ne, history_of_insert by done. by rewrite decide_False.
Qed.

(** A transaction that is no create, update or delete addressed to [key]
    leaves the record and the change log of [key] as they were. *)
Lemma step_frame tx i l key :
  mutates i key = false ->
  world (step tx i l) !! key = world l !! key
  /\ history_of (step tx i l) key = history_of l key.
Proof.
  intros Hmut.
  destruct (step_cases tx i l) as
    [->|[(d & m & p & b & s & t & ty & r & bal & tamt & raw & Hi & _ & _ & _ & ->)
        |(m & -> & _ & ->)]]; [done|..]; apply apply_access_other; cbn.
  - intros [= ->]. destruct Hi as [[-> _]|[-> _]]; cbn in Hmut;
      by rewrite bool_decide_eq_true_2 in Hmut.
  - intros [= ->]. cbn in Hmut. by rewrite bool_decide_eq_true_2 in Hmut.
Qed.


(** *** Successful submissions, read backwards *)




Lemma history_of_put tx l k raw :
  history_of (apply_access tx l (WriteState k raw)) k
  = history_of l k
    ++ [KeyModification.mk (GetTxID tx) (Some raw) (Some (GetTxTimestamp tx)) false].
Proof. cbn [apply_access]. rewrite history_of_insert. by rewrite decide_True. Qed.

Lemma history_of_del tx l k :
  history_of (apply_access tx l (DeleteState k)) k
  = history_of l k
    ++ [KeyModification.mk (GetTxID tx) None (Some (GetTxTimestamp tx)) true].
Proof. cbn [apply_access]. rewrite history_of_insert. by rewrite decide_True. Qed.

(** *** The history loop *)

Lemma GetAssetHistory_loop_snapshot rec it h b a :
  KeyModification.Value rec = Some b ->
  KeyModification.IsDelete rec = false ->
  Unmarshal b = Ok a ->
  GetAssetHistory_loop (rec :: it) h
  = GetAssetHistory_loop it (h ++ [entry_of rec (Some a)]).
Proof.
  intros Hv Hd Ha. cbn [GetAssetHistory_loop]. rewrite Hv, Hd.
  cbn [from_option id negb andb]. rewrite bool_decide_eq_true_2 by done.
  cbn [andb]. rewrite Ha. unfold entry_of. by rewrite Hd.
Qed.

Lemma GetAssetHistory_loop_bare rec it h :
  KeyModification.Value rec = None \/ KeyModification.IsDelete rec = true ->
  GetAssetHistory_loop (rec :: it) h
  = GetAssetHistory_loop it (h ++ [entry_of rec None]).
Proof.
  intros Hrec. cbn [GetAssetHistory_loop].
  destruct Hrec as [Hv|Hd].
  - rewrite Hv. by rewrite bool_decide_eq_false_2 by (by intros H; apply H).
  - rewrite Hd, andb_false_r. unfold entry_of. by rewrite Hd.
Qed.

Lemma GetAssetHistory_loop_failure rec it h b e :
  KeyModification.Value rec = Some b ->
  KeyModification.IsDelete rec = false ->
  Unmarshal b = Err e ->
  GetAssetHistory_loop (rec :: it) h = Err e.
Proof.
  intros Hv Hd Ha. cbn [GetAssetHistory_loop]. rewrite Hv, Hd.
  cbn [from_option id negb andb]. rewrite bool_decide_eq_true_2 by done.
  cbn [andb]. by rewrite Ha.
Qed.



(** C7: no invocation but a [CreateAsset] adds a record and none but a
    [DeleteAsset] removes one; an invocation touches through the stub only
    the key given as its subscriberID (and writes nothing when it takes
    none); the record and the change log of every other key are as they
    were after it; and [ReadAsset], [GetAllAssets] and [GetAssetHistory]
    leave the ledger as it was. *)
Theorem single_key_frame tx i l :
  (forall key, subscriberID i <> Some key ->
     world (step tx i l) !! key = world l !! key
     /\ history_of (step tx i l) key = history_of l key)
  /\ Forall (fun a => match subscriberID i with
                      | Some k => access_key a = Some k
                      | None => is_write a = false
                      end) (trace_of (invoke i) l)
  /\ (forall key, world l !! key = None -> world (step tx i l) !! key <> None ->
        exists d p b s t ty r, i = CallCreateAsset d key p b s t ty r)
  /\ (forall key, world l !! key <> None -> world (step tx i l) !! key = None ->
        i = CallDeleteAsset key)
  /\ (match i with
      | CallReadAsset _ | CallGetAllAssets | CallGetAssetHistory _ =>
          step tx i l = l
          /\ Forall (fun a => is_write a = false) (trace_of (invoke i) l)
      | _ => True
      end).
Proof.
  split_and!.
  - intros key Hne. apply step_frame.
    destruct i; cbn in *; try done; apply bool_decide_eq_false_2; congruence.
  - rewrite invoke_trace. unfold trace_of.
    destruct i as [d m p b s t ty r|m|d m p b s t ty r|m| |m]; cbn [subscriberID].
    + rewrite CreateAsset_run.
      repeat match goal with |- context [match ?x with _ => _ end] =>
        destruct x end; by repeat constructor.
    + rewrite ReadAsset_run.
      repeat match goal with |- context [match ?x with _ => _ end] =>
        destruct x end; by repeat constructor.
    + rewrite UpdateAsset_run.
      repeat match goal with |- context [match ?x with _ => _ end] =>
        destruct x end; by repeat constructor.
    + rewrite DeleteAsset_run.
      repeat match goal with |- context [match ?x with _ => _ end] =>
        destruct x end; by repeat constructor.
    + rewrite GetAllAssets_trace. by repeat constructor.
    + rewrite GetAssetHistory_run. by repeat constructor.
  - intros key Hold Hnew.
    destruct (step_cases tx i l) as
      [Heq|[(d & m & p & b & s & t & ty & r & bal & tamt & raw & Hi & _ & _ & _ & Heq)
          |(m & -> & _ & Heq)]]; rewrite Heq in Hnew; [done|..];
      cbn [apply_access world] in Hnew.
    + destruct (decide (m = key)) as [->|Hne].
      * destruct Hi as [[-> _]|[_ Hlive]]; [eauto 10|done].
      * by rewrite lookup_insert_ne in Hnew.
    + destruct (decide (m = key)) as [->|Hne].
      * by rewrite lookup_delete_eq in Hnew.
      * by rewrite lookup_delete_ne in Hnew.
  - intros key Hold Hnew.
    destruct (step_cases tx i l) as
      [Heq|[(d & m & p & b & s & t & ty & r & bal & tamt & raw & Hi & _ & _ & _ & Heq)
          |(m & -> & _ & Heq)]]; rewrite Heq in Hnew; [done|..];
      cbn [apply_access world] in Hnew.
    + destruct (decide (m = key)) as [->|Hne].
      * by rewrite lookup_insert_eq in Hnew.
      * by rewrite lookup_insert_ne in Hnew.
    + destruct (decide (m = key)) as [->|Hne]; [done|].
      by rewrite lookup_delete_ne in Hnew.
  - assert (Hro : (forall d m p b s t ty r, i <> CallCreateAsset d m p b s t ty r)
                  -> (forall d m p b s t ty r, i <> CallUpdateAsset d m p b s t ty r)
                  -> (forall m, i <> CallDeleteAsset m) -> step tx i l = l).
    { intros H1 H2 H3.
      destruct (step_cases tx i l) as
        [Heq|[(d & m & p & b & s & t & ty & r & bal & tamt & raw & Hi & _)
            |(m & Hi & _)]]; [done|..].
      - destruct Hi as [[Hi _]|[Hi _]]; [by destruct (H1 _ _ _ _ _ _ _ _ Hi)|
                                         by destruct (H2 _ _ _ _ _ _ _ _ Hi)].
      - by destruct (H3 _ Hi). }
    destruct i as [d m p b s t ty r|m|d m p b s t ty r|m| |m]; try done;
      (split; [by apply Hro|]); rewrite invoke_trace; unfold trace_of.
    + rewrite ReadAsset_run.
      repeat match goal with |- context [match ?x with _ => _ end] =>
        destruct x end; by repeat constructor.
    + rewrite GetAllAssets_trace. by repeat constructor.
    + rewrite GetAssetHistory_run. by repeat constructor.
Qed.

(** The deletion of the sample run leaves the other subscriber alone. *)
Lemma single_key_frame_witness :
  subscriberID (CallDeleteAsset sample.alice) <> Some sample.bob
  /\ world (step sample.tx4 (CallDeleteAsset sample.alice) sample.updated)
       !! sample.bob = world sample.updated !! sample.bob
  /\ history_of (step sample.tx4 (CallDeleteAsset sample.alice) sample.updated)
       sample.bob = history_of sample.updated sample.bob.
Proof.
  assert (Hne : subscriberID (CallDeleteAsset sample.alice) <> Some sample.bob)
    by (vm_compute; discriminate).
  split; [exact Hne|].
  exact (proj1 (single_key_frame sample.tx4 (CallDeleteAsset sample.alice)
                  sample.updated) sample.bob Hne).
Defined.

(** C8: [GetAllAssets] on a ledger without live records returns the empty
    sequence; [GetAssetHistory] returns the empty sequence for a key that
    was never written; and on every ledger the contract can produce
    [GetAllAssets] returns the record of every live key, once, in the
    lexicographic order of the subscriber identifiers. *)
Theorem queries_over_absent_data :
  (forall l, world l = ∅ -> evaluate GetAllAssets l = Ok [])
  /\ (forall l key, history_of l key = [] ->
        evaluate (GetAssetHistory key) l = Ok [])
  /\ (forall l, reachable l ->
        exists accs,
          evaluate GetAllAssets l = Ok accs
          /\ Sorted String.le (MSISDN <$> accs)
          /\ NoDup (MSISDN <$> accs)
          /\ (forall key, key ∈ MSISDN <$> accs <-> live l key)
          /\ (forall a, a ∈ accs -> evaluate (ReadAsset (MSISDN a)) l = Ok a)).
Proof.
  split_and!.
  - intros l Hw. unfold evaluate, GetAllAssets, bind, GetStateByRange.
    by rewrite Hw, map_to_list_empty.
  - intros l key Hh. unfold evaluate. by rewrite GetAssetHistory_run, Hh.
  - intros l Hl. apply reachable_well_formed in Hl.
    destruct (GetAllAssets_well_formed l Hl)
      as (accs & Hrun & Hsort & Hnd & Hkeys & Hread).
    exists accs. unfold evaluate. rewrite Hrun. split_and!; try done.
    intros a Ha. destruct (Hread a Ha) as (raw & Hraw & Hdec).
    by rewrite ReadAsset_run, Hraw.
Qed.

(** The two subscribers of the sample run, listed. *)
Lemma queries_over_absent_data_witness :
  reachable sample.joined
  /\ exists accs,
       evaluate GetAllAssets sample.joined = Ok accs
       /\ Sorted String.le (MSISDN <$> accs)
       /\ NoDup (MSISDN <$> accs)
       /\ (forall key, key ∈ MSISDN <$> accs <-> live sample.joined key)
       /\ (forall a, a ∈ accs ->
             evaluate (ReadAsset (MSISDN a)) sample.joined = Ok a).
Proof.
  assert (Hr : reachable sample.joined).
  { unfold sample.joined, sample.created.
    do 2 apply reachable_step. apply reachable_genesis. }
  split; [exact Hr|].
  exact (proj2 (proj2 queries_over_absent_data) sample.joined Hr).
Defined.

(** C9: every write of [CreateAsset] and of [UpdateAsset] stores, under
    the key it is given, an account whose [MSISDN] is that key; hence on
    every ledger the contract can produce, [ReadAsset] of a key either
    fails or returns a record whose [MSISDN] is the key. *)
Theorem MSISDN_is_key :
  (forall d k p b s t ty r l a,
     a ∈ trace_of (CreateAsset d k p b s t ty r) l
     \/ a ∈ trace_of (UpdateAsset d k p b s t ty r) l ->
     is_write a = true ->
     exists acc raw,
       a = WriteState k raw /\ Marshal acc = Ok raw /\ MSISDN acc = k)
  /\ (forall l key,
        reachable l ->
        evaluate (ReadAsset key) l = Err NotFound
        \/ exists acc, evaluate (ReadAsset key) l = Ok acc /\ MSISDN acc = key).
Proof.
  split.
  - intros d k p b s t ty r l a Hin Hw. unfold trace_of in Hin.
    rewrite CreateAsset_run, UpdateAsset_run in Hin.
    assert (Hcase : a ∈ [ReadState k] \/
              exists bal tamt raw,
                Marshal (account_of d k p bal s tamt ty r) = Ok raw
                /\ a ∈ [ReadState k; WriteState k raw]).
    { destruct Hin as [Hin|Hin];
        repeat match type of Hin with context [match ?x with _ => _ end] =>
          destruct x eqn:? end; cbn [snd] in Hin; eauto 10. }
    destruct Hcase as [Hin'|(bal & tamt & raw & Hraw & Hin')].
    + apply list_elem_of_singleton in Hin'. by subst a.
    + apply elem_of_cons in Hin' as [->|Hin']; [done|].
      apply list_elem_of_singleton in Hin'. subst a. eauto.
  - intros l key Hl. apply reachable_well_formed in Hl.
    unfold evaluate. rewrite ReadAsset_run.
    destruct (world l !! key) as [raw|] eqn:Hraw; [right|by left].
    destruct (stored_ok_Unmarshal key raw (Hl _ _ Hraw)) as (a & Ha & Hk).
    exists a. by rewrite Ha.
Qed.

(** Reading the first subscriber after the update of the sample run. *)
Lemma MSISDN_is_key_witness :
  reachable sample.updated
  /\ (evaluate (ReadAsset sample.alice) sample.updated = Err NotFound
      \/ exists acc,
           evaluate (ReadAsset sample.alice) sample.updated = Ok acc
           /\ MSISDN acc = sample.alice).
Proof.
  assert (Hr : reachable sample.updated).
  { unfold sample.updated, sample.joined, sample.created.
    do 3 apply reachable_step. apply reachable_genesis. }
  split; [exact Hr|].
  exact (proj2 MSISDN_is_key sample.updated sample.alice Hr).
Defined.

(** C10: a history entry carries a snapshot only for a change-log record
    that has a value and is no deletion, and the snapshot is that value
    decoded; a record without a value, or a deletion whatever its value,
    gives an entry without snapshot that keeps the record's deletion flag,
    and is never decoded; the only failures are decode failures of valued
    records that are no deletions. *)
Theorem GetAssetHistory_snapshots l key :
  (forall hs,
     evaluate (GetAssetHistory key) l = Ok hs ->
     Forall2 (fun rec h =>
                TxID h = KeyModification.TxId rec
                /\ IsDelete h = KeyModification.IsDelete rec
                /\ Timestamp h
                   = timestamppb.GetSeconds (KeyModification.Timestamp rec)
                /\ match Value h with
                   | Some a =>
                       exists b, KeyModification.Value rec = Some b
                                 /\ KeyModification.IsDelete rec = false
                                 /\ Unmarshal b = Ok a
                   | None =>
                       KeyModification.Value rec = None
                       \/ KeyModification.IsDelete rec = true
                   end)
       (history_of l key) hs)
  /\ (Forall (fun rec => KeyModification.Value rec = None
                         \/ KeyModification.IsDelete rec = true)
        (history_of l key) ->
      evaluate (GetAssetHistory key) l
      = Ok ((fun rec => {| TxID := KeyModification.TxId rec;
                           Value := None;
                           IsDelete := KeyModification.IsDelete rec;
                           Timestamp :=
                             timestamppb.GetSeconds
                               (KeyModification.Timestamp rec) |})
            <$> history_of l key))
  /\ (forall e,
        evaluate (GetAssetHistory key) l = Err e ->
        exists rec b,
          rec ∈ history_of l key /\ KeyModification.Value rec = Some b
          /\ KeyModification.IsDelete rec = false /\ Unmarshal b = Err e).
Proof.
  unfold evaluate. rewrite GetAssetHistory_run. cbn [fst].
  generalize (history_of l key). intros recs.
  set (R := fun (rec : KeyModification.t) (h : History) =>
              TxID h = KeyModification.TxId rec
              /\ IsDelete h = KeyModification.IsDelete rec
              /\ Timestamp h
                 = timestamppb.GetSeconds (KeyModification.Timestamp rec)
              /\ match Value h with
                 | Some a =>
                     exists b, KeyModification.Value rec = Some b
                               /\ KeyModification.IsDelete rec = false
                               /\ Unmarshal b = Ok a
                 | None =>
                     KeyModification.Value rec = None
                     \/ KeyModification.IsDelete rec = true
                 end).
  assert (Hcase : forall rec : KeyModification.t,
            (KeyModification.Value rec = None
             \/ KeyModification.IsDelete rec = true)
            \/ exists b, KeyModification.Value rec = Some b
                         /\ KeyModification.IsDelete rec = false).
  { intros [tid [b|] ts []]; cbn; eauto. }
  split_and!.
  - assert (Hgen : forall h hs,
              GetAssetHistory_loop recs h = Ok hs ->
              exists hs', hs = h ++ hs' /\ Forall2 R recs hs').
    { induction recs as [|rec recs IH]; intros h hs Hrun.
      - cbn in Hrun. injection Hrun as <-. exists []. by rewrite app_nil_r.
      - destruct (Hcase rec) as [Hbare|(b & Hv & Hd)].
        + rewrite GetAssetHistory_loop_bare in Hrun by done.
          destruct (IH _ _ Hrun) as (hs' & -> & Hrel).
          exists (entry_of rec None :: hs'). rewrite <- app_assoc.
          split; [done|]. constructor; [|done]. by unfold R.
        + destruct (Unmarshal b) as [a|e] eqn:Ha.
          * rewrite (GetAssetHistory_loop_snapshot _ _ _ b a) in Hrun by done.
            destruct (IH _ _ Hrun) as (hs' & -> & Hrel).
            exists (entry_of rec (Some a) :: hs'). rewrite <- app_assoc.
            split; [done|]. constructor; [|done]. unfold R. cbn. eauto 10.
          * by rewrite (GetAssetHistory_loop_failure _ _ _ b e) in Hrun. }
    intros hs Hrun. destruct (Hgen _ _ Hrun) as (hs' & -> & Hrel). done.
  - intros Hall.
    assert (Hgen : forall h,
              GetAssetHistory_loop recs h
              = Ok (h ++ ((fun rec => entry_of rec None) <$> recs))).
    { induction Hall as [|rec recs Hrec _ IH]; intros h.
      - cbn. by rewrite app_nil_r.
      - rewrite GetAssetHistory_loop_bare by done. rewrite IH.
        by rewrite <- app_assoc. }
    apply Hgen.
  - assert (Hgen : forall h e,
              GetAssetHistory_loop recs h = Err e ->
              exists rec b,
                rec ∈ recs /\ KeyModification.Value rec = Some b
                /\ KeyModification.IsDelete rec = false /\ Unmarshal b = Err e).
    { induction recs as [|rec recs IH]; intros h e Hrun; [done|].
      destruct (Hcase rec) as [Hbare|(b & Hv & Hd)].
      - rewrite GetAssetHistory_loop_bare in Hrun by done.
        destruct (IH _ _ Hrun) as (rec' & b' & Hin & Hrest).
        exists rec', b'. split; [by right|done].
      - destruct (Unmarshal b) as [a|e'] eqn:Ha.
        + rewrite (GetAssetHistory_loop_snapshot _ _ _ b a) in Hrun by done.
          destruct (IH _ _ Hrun) as (rec' & b' & Hin & Hrest).
          exists rec', b'. split; [by right|done].
        + rewrite (GetAssetHistory_loop_failure _ _ _ b e') in Hrun by done.
          injection Hrun as <-. exists rec, b. split; [by left|done]. }
    apply Hgen.
Qed.

(** The history of the ledger with the odd change log. *)
Lemma GetAssetHistory_snapshots_witness :
  Forall (fun rec => KeyModification.Value rec = None
                     \/ KeyModification.IsDelete rec = true)
    (history_of sample.odd sample.alice)
  /\ evaluate (GetAssetHistory sample.alice) sample.odd
     = Ok [ {| TxID := "t1"; Value := None; IsDelete := false; Timestamp := 0 |};
            {| TxID := "t2"; Value := None; IsDelete := true; Timestamp := 5 |} ].
Proof.
  assert (Hall : Forall (fun rec => KeyModification.Value rec = None
                                    \/ KeyModification.IsDelete rec = true)
                   (history_of sample.odd sample.alice)).
  { change (history_of sample.odd sample.alice) with
      [ KeyModification.mk "t1" None None false;
        KeyModification.mk "t2" (Some "junk") (Some (sample.at_second 5)) true ].
    constructor; [left; reflexivity|].
    constructor; [right; reflexivity|]. constructor. }
  split; [exact Hall|].
  exact (proj1 (proj2 (GetAssetHistory_snapshots sample.odd sample.alice)) Hall).
Defined.

End claims.

(** * Further properties of the contract *)

Section contract_further.

Import json.

(** The errors of [json.Unmarshal] are its own. *)
Lemma set_fields_error ms a e :
  set_fields a ms = Err e -> exists v f, e = UnmarshalTypeError v f.
Proof.
  revert a. induction ms as [|[k v] ms IH]; intros a H; cbn [set_fields] in H;
    [discriminate|].
  destruct (set_field a k v) as [a'|e'] eqn:Hf; [by eapply IH|].
  injection H as <-. unfold set_field in Hf.
  destruct (find_field k) as [f|]; [|discriminate].
  repeat match type of Hf with
  | (if ?c then _ else _) = _ => destruct c
  end;
  unfold set_string, set_int64 in Hf;
  destruct v; try discriminate Hf; try (injection Hf as <-; eauto);
  destruct (strconv.ParseInt _); try discriminate Hf; injection Hf as <-; eauto.
Qed.

Lemma Unmarshal_error raw e :
  Unmarshal raw = Err e ->
  (exists msg, e = SyntaxError msg) \/ (exists v f, e = UnmarshalTypeError v f).
Proof.
  unfold Unmarshal. destruct (parse_document raw) as [v|].
  - destruct v; intros H; try (injection H as <-; right; eauto); try discriminate.
    right. by eapply set_fields_error.
  - intros [= <-]. left. eauto.
Qed.

Lemma Unmarshal_not_NotFound raw : Unmarshal raw <> Err NotFound.
Proof.
  intros H. apply Unmarshal_error in H as [[? H]|(? & ? & H)]; discriminate H.
Qed.

(** X1: [DeleteAsset] on a key that holds a record succeeds and removes
    that record from the world state and nothing else; afterwards
    [ReadAsset] and a second [DeleteAsset] of the key fail with NotFound,
    and a [CreateAsset] of the key with amounts that parse succeeds
    again. *)
Theorem DeleteAsset_existing l tx k :
  world l !! k <> None ->
  exists l',
    submit tx (DeleteAsset k) l = (Ok tt, l')
    /\ world l' = delete k (world l)
    /\ evaluate (ReadAsset k) l' = Err NotFound
    /\ (forall tx', submit tx' (DeleteAsset k) l' = (Err NotFound, l'))
    /\ (forall tx' d p b s t ty r,
          parses b -> parses t ->
          exists l'',
            submit tx' (CreateAsset d k p b s t ty r) l' = (Ok tt, l'')
            /\ world l'' !! k <> None).
Proof.
  intros Hk. exists (apply_access tx l (DeleteState k)).
  assert (Hgone : world (apply_access tx l (DeleteState k)) !! k = None).
  { cbn [apply_access world]. apply lookup_delete_eq. }
  split_and!.
  - unfold submit. rewrite DeleteAsset_run.
    by destruct (world l !! k).
  - reflexivity.
  - unfold evaluate. by rewrite ReadAsset_run, Hgone.
  - intros tx'. unfold submit. by rewrite DeleteAsset_run, Hgone.
  - intros tx' d p b s t ty r [bal Hb] [tamt Ht].
    destruct (CreateAsset_submit_ok _ d k p b s t ty r bal tamt Hgone Hb Ht)
      as (raw & Hraw & Hrun).
    eexists. unfold submit. rewrite Hrun, commit_put. split; [done|].
    cbn [apply_access world]. by rewrite lookup_insert_eq.
Qed.

Lemma DeleteAsset_existing_witness :
  world sample.joined !! sample.alice <> None
  /\ exists l',
       submit sample.tx4 (DeleteAsset sample.alice) sample.joined = (Ok tt, l')
       /\ world l' = delete sample.alice (world sample.joined)
       /\ evaluate (ReadAsset sample.alice) l' = Err NotFound
       /\ (forall tx', submit tx' (DeleteAsset sample.alice) l'
                       = (Err NotFound, l'))
       /\ (forall tx' d p b s t ty r,
             parses b -> parses t ->
             exists l'',
               submit tx' (CreateAsset d sample.alice p b s t ty r) l'
               = (Ok tt, l'')
               /\ world l'' !! sample.alice <> None).
Proof.
  assert (Hk : world sample.joined !! sample.alice <> None)
    by (vm_compute; discriminate).
  split; [exact Hk|].
  exact (DeleteAsset_existing sample.joined sample.tx4 sample.alice Hk).
Defined.

(** X2: the errors of the contract are exact diagnoses.  [CreateAsset]
    returns AlreadyExists exactly when the key holds a record;
    [UpdateAsset], [DeleteAsset] and [ReadAsset] return NotFound exactly
    when it holds none; and [DeleteAsset] succeeds exactly when it holds
    one, so it has no other outcome. *)
Theorem error_codes_exact l tx d k p b s t ty r :
  ((submit tx (CreateAsset d k p b s t ty r) l).1 = Err AlreadyExists
   <-> world l !! k <> None)
  /\ ((submit tx (UpdateAsset d k p b s t ty r) l).1 = Err NotFound
      <-> world l !! k = None)
  /\ ((submit tx (DeleteAsset k) l).1 = Err NotFound <-> world l !! k = None)
  /\ ((submit tx (DeleteAsset k) l).1 = Ok tt <-> world l !! k <> None)
  /\ (evaluate (ReadAsset k) l = Err NotFound <-> world l !! k = None).
Proof.
  unfold submit, evaluate.
  rewrite CreateAsset_run, UpdateAsset_run, DeleteAsset_run, ReadAsset_run.
  destruct (world l !! k) as [v|] eqn:Hv; cbn [fst].
  - split_and!; try (split; [done|intros H; by destruct H]); try done.
    + split; [intros H; exfalso|done].
      destruct (ParseInt_cases b) as [(bal & Hb & _)|[kb Hb]]; rewrite Hb in H;
        [|discriminate H].
      destruct (ParseInt_cases t) as [(tamt & Ht & _)|[kt Ht]]; rewrite Ht in H;
        [|discriminate H].
      discriminate H.
    + split; [intros H; by apply Unmarshal_not_NotFound in H|done].
  - split_and!; try done.
    split; [intros H; exfalso|done].
    destruct (ParseInt_cases b) as [(bal & Hb & _)|[kb Hb]]; rewrite Hb in H;
      [|discriminate H].
    destruct (ParseInt_cases t) as [(tamt & Ht & _)|[kt Ht]]; rewrite Ht in H;
      [|discriminate H].
    discriminate H.
Qed.

(** X3: the amounts are checked balance first.  Once the existence check
    has passed, a balance string that does not parse makes [CreateAsset]
    and [UpdateAsset] return the [ParseInt] error that names the balance
    string, whatever the transaction amount is; the error names the
    transaction amount string only when the balance parses.  Nothing is
    committed in either case. *)
Theorem amount_error_names_the_string l tx d k p b s t ty r :
  (world l !! k = None ->
   (~ parses b ->
    exists kind,
      submit tx (CreateAsset d k p b s t ty r) l
      = (Err (NumError "ParseInt" b kind), l))
   /\ (parses b -> ~ parses t ->
       exists kind,
         submit tx (CreateAsset d k p b s t ty r) l
         = (Err (NumError "ParseInt" t kind), l)))
  /\ (world l !! k <> None ->
      (~ parses b ->
       exists kind,
         submit tx (UpdateAsset d k p b s t ty r) l
         = (Err (NumError "ParseInt" b kind), l))
      /\ (parses b -> ~ parses t ->
          exists kind,
            submit tx (UpdateAsset d k p b s t ty r) l
            = (Err (NumError "ParseInt" t kind), l))).
Proof.
  unfold submit. rewrite CreateAsset_run, UpdateAsset_run.
  split; intros Hk; (destruct (world l !! k) as [v|]; [|]); try done;
    (split; [intros Hb|intros [bal Hb] Ht]).
  all: try (apply not_parses_error in Hb as [kind ->]; by exists kind).
  all: apply ParseInt_accepts in Hb; rewrite Hb;
       apply not_parses_error in Ht as [kind ->]; by exists kind.
Qed.

Lemma amount_error_names_the_string_witness :
  world genesis !! sample.alice = None
  /\ ~ parses "12x"
  /\ exists kind,
       submit sample.tx1
         (CreateAsset "D1" sample.alice "1234" "12x" "ACTIVE" "y" "NA" "init")
         genesis
       = (Err (NumError "ParseInt" "12x" kind), genesis).
Proof.
  assert (Hk : world genesis !! sample.alice = None) by (vm_compute; reflexivity).
  assert (Hb : ~ parses "12x").
  { intros [z Hz]. apply ParseInt_accepts in Hz. vm_compute in Hz.
    discriminate Hz. }
  split; [exact Hk|]. split; [exact Hb|].
  exact (proj1 (proj1 (amount_error_names_the_string genesis sample.tx1 "D1"
                         sample.alice "1234" "12x" "ACTIVE" "y" "NA" "init") Hk)
           Hb).
Defined.

(** X4: the spelling of an amount is not stored.  Amount strings that
    denote the same integers (with or without a plus sign or leading
    zeros) make [CreateAsset], and [UpdateAsset], return the same result
    and commit the same ledger. *)
Theorem amount_spelling_is_not_stored l tx d k p s ty r b b' t t' bal tamt :
  base10_int64 b bal -> base10_int64 b' bal ->
  base10_int64 t tamt -> base10_int64 t' tamt ->
  submit tx (CreateAsset d k p b s t ty r) l
  = submit tx (CreateAsset d k p b' s t' ty r) l
  /\ submit tx (UpdateAsset d k p b s t ty r) l
     = submit tx (UpdateAsset d k p b' s t' ty r) l.
Proof.
  intros Hb Hb' Ht Ht'. apply ParseInt_accepts in Hb, Hb', Ht, Ht'.
  unfold submit. rewrite !CreateAsset_run, !UpdateAsset_run.
  by rewrite Hb, Hb', Ht, Ht'.
Qed.

Lemma amount_spelling_is_not_stored_witness :
  base10_int64 "+007" 7 /\ base10_int64 "7" 7
  /\ base10_int64 "-0" 0 /\ base10_int64 "0" 0
  /\ submit sample.tx1
       (CreateAsset "D1" sample.alice "1234" "+007" "ACTIVE" "-0" "NA" "init")
       genesis
     = submit sample.tx1
         (CreateAsset "D1" sample.alice "1234" "7" "ACTIVE" "0" "NA" "init")
         genesis
  /\ submit sample.tx1
       (UpdateAsset "D1" sample.alice "1234" "+007" "ACTIVE" "-0" "NA" "init")
       genesis
     = submit sample.tx1
         (UpdateAsset "D1" sample.alice "1234" "7" "ACTIVE" "0" "NA" "init")
         genesis.
Proof.
  assert (H1 : base10_int64 "+007" 7)
    by (apply (b10_plus "007"); [discriminate|reflexivity|vm_compute; discriminate]).
  assert (H2 : base10_int64 "7" 7)
    by (apply (b10_plain "7"); [discriminate|reflexivity|vm_compute; discriminate]).
  assert (H3 : base10_int64 "-0" 0)
    by (apply (b10_minus "0"); [discriminate|reflexivity|vm_compute; discriminate]).
  assert (H4 : base10_int64 "0" 0)
    by (apply (b10_plain "0"); [discriminate|reflexivity|vm_compute; discriminate]).
  split; [exact H1|]. split; [exact H2|]. split; [exact H3|]. split; [exact H4|].
  exact (amount_spelling_is_not_stored genesis sample.tx1 "D1" sample.alice
           "1234" "ACTIVE" "NA" "init" "+007" "7" "-0" "0" 7 0 H1 H2 H3 H4).
Defined.

(** *** The listing, on any ledger *)

#[local] Existing Instance kv_le_total.

#[local] Instance kv_le_trans : Transitive kv_le.
Proof. intros x y z. unfold kv_le. apply transitivity. Qed.

(** The loop of [GetAllAssets], by the first result that does not decode. *)
Lemma GetAllAssets_loop_cases kvs out :
  (exists accs,
     Forall2 (fun kv a => Unmarshal (KV.Value kv) = Ok a) kvs accs
     /\ GetAllAssets_loop kvs out = Ok (out ++ accs))
  \/ (exists kvs1 kv kvs2 e,
        kvs = kvs1 ++ kv :: kvs2
        /\ Forall (fun kv => exists a, Unmarshal (KV.Value kv) = Ok a) kvs1
        /\ Unmarshal (KV.Value kv) = Err e
        /\ GetAllAssets_loop kvs out = Err e).
Proof.
  revert out. induction kvs as [|kv kvs IH]; intros out.
  - left. exists []. split; [constructor|]. cbn. by rewrite app_nil_r.
  - cbn [GetAllAssets_loop]. destruct (Unmarshal (KV.Value kv)) as [a|e] eqn:Ha.
    + destruct (IH (out ++ [a])) as [(accs & Hall & Hrun)|
                                      (kvs1 & kv' & kvs2 & e & -> & Hall & He & Hrun)].
      * left. exists (a :: accs). split; [by constructor|].
        by rewrite Hrun, <- app_assoc.
      * right. exists (kv :: kvs1), kv', kvs2, e. split_and!; try done.
        constructor; eauto.
    + right. exists [], kv, kvs, e. split_and!; try done.
Qed.

Lemma filter_all {A} (P : A -> Prop) `{!forall x, Decision (P x)} (xs : list A) :
  (forall x, P x) -> filter P xs = xs.
Proof.
  intros HP. induction xs as [|x xs IH]; [done|].
  by rewrite filter_cons_True, IH.
Qed.

Lemma GetStateByRange_all_perm l :
  exists kvs,
    GetStateByRange "" "" l = (Ok kvs, [ReadRange "" ""])
    /\ StronglySorted kv_le kvs
    /\ kvs ≡ₚ (fun p => KV.mk p.1 p.2) <$> map_to_list (world l).
Proof.
  eexists. split; [reflexivity|]. split.
  - apply Sorted_StronglySorted; [apply _|]. apply (Sorted_merge_sort kv_le).
  - rewrite merge_sort_Permutation.
    by rewrite filter_all by (intros kv; apply in_range_all).
Qed.

Lemma GetStateByRange_all_elem l kvs :
  kvs ≡ₚ (fun p => KV.mk p.1 p.2) <$> map_to_list (world l) ->
  forall k v, KV.mk k v ∈ kvs <-> world l !! k = Some v.
Proof.
  intros Hp k v. rewrite Hp, list_elem_of_fmap. split.
  - intros ([k' v'] & Heq & Hin). cbn in Heq. simplify_eq.
    by apply elem_of_map_to_list.
  - intros Hkv. exists (k, v). split; [done|]. by apply elem_of_map_to_list.
Qed.

(** X5: [GetAllAssets] returns all the records or none, on any ledger,
    also one that holds bytes the contract did not write.  When it
    succeeds it returns one record for each live key, the decoding of the
    bytes under it; it fails exactly when the bytes under some live key
    do not decode, and then with the decoding error of the least such key
    in byte order; it succeeds whenever the bytes under every live key
    decode. *)
Theorem GetAllAssets_all_or_nothing l :
  (forall accs,
     evaluate GetAllAssets l = Ok accs ->
     length accs = size (world l)
     /\ (forall k raw, world l !! k = Some raw ->
           exists a, Unmarshal raw = Ok a /\ a ∈ accs)
     /\ (forall a, a ∈ accs ->
           exists k raw, world l !! k = Some raw /\ Unmarshal raw = Ok a))
  /\ (forall e,
        evaluate GetAllAssets l = Err e <->
        exists k raw,
          world l !! k = Some raw /\ Unmarshal raw = Err e
          /\ forall k' raw' e',
               world l !! k' = Some raw' -> Unmarshal raw' = Err e' ->
               String.le k k')
  /\ ((forall k raw, world l !! k = Some raw -> exists a, Unmarshal raw = Ok a) ->
      exists accs, evaluate GetAllAssets l = Ok accs).
Proof.
  destruct (GetStateByRange_all_perm l) as (kvs & Hrun & Hsort & Hperm).
  pose proof (GetStateByRange_all_elem l kvs Hperm) as Hin.
  assert (Heval : evaluate GetAllAssets l = GetAllAssets_loop kvs []).
  { unfold evaluate, GetAllAssets, bind. rewrite Hrun. unfold lift.
    by destruct (GetAllAssets_loop kvs []). }
  rewrite Heval.
  assert (Hfail : forall e,
    GetAllAssets_loop kvs [] = Err e <->
    exists k raw,
      world l !! k = Some raw /\ Unmarshal raw = Err e
      /\ forall k' raw' e',
           world l !! k' = Some raw' -> Unmarshal raw' = Err e' ->
           String.le k k').
  { intros e.
    destruct (GetAllAssets_loop_cases kvs [])
      as [(accs & Hall & Hok)|(kvs1 & kv & kvs2 & e0 & Heq & Hall & He0 & Herr)].
    - rewrite Hok. split; [done|]. intros (k & raw & Hk & He & _). exfalso.
      apply Hin, list_elem_of_lookup in Hk as [i Hi].
      destruct (Forall2_lookup_l _ _ _ _ _ Hall Hi) as (a & _ & Ha).
      cbn in Ha. congruence.
    - rewrite Herr. subst kvs.
      pose proof (StronglySorted_app_1_r _ _ _ Hsort) as Hs2.
      apply StronglySorted_cons in Hs2 as [Hs2 _].
      assert (Hpos : forall k' raw' e',
                world l !! k' = Some raw' -> Unmarshal raw' = Err e' ->
                KV.mk k' raw' = kv \/ KV.mk k' raw' ∈ kvs2).
      { intros k' raw' e' Hk' He'. apply Hin in Hk'.
        apply elem_of_app in Hk' as [Hk'|Hk'].
        - exfalso. rewrite Forall_forall in Hall.
          destruct (Hall _ Hk') as [a Ha]. cbn in Ha. congruence.
        - by apply elem_of_cons in Hk'. }
      assert (Hkv : world l !! KV.Key kv = Some (KV.Value kv)).
      { destruct kv as [k0 v0]. apply Hin, elem_of_app. right. by left. }
      split.
      + intros [= <-]. exists (KV.Key kv), (KV.Value kv).
        split_and!; try done. intros k' raw' e' Hk' He'.
        destruct (Hpos _ _ _ Hk' He') as [<-|Hk2]; [done|].
        rewrite Forall_forall in Hs2. apply (Hs2 _ Hk2).
      + intros (k & raw & Hk & He & Hmin). f_equal.
        assert (Hle : String.le k (KV.Key kv)) by (by eapply Hmin).
        destruct (Hpos _ _ _ Hk He) as [<-|Hk2]; [cbn in He0; congruence|].
        rewrite Forall_forall in Hs2. pose proof (Hs2 _ Hk2) as Hle'.
        unfold kv_le in Hle'. cbn in Hle'.
        assert (KV.Key kv = k) by (by apply (anti_symm String.le)).
        subst k. rewrite Hkv in Hk. injection Hk as <-. congruence. }
  split_and!.
  - intros accs Hok.
    destruct (GetAllAssets_loop_cases kvs [])
      as [(accs' & Hall & Hok')|(kvs1 & kv & kvs2 & e0 & _ & _ & _ & Herr)];
      [|congruence].
    rewrite Hok' in Hok. cbn in Hok. injection Hok as <-. split_and!.
    + rewrite <- (Forall2_length _ _ _ Hall), Hperm, length_fmap.
      apply length_map_to_list.
    + intros k raw Hk. apply Hin, list_elem_of_lookup in Hk as [i Hi].
      destruct (Forall2_lookup_l _ _ _ _ _ Hall Hi) as (a & Hai & Ha).
      exists a. split; [done|]. apply list_elem_of_lookup. eauto.
    + intros a Ha. apply list_elem_of_lookup in Ha as [i Hi].
      destruct (Forall2_lookup_r _ _ _ _ _ Hall Hi) as ([k raw] & Hkv & Ha).
      exists k, raw. split; [|done]. apply Hin, list_elem_of_lookup. eauto.
  - exact Hfail.
  - intros Hall. destruct (GetAllAssets_loop kvs []) as [accs|e] eqn:Hres; [eauto|].
    exfalso. destruct (proj1 (Hfail e) eq_refl) as (k & raw & Hk & He & _).
    destruct (Hall _ _ Hk) as [a Ha]. congruence.
Qed.

Lemma GetAllAssets_all_or_nothing_witness :
  evaluate GetAllAssets sample.joined = Ok demo.listed
  /\ length demo.listed = size (world sample.joined)
  /\ (forall k raw, world sample.joined !! k = Some raw ->
        exists a, Unmarshal raw = Ok a /\ a ∈ demo.listed)
  /\ (forall a, a ∈ demo.listed ->
        exists k raw, world sample.joined !! k = Some raw
                      /\ Unmarshal raw = Ok a).
Proof.
  assert (H : evaluate GetAllAssets sample.joined = Ok demo.listed)
    by (vm_compute; reflexivity).
  split; [exact H|].
  exact (proj1 (GetAllAssets_all_or_nothing sample.joined) demo.listed H).
Defined.

(** X6: an account whose strings are valid UTF-8 and whose amounts are
    64-bit integers is read back by [json.Unmarshal] from what
    [json.Marshal] writes for it, whatever bytes its strings hold (quotes,
    backslashes, control characters, the characters that [json.Marshal]
    escapes for HTML, U+2028 and U+2029); hence no two such accounts are
    stored as the same bytes. *)
Theorem Account_round_trip a :
  valid_account a ->
  exists raw,
    Marshal a = Ok raw /\ Unmarshal raw = Ok a
    /\ forall b, valid_account b -> Marshal b = Ok raw -> b = a.
Proof.
  intros (_ & _ & _ & _ & _ & _ & Hb & Ht).
  destruct (Marshal_total a) as [raw Hraw]. exists raw.
  pose proof (Marshal_Unmarshal a raw Hb Ht Hraw) as Hdec.
  split_and!; [done|done|].
  intros b (_ & _ & _ & _ & _ & _ & Hb' & Ht') Hraw'.
  pose proof (Marshal_Unmarshal b raw Hb' Ht' Hraw') as Hdec'. congruence.
Qed.

Lemma Account_round_trip_witness :
  valid_account demo.account
  /\ exists raw,
       Marshal demo.account = Ok raw /\ Unmarshal raw = Ok demo.account
       /\ forall b, valid_account b -> Marshal b = Ok raw -> b = demo.account.
Proof.
  assert (H : valid_account demo.account).
  { unfold valid_account, in_int64. vm_compute. repeat split; discriminate. }
  split; [exact H|]. exact (Account_round_trip demo.account H).
Defined.

End contract_further.

(** * The history of a key *)

Section history_log.

Import json.

Lemma GetAssetHistory_loop_app recs1 recs2 h :
  GetAssetHistory_loop (recs1 ++ recs2) h
  = match GetAssetHistory_loop recs1 h with
    | Ok h' => GetAssetHistory_loop recs2 h'
    | Err e => Err e
    end.
Proof.
  revert h. induction recs1 as [|rec recs1 IH]; intros h; [done|].
  rewrite <- app_comm_cons.
  destruct (KeyModification.Value rec) as [b|] eqn:Hv;
    [destruct (KeyModification.IsDelete rec) eqn:Hd|].
  - rewrite !(GetAssetHistory_loop_bare rec) by (by right). apply IH.
  - destruct (Unmarshal b) as [a|e] eqn:Ha.
    + rewrite !(GetAssetHistory_loop_snapshot rec _ _ b a) by done. apply IH.
    + by rewrite !(GetAssetHistory_loop_failure rec _ _ b e) by done.
  - rewrite !(GetAssetHistory_loop_bare rec) by (by left). apply IH.
Qed.

Lemma history_after_write tx l k raw a hs :
  evaluate (GetAssetHistory k) l = Ok hs ->
  Unmarshal raw = Ok a ->
  evaluate (GetAssetHistory k) (apply_access tx l (WriteState k raw))
  = Ok (hs ++ [{| TxID := GetTxID tx; Value := Some a; IsDelete := false;
                  Timestamp := timestamppb.Seconds (GetTxTimestamp tx) |}]).
Proof.
  unfold evaluate. rewrite !GetAssetHistory_run. cbn [fst]. intros Hhs Ha.
  rewrite history_of_put, GetAssetHistory_loop_app, Hhs.
  by erewrite GetAssetHistory_loop_snapshot.
Qed.

Lemma history_after_delete tx l k hs :
  evaluate (GetAssetHistory k) l = Ok hs ->
  evaluate (GetAssetHistory k) (apply_access tx l (DeleteState k))
  = Ok (hs ++ [{| TxID := GetTxID tx; Value := None; IsDelete := true;
                  Timestamp := timestamppb.Seconds (GetTxTimestamp tx) |}]).
Proof.
  unfold evaluate. rewrite !GetAssetHistory_run. cbn [fst]. intros Hhs.
  rewrite history_of_del, GetAssetHistory_loop_app, Hhs.
  by rewrite GetAssetHistory_loop_bare by (by left).
Qed.

(** What [succeeds] and [mutates] say together about a step. *)
Lemma step_mutation tx i l k :
  succeeds tx i l = true -> mutates i k = true ->
  (exists a raw,
     Marshal a = Ok raw /\ MSISDN a = k
     /\ in_int64 (BALANCE a) /\ in_int64 (TRANSAMOUNT a)
     /\ step tx i l = apply_access tx l (WriteState k raw))
  \/ (i = CallDeleteAsset k /\ world l !! k <> None
      /\ step tx i l = apply_access tx l (DeleteState k)).
Proof.
  unfold succeeds, step, submit.
  destruct i as [d m p b s t ty r|m|d m p b s t ty r|m| |m]; cbn [invoke mutates];
    try discriminate; rewrite bind_ret_run; intros Hok Hm;
    apply bool_decide_eq_true in Hm; subst m.
  - rewrite CreateAsset_run in *. destruct (world l !! k); [done|].
    destruct (strconv.ParseInt b) as [bal|] eqn:Hb; [|done].
    destruct (strconv.ParseInt t) as [tamt|] eqn:Ht; [|done].
    destruct (Marshal_total (account_of d k p bal s tamt ty r)) as [raw Hraw].
    rewrite Hraw. left. exists (account_of d k p bal s tamt ty r), raw.
    split_and!; try done; cbn [account_of BALANCE TRANSAMOUNT];
      by eapply ParseInt_range.
  - rewrite UpdateAsset_run in *. destruct (world l !! k); [|done].
    destruct (strconv.ParseInt b) as [bal|] eqn:Hb; [|done].
    destruct (strconv.ParseInt t) as [tamt|] eqn:Ht; [|done].
    destruct (Marshal_total (account_of d k p bal s tamt ty r)) as [raw Hraw].
    rewrite Hraw. left. exists (account_of d k p bal s tamt ty r), raw.
    split_and!; try done; cbn [account_of BALANCE TRANSAMOUNT];
      by eapply ParseInt_range.
  - rewrite DeleteAsset_run in *. destruct (world l !! k) eqn:Hk; [|done].
    right. done.
Qed.

Lemma step_failure tx i l : succeeds tx i l = false -> step tx i l = l.
Proof.
  unfold succeeds, step, submit.
  by destruct (invoke i l) as [[?|?] ?].
Qed.

(** X7: the history of a key is append-only.  If [GetAssetHistory] of a
    non-empty key returns [hs], then after one more submitted invocation
    it returns [hs] again, unless the invocation is a create, update or
    delete of that key that succeeded: then it returns [hs] followed by
    one entry, which carries the identifier and the seconds of the
    timestamp of that transaction, has the deletion flag set exactly when
    the key no longer holds a record, and has as snapshot what [ReadAsset]
    now returns for the key (none after a deletion). *)
Theorem GetAssetHistory_append_only tx i l k hs :
  k <> "" ->
  evaluate (GetAssetHistory k) l = Ok hs ->
  if succeeds tx i l && mutates i k then
    exists h,
      evaluate (GetAssetHistory k) (step tx i l) = Ok (hs ++ [h])
      /\ TxID h = GetTxID tx
      /\ Timestamp h = timestamppb.Seconds (GetTxTimestamp tx)
      /\ IsDelete h = bool_decide (world (step tx i l) !! k = None)
      /\ Value h = match evaluate (ReadAsset k) (step tx i l) with
                   | Ok a => Some a
                   | Err _ => None
                   end
  else evaluate (GetAssetHistory k) (step tx i l) = Ok hs.
Proof.
  intros _ Hhs.
  destruct (succeeds tx i l) eqn:Hok; cbn [andb];
    [|by rewrite step_failure].
  destruct (mutates i k) eqn:Hm.
  - destruct (step_mutation tx i l k Hok Hm)
      as [(a & raw & Hraw & Hk & Hb & Ht & ->)|(-> & Hlive & ->)].
    + pose proof (Marshal_Unmarshal a raw Hb Ht Hraw) as Ha.
      eexists. split; [by apply history_after_write|].
      unfold evaluate at 1. rewrite ReadAsset_run.
      cbn [apply_access world]. rewrite lookup_insert_eq. cbn [fst].
      rewrite Ha. split_and!; try done.
    + eexists. split; [by apply history_after_delete|].
      unfold evaluate at 1. rewrite ReadAsset_run.
      cbn [apply_access world]. rewrite lookup_delete_eq. cbn [fst].
      split_and!; try done.
  - unfold evaluate in *. rewrite GetAssetHistory_run in *. cbn [fst] in *.
    destruct (step_frame tx i l k Hm) as [_ ->]. done.
Qed.

Lemma GetAssetHistory_append_only_witness :
  sample.alice <> ""
  /\ evaluate (GetAssetHistory sample.alice) sample.joined = Ok [demo.first_entry]
  /\ exists h,
       evaluate (GetAssetHistory sample.alice)
         (step sample.tx4 (CallDeleteAsset sample.alice) sample.joined)
       = Ok ([demo.first_entry] ++ [h])
       /\ TxID h = GetTxID sample.tx4
       /\ Timestamp h = timestamppb.Seconds (GetTxTimestamp sample.tx4)
       /\ IsDelete h
          = bool_decide
              (world (step sample.tx4 (CallDeleteAsset sample.alice)
                        sample.joined) !! sample.alice = None)
       /\ Value h
          = match evaluate (ReadAsset sample.alice)
                    (step sample.tx4 (CallDeleteAsset sample.alice)
                       sample.joined) with
            | Ok a => Some a
            | Err _ => None
            end.
Proof.
  assert (Hne : sample.alice <> "") by discriminate.
  assert (Hhs : evaluate (GetAssetHistory sample.alice) sample.joined
                = Ok [demo.first_entry]) by (vm_compute; reflexivity).
  split; [exact Hne|]. split; [exact Hhs|].
  pose proof (GetAssetHistory_append_only sample.tx4
                (CallDeleteAsset sample.alice) sample.joined sample.alice
                [demo.first_entry] Hne Hhs) as T.
  replace (succeeds sample.tx4 (CallDeleteAsset sample.alice) sample.joined
           && mutates (CallDeleteAsset sample.alice) sample.alice)
    with true in T by (vm_compute; reflexivity).
  exact T.
Defined.

(** *** The change log of reachable ledgers *)

Lemma replay_app recs1 recs2 cur :
  replay (recs1 ++ recs2) cur
  = match replay recs1 cur with
    | Some c => replay recs2 c
    | None => None
    end.
Proof.
  revert cur. induction recs1 as [|rec recs1 IH]; intros cur; [done|].
  cbn [app replay]. destruct (KeyModification.IsDelete rec).
  - destruct cur; [|done]. by destruct (KeyModification.Value rec).
  - by destruct (KeyModification.Value rec).
Qed.

Lemma log_ok_genesis : log_ok genesis.
Proof.
  intros key. unfold history_of. cbn [genesis world changes].
  rewrite !lookup_empty. split; [done|constructor].
Qed.

Lemma log_ok_step tx i l : log_ok l -> log_ok (step tx i l).
Proof.
  intros Hok.
  destruct (step_cases tx i l) as
    [->|[(d & m & p & b & s & t & ty & r & bal & tamt & raw & _ & Hb & Ht & Hraw & ->)
        |(m & _ & Hlive & ->)]]; [done|..]; intros key;
    destruct (decide (m = key)) as [->|Hne].
  - rewrite history_of_put. cbn [apply_access world]. rewrite lookup_insert_eq.
    destruct (Hok key) as [Hrep Hall]. split.
    + by rewrite replay_app, Hrep.
    + apply Forall_app. split; [done|]. constructor; [|constructor].
      cbn. intros ? [= <-]. exists (account_of d key p bal s tamt ty r).
      split_and!; [done|done|..]; cbn [account_of BALANCE TRANSAMOUNT];
        by eapply ParseInt_range.
  - destruct (apply_access_other tx l (WriteState m raw) key) as [-> ->];
      [cbn; congruence|apply Hok].
  - rewrite history_of_del. cbn [apply_access world]. rewrite lookup_delete_eq.
    destruct (Hok key) as [Hrep Hall]. split.
    + rewrite replay_app, Hrep. cbn. by destruct (world l !! key).
    + apply Forall_app. split; [done|]. constructor; [|constructor]. by cbn.
  - destruct (apply_access_other tx l (DeleteState m) key) as [-> ->];
      [cbn; congruence|apply Hok].
Qed.

Lemma reachable_log_ok l : reachable l -> log_ok l.
Proof.
  induction 1 as [|l tx i _ IH]; [apply log_ok_genesis|by apply log_ok_step].
Qed.

Lemma log_entries k recs cur v h0 :
  replay recs cur = Some v ->
  Forall (fun rec => forall raw, KeyModification.Value rec = Some raw ->
                                 stored_ok k raw) recs ->
  exists hs,
    GetAssetHistory_loop recs h0 = Ok (h0 ++ hs) /\ Forall2 (entry_rel k) recs hs.
Proof.
  revert cur h0. induction recs as [|rec recs IH]; intros cur h0 Hrep Hall.
  - exists []. split; [cbn; by rewrite app_nil_r|constructor].
  - apply Forall_cons in Hall as [Hrec Hall]. cbn [replay] in Hrep.
    destruct (KeyModification.IsDelete rec) eqn:Hd.
    + destruct cur as [c|]; [|done].
      destruct (KeyModification.Value rec) eqn:Hv; [done|].
      destruct (IH _ (h0 ++ [entry_of rec None]) Hrep Hall) as (hs & Hrun & Hrel).
      exists (entry_of rec None :: hs). split.
      * rewrite GetAssetHistory_loop_bare by (by left).
        by rewrite Hrun, <- app_assoc.
      * constructor; [|done]. unfold entry_rel. cbn. by rewrite Hd.
    + destruct (KeyModification.Value rec) as [raw|] eqn:Hv; [|done].
      destruct (stored_ok_Unmarshal k raw (Hrec _ eq_refl)) as (a & Ha & Hk).
      destruct (IH _ (h0 ++ [entry_of rec (Some a)]) Hrep Hall)
        as (hs & Hrun & Hrel).
      exists (entry_of rec (Some a) :: hs). split.
      * rewrite (GetAssetHistory_loop_snapshot rec _ _ raw a) by done.
        by rewrite Hrun, <- app_assoc.
      * constructor; [|done]. unfold entry_rel. cbn. rewrite Hd. eauto 10.
Qed.

Lemma replay_head rec recs v :
  replay (rec :: recs) None = Some v -> KeyModification.IsDelete rec = false.
Proof. cbn. by destruct (KeyModification.IsDelete rec). Qed.

Lemma replay_no_double_delete recs cur v i r r' :
  replay recs cur = Some v ->
  recs !! i = Some r -> recs !! S i = Some r' ->
  KeyModification.IsDelete r = true -> KeyModification.IsDelete r' = false.
Proof.
  revert cur i. induction recs as [|rec recs IH]; intros cur i Hrep Hi Hi' Hd;
    [done|].
  cbn [replay] in Hrep. destruct i as [|i].
  - cbn in Hi. injection Hi as ->. rewrite Hd in Hrep.
    destruct cur; [|done]. destruct (KeyModification.Value r); [done|].
    destruct recs as [|rec' recs]; [done|]. cbn in Hi'. injection Hi' as ->.
    by eapply replay_head.
  - cbn in Hi, Hi'. destruct (KeyModification.IsDelete rec).
    + destruct cur; [|done]. destruct (KeyModification.Value rec); [done|].
      by eapply IH.
    + destruct (KeyModification.Value rec); [|done]. by eapply IH.
Qed.

Lemma replay_last recs cur v :
  replay recs cur = Some v ->
  v = match last recs with
      | None => cur
      | Some r => if KeyModification.IsDelete r then None
                  else KeyModification.Value r
      end.
Proof.
  revert cur. induction recs as [|rec recs IH]; intros cur Hrep.
  - cbn in *. congruence.
  - cbn [replay] in Hrep.
    destruct recs as [|rec' recs].
    + cbn [last]. destruct (KeyModification.IsDelete rec).
      * destruct cur; [|done]. destruct (KeyModification.Value rec); [done|].
        cbn in Hrep. congruence.
      * destruct (KeyModification.Value rec); [|done]. cbn in Hrep. congruence.
    + change (last (rec :: rec' :: recs)) with (last (rec' :: recs)).
      destruct (KeyModification.IsDelete rec).
      * destruct cur; [|done]. destruct (KeyModification.Value rec); [done|].
        apply IH in Hrep. destruct (last (rec' :: recs)) eqn:Hl; [done|].
        by apply last_None in Hl.
      * destruct (KeyModification.Value rec); [|done].
        apply IH in Hrep. destruct (last (rec' :: recs)) eqn:Hl; [done|].
        by apply last_None in Hl.
Qed.

Lemma reachable_history l k :
  reachable l ->
  exists hs,
    evaluate (GetAssetHistory k) l = Ok hs
    /\ Forall2 (entry_rel k) (history_of l k) hs.
Proof.
  intros Hl. destruct (reachable_log_ok l Hl k) as [Hrep Hall].
  destruct (log_entries k _ _ _ [] Hrep Hall) as (hs & Hrun & Hrel).
  exists hs. unfold evaluate. by rewrite GetAssetHistory_run, Hrun.
Qed.

Lemma reachable_deleted : reachable sample.deleted.
Proof.
  unfold sample.deleted, sample.updated, sample.joined, sample.created.
  do 4 apply reachable_step. apply reachable_genesis.
Qed.

(** X8: on every ledger that the contract can produce, [GetAssetHistory]
    succeeds for every key, and its entries have the shape of a life
    cycle: an entry has a snapshot exactly when it is no deletion, the
    [MSISDN] of every snapshot is the key (for a key that is valid UTF-8),
    the first entry is no deletion, and a deletion is never followed by
    another deletion. *)
Theorem GetAssetHistory_reachable l k :
  reachable l ->
  exists hs,
    evaluate (GetAssetHistory k) l = Ok hs
    /\ Forall (fun h => (IsDelete h = true <-> Value h = None)
                        /\ (utf8.ValidString k = true ->
                            forall a, Value h = Some a -> MSISDN a = k)) hs
    /\ (forall h, head hs = Some h -> IsDelete h = false)
    /\ (forall i h h',
          hs !! i = Some h -> hs !! S i = Some h' ->
          IsDelete h = true -> IsDelete h' = false).
Proof.
  intros Hl. destruct (reachable_history l k Hl) as (hs & Hrun & Hrel).
  destruct (reachable_log_ok l Hl k) as [Hrep _].
  revert Hrel Hrep. generalize (history_of l k). intros recs Hrel Hrep.
  exists hs. split_and!; [done|..].
  - apply Forall_forall. intros h Hh. apply list_elem_of_lookup in Hh as [i Hi].
    destruct (Forall2_lookup_r _ _ _ _ _ Hrel Hi) as (rec & _ & Hd & Hv).
    destruct (KeyModification.IsDelete rec).
    + rewrite Hd, Hv. done.
    + destruct Hv as (raw & a & _ & _ & Hv & Hk). rewrite Hd, Hv.
      split; [done|]. by intros _ ? [= <-].
  - intros h Hh. destruct hs as [|h1 hs]; [done|]. injection Hh as ->.
    inversion Hrel as [|rec ? recs' ? [Hd _] _]; subst.
    rewrite Hd. by eapply replay_head.
  - intros i h h' Hi Hi' Hd.
    destruct (Forall2_lookup_r _ _ _ _ _ Hrel Hi) as (rec & Hr & Hd1 & _).
    destruct (Forall2_lookup_r _ _ _ _ _ Hrel Hi') as (rec' & Hr' & Hd2 & _).
    rewrite Hd2. eapply replay_no_double_delete; [exact Hrep|exact Hr|exact Hr'|].
    congruence.
Qed.

Lemma GetAssetHistory_reachable_witness :
  reachable sample.deleted
  /\ exists hs,
       evaluate (GetAssetHistory sample.alice) sample.deleted = Ok hs
       /\ Forall (fun h => (IsDelete h = true <-> Value h = None)
                           /\ (utf8.ValidString sample.alice = true ->
                               forall a, Value h = Some a ->
                                         MSISDN a = sample.alice)) hs
       /\ (forall h, head hs = Some h -> IsDelete h = false)
       /\ (forall i h h',
             hs !! i = Some h -> hs !! S i = Some h' ->
             IsDelete h = true -> IsDelete h' = false).
Proof.
  split; [exact reachable_deleted|].
  exact (GetAssetHistory_reachable sample.deleted sample.alice reachable_deleted).
Defined.

(** X9: on every ledger that the contract can produce, the last entry of
    the history of a key tells the state of the key: when the history is
    empty or ends with a deletion [ReadAsset] fails with NotFound, and
    otherwise the snapshot of the last entry is the record that
    [ReadAsset] returns. *)
Theorem last_entry_is_current_record l k :
  reachable l ->
  exists hs,
    evaluate (GetAssetHistory k) l = Ok hs
    /\ match last hs with
       | None => evaluate (ReadAsset k) l = Err NotFound
       | Some h =>
           if IsDelete h then evaluate (ReadAsset k) l = Err NotFound
           else exists a, Value h = Some a /\ evaluate (ReadAsset k) l = Ok a
       end.
Proof.
  intros Hl. destruct (reachable_history l k Hl) as (hs & Hrun & Hrel).
  destruct (reachable_log_ok l Hl k) as [Hrep _].
  exists hs. split; [done|]. apply replay_last in Hrep.
  unfold evaluate. rewrite ReadAsset_run.
  revert Hrel Hrep. generalize (history_of l k). intros recs Hrel Hrep.
  destruct (last hs) as [h|] eqn:Hlast.
  - apply last_Some in Hlast as [hs' ->].
    apply Forall2_app_inv_r in Hrel as (recs' & recs1 & _ & Hrel1 & ->).
    inversion Hrel1 as [|rec ? ? ? [Hd Hv] Hnil]; subst.
    inversion Hnil; subst. rewrite last_snoc in Hrep. rewrite Hd.
    destruct (KeyModification.IsDelete rec).
    + by rewrite Hrep.
    + destruct Hv as (raw & a & Hraw & Ha & Hv & _). exists a.
      rewrite Hrep, Hraw. cbn [fst]. done.
  - apply last_None in Hlast. subst hs. inversion Hrel; subst.
    cbn in Hrep. by rewrite Hrep.
Qed.

Lemma last_entry_is_current_record_witness :
  reachable sample.updated
  /\ exists hs,
       evaluate (GetAssetHistory sample.alice) sample.updated = Ok hs
       /\ match last hs with
          | None => evaluate (ReadAsset sample.alice) sample.updated
                    = Err NotFound
          | Some h =>
              if IsDelete h
              then evaluate (ReadAsset sample.alice) sample.updated
                   = Err NotFound
              else exists a,
                     Value h = Some a
                     /\ evaluate (ReadAsset sample.alice) sample.updated = Ok a
          end.
Proof.
  assert (Hr : reachable sample.updated).
  { unfold sample.updated, sample.joined, sample.created.
    do 3 apply reachable_step. apply reachable_genesis. }
  split; [exact Hr|].
  exact (last_entry_is_current_record sample.updated sample.alice Hr).
Defined.

End history_log.

(** * The request facade *)

Section seq_round_trip.

Import strconv json.

Lemma parse_Account fuel a raw rest :
  in_int64 (BALANCE a) -> in_int64 (TRANSAMOUNT a) ->
  Marshal a = Ok raw ->
  parse (S (S (S (S (S (S (S (S (S (S fuel)))))))))) MValue (raw +:+ rest)
  = Some (Object (members a), rest).
Proof.
  intros Hb Ht Hraw. unfold Marshal in Hraw. injection Hraw as <-.
  assert (Hnc : is_num_char "," = false) by reflexivity.
  assert (Hnb : is_num_char "}" = false) by reflexivity.
  assert (Hsc : is_space "," = false) by reflexivity.
  assert (Hsb : is_space "}" = false) by reflexivity.
  rewrite !app_assoc_s. simpl_app.
  remember (S (S (S (S (S (S (S (S (S fuel))))))))) as f eqn:Hf.
  cbn [parse]. cbn [skip_ws]. change (is_space "{") with false. cbv iota zeta.
  change (byte_val "{" =? 123) with true. cbv iota.
  unfold quote at 1. simpl_app. cbn [skip_ws].
  change (is_space dquote) with false. cbv iota.
  change (byte_val dquote =? 125) with false. cbv iota.
  rewrite ?app_assoc_s. simpl_app.
  change (String dquote (escape "DEALERID" +:+ String dquote ?x))
    with (quote "DEALERID" +:+ x).
  subst f.
  erewrite parse_member by (reflexivity || apply parse_string_value).
  change (byte_val "," =? 44) with true. cbv iota.
  erewrite parse_member by (reflexivity || apply parse_string_value).
  change (byte_val "," =? 44) with true. cbv iota.
  erewrite parse_member by (reflexivity || apply parse_string_value).
  change (byte_val "," =? 44) with true. cbv iota.
  erewrite parse_member by (reflexivity || by apply parse_number_value).
  change (byte_val "," =? 44) with true. cbv iota.
  erewrite parse_member by (reflexivity || apply parse_string_value).
  change (byte_val "," =? 44) with true. cbv iota.
  erewrite parse_member by (reflexivity || by apply parse_number_value).
  change (byte_val "," =? 44) with true. cbv iota.
  erewrite parse_member by (reflexivity || apply parse_string_value).
  change (byte_val "," =? 44) with true. cbv iota.
  erewrite parse_member by (reflexivity || apply parse_string_value).
  change (byte_val "}" =? 44) with false.
  change (byte_val "}" =? 125) with true. cbv iota.
  reflexivity.
Qed.

Lemma Marshal_length a raw : Marshal a = Ok raw -> (10 <= String.length raw)%nat.
Proof.
  unfold Marshal. intros [= <-]. unfold quote. simpl_app.
  repeat (progress (rewrite ?app_length_s; cbn [String.length])). lia.
Qed.

Lemma Marshal_head a raw : Marshal a = Ok raw -> exists r, raw = String "{" r.
Proof. unfold Marshal. intros [= <-]. simpl_app. eauto. Qed.

Lemma encode_all_inv a accs raws :
  json_seq.encode_all (a :: accs) = Ok raws ->
  exists raw raws',
    raws = raw :: raws' /\ Marshal a = Ok raw /\ json_seq.encode_all accs = Ok raws'.
Proof.
  cbn [json_seq.encode_all]. destruct (Marshal a) as [raw|]; [|done].
  destruct (json_seq.encode_all accs) as [raws'|]; [|done].
  intros [= <-]. eauto.
Qed.

Lemma encode_all_total accs : exists raws, json_seq.encode_all accs = Ok raws.
Proof.
  induction accs as [|a accs [raws IH]]; [by eexists|].
  cbn. rewrite IH. by eexists.
Qed.

Lemma encode_all_length accs raws :
  json_seq.encode_all accs = Ok raws ->
  (10 * length accs <= String.length (json_seq.elements raws))%nat.
Proof.
  revert raws. induction accs as [|a accs IH]; intros raws H.
  - cbn in *. lia.
  - apply encode_all_inv in H as (raw & raws' & -> & Hraw & Hrest).
    apply Marshal_length in Hraw. specialize (IH _ Hrest).
    cbn [length json_seq.elements]. destruct raws' as [|raw' raws'].
    + destruct accs; [cbn in *; lia|].
      apply encode_all_inv in Hrest as (? & ? & ? & _); done.
    + rewrite !app_length_s. cbn [String.length]. lia.
Qed.

Lemma elements_cons x y ys :
  json_seq.elements (x :: y :: ys) = x +:+ "," +:+ json_seq.elements (y :: ys).
Proof. reflexivity. Qed.

Lemma parse_elements accs : forall fuel raws acc rest,
  accs <> [] ->
  Forall (fun a => in_int64 (BALANCE a) /\ in_int64 (TRANSAMOUNT a)) accs ->
  json_seq.encode_all accs = Ok raws ->
  parse (length accs + 11 + fuel) (MElems acc)
    (json_seq.elements raws +:+ String "]" rest)
  = Some (Array (acc ++ ((fun a => Object (members a)) <$> accs)), rest).
Proof.
  induction accs as [|a accs IH]; intros fuel raws acc rest Hne Hall Henc; [done|].
  apply Forall_cons in Hall as [[Hb Ht] Hall].
  apply encode_all_inv in Henc as (raw & raws' & -> & Hraw & Hrest).
  replace (length (a :: accs) + 11 + fuel)%nat
    with (S (S (S (S (S (S (S (S (S (S (S (S (length accs + fuel)))))))))))))%nat
    by (cbn [length]; lia).
  remember (S (S (S (S (S (S (S (S (S (S (S (length accs + fuel))))))))))))
    as f eqn:Hf.
  destruct accs as [|a' accs].
  - cbn in Hrest. injection Hrest as <-. cbn [json_seq.elements].
    cbn [parse]. subst f. rewrite (parse_Account _ a raw) by done.
    cbn [skip_ws]. change (is_space "]") with false. cbv iota.
    change (byte_val "]" =? 44) with false.
    change (byte_val "]" =? 93) with true. cbv iota. done.
  - pose proof Hrest as Hrest'.
    apply encode_all_inv in Hrest' as (raw' & raws'' & -> & _ & _).
    rewrite elements_cons. rewrite !app_assoc_s. simpl_app.
    cbn [parse]. subst f. rewrite (parse_Account _ a raw) by done.
    cbn [skip_ws]. change (is_space ",") with false. cbv iota.
    change (byte_val "," =? 44) with true. cbv iota.
    replace (S (S (S (S (S (S (S (S (S (S (S (length (a' :: accs) + fuel))))))))))))%nat
      with (length (a' :: accs) + 11 + fuel)%nat by (cbn [length]; lia).
    rewrite (IH fuel _ _ rest) by done.
    by rewrite <- app_assoc.
Qed.

Lemma elems_members accs :
  Forall (fun a => in_int64 (BALANCE a) /\ in_int64 (TRANSAMOUNT a)) accs ->
  json_seq.elems ((fun a => Object (members a)) <$> accs) = Ok accs.
Proof.
  induction 1 as [|a accs [Hb Ht] _ IH]; [done|].
  cbn [fmap list_fmap json_seq.elems json_seq.element].
  unfold members at 1. rewrite set_fields_Marshal by done.
  fold (fmap (M:=list) (fun a => Object (members a)) accs). by rewrite IH.
Qed.

(** What [json.Marshal] writes for a sequence of accounts,
    [json.Unmarshal] reads back as that sequence; it is never empty. *)
Lemma Marshal_Unmarshal_seq accs raw :
  Forall (fun a => in_int64 (BALANCE a) /\ in_int64 (TRANSAMOUNT a)) accs ->
  json_seq.Marshal accs = Ok raw ->
  json_seq.Unmarshal raw = Ok (Some accs) /\ raw <> "".
Proof.
  intros Hall. unfold json_seq.Marshal.
  destruct (json_seq.encode_all accs) as [raws|] eqn:Henc; [|done].
  intros [= <-]. split; [|done].
  destruct accs as [|a accs].
  { cbn in Henc. injection Henc as <-. reflexivity. }
  unfold json_seq.Unmarshal, parse_document.
  pose proof (encode_all_length _ _ Henc) as Hlen.
  pose proof Henc as Henc'.
  apply encode_all_inv in Henc' as (raw & raws' & -> & Hraw & _).
  assert (Hhead : exists r, json_seq.elements (raw :: raws') = String "{" r).
  { apply Marshal_head in Hraw as [r ->].
    destruct raws'; cbn [json_seq.elements]; simpl_app; eauto. }
  match goal with |- context [parse ?n MValue ?d] =>
    assert (Hfuel : exists fuel, n = S (length (a :: accs) + 11 + fuel)%nat)
  end.
  { simpl_app. cbn [String.length]. rewrite app_length_s. cbn [String.length].
    cbn [length] in *.
    exists (2 * (S (String.length (json_seq.elements (raw :: raws')) + 1))
            + 2 - S (S (length accs) + 11))%nat. lia. }
  destruct Hfuel as [fuel ->]. simpl_app.
  remember (length (a :: accs) + 11 + fuel)%nat as f eqn:Hf.
  cbn [parse]. cbn [skip_ws]. change (is_space "[") with false. cbv iota zeta.
  change (byte_val "[" =? 123) with false.
  change (byte_val "[" =? 91) with true. cbv iota.
  destruct Hhead as [r Hr].
  assert (Hskip : skip_ws (json_seq.elements (raw :: raws') +:+ "]")
                  = String "{" (r +:+ "]")).
  { rewrite Hr. simpl_app. reflexivity. }
  rewrite Hskip. change (byte_val "{" =? 93) with false. cbv iota.
  subst f. rewrite (parse_elements (a :: accs) fuel _ [] "") by done.
  cbn [skip_ws app]. by rewrite elems_members.
Qed.

End seq_round_trip.

Section facade.

Import json api.

Lemma account_of_eta a :
  account_of (DEALERID a) (MSISDN a) (MPIN a) (BALANCE a) (STATUS a)
    (TRANSAMOUNT a) (TRANSTYPE a) (REMARKS a) = a.
Proof. by destruct a. Qed.

Lemma valid_account_range a :
  valid_account a -> in_int64 (BALANCE a) /\ in_int64 (TRANSAMOUNT a).
Proof. by intros (_ & _ & _ & _ & _ & _ & Hb & Ht). Qed.

Lemma GET_asset_stored l k raw a :
  world l !! k = Some raw -> Marshal a = Ok raw ->
  in_int64 (BALANCE a) -> in_int64 (TRANSAMOUNT a) ->
  GET_asset k l = JSON 200 (OneAccount a).
Proof.
  intros Hk Hraw Hb Ht. unfold GET_asset, client.EvaluateTransaction, evaluate.
  rewrite ReadAsset_run, Hk. cbn [fst].
  rewrite (Marshal_Unmarshal a raw Hb Ht Hraw), Hraw.
  by rewrite (Marshal_Unmarshal a raw Hb Ht Hraw).
Qed.

Lemma GET_asset_absent l k :
  world l !! k = None -> GET_asset k l = JSON 500 (H_error NotFound).
Proof.
  intros Hk. unfold GET_asset, client.EvaluateTransaction, evaluate.
  by rewrite ReadAsset_run, Hk.
Qed.

(** The two submissions of the facade, by cases on the ledger. *)
Lemma submit_create l tx a :
  in_int64 (BALANCE a) -> in_int64 (TRANSAMOUNT a) ->
  exists raw,
    Marshal a = Ok raw
    /\ submit tx
         (CreateAsset (DEALERID a) (MSISDN a) (MPIN a)
            (strconv.FormatInt (BALANCE a)) (STATUS a)
            (strconv.FormatInt (TRANSAMOUNT a)) (TRANSTYPE a) (REMARKS a)) l
       = match world l !! MSISDN a with
         | Some _ => (Err AlreadyExists, l)
         | None => (Ok tt, apply_access tx l (WriteState (MSISDN a) raw))
         end.
Proof.
  intros Hb Ht. destruct (Marshal_total a) as [raw Hraw]. exists raw.
  split; [done|]. unfold submit. rewrite CreateAsset_run.
  destruct (world l !! MSISDN a); [done|].
  rewrite !ParseInt_FormatInt by done. by rewrite account_of_eta, Hraw.
Qed.

Lemma submit_update l tx a :
  in_int64 (BALANCE a) -> in_int64 (TRANSAMOUNT a) ->
  exists raw,
    Marshal a = Ok raw
    /\ submit tx
         (UpdateAsset (DEALERID a) (MSISDN a) (MPIN a)
            (strconv.FormatInt (BALANCE a)) (STATUS a)
            (strconv.FormatInt (TRANSAMOUNT a)) (TRANSTYPE a) (REMARKS a)) l
       = match world l !! MSISDN a with
         | None => (Err NotFound, l)
         | Some _ => (Ok tt, apply_access tx l (WriteState (MSISDN a) raw))
         end.
Proof.
  intros Hb Ht. destruct (Marshal_total a) as [raw Hraw]. exists raw.
  split; [done|]. unfold submit. rewrite UpdateAsset_run.
  destruct (world l !! MSISDN a); [|done].
  rewrite !ParseInt_FormatInt by done. by rewrite account_of_eta, Hraw.
Qed.

Lemma put_account_range p a :
  in_int64 (BALANCE a) -> in_int64 (TRANSAMOUNT a) ->
  in_int64 (BALANCE (put_account p a)) /\ in_int64 (TRANSAMOUNT (put_account p a)).
Proof. unfold put_account. by destruct (String.eqb _ _). Qed.

Lemma PUT_asset_run l tx p a :
  in_int64 (BALANCE a) -> in_int64 (TRANSAMOUNT a) ->
  exists raw,
    Marshal (put_account p a) = Ok raw
    /\ PUT_asset tx p (Ok a) l
       = match world l !! MSISDN (put_account p a) with
         | None => (JSON 500 (H_error NotFound), l)
         | Some _ =>
             (JSON 200 (H_message "updated" (MSISDN (put_account p a))),
              apply_access tx l (WriteState (MSISDN (put_account p a)) raw))
         end.
Proof.
  intros Hb Ht. destruct (put_account_range p a Hb Ht) as [Hb' Ht'].
  destruct (submit_update l tx (put_account p a) Hb' Ht') as (raw & Hraw & Hrun).
  exists raw. split; [done|].
  unfold PUT_asset, client.SubmitTransaction.
  cbv zeta. rewrite Hrun. by destruct (world l !! MSISDN (put_account p a)).
Qed.

(** X10: a [POST /assets] whose body binds to an account with a non-empty
    subscriber identifier that has no record is answered 201 "created",
    and a [GET /assets/:msisdn] for that identifier is then answered 200
    with the account of the body: the amounts that the facade formats as
    decimal strings are the amounts that the contract parses and stores. *)
Theorem POST_then_GET l tx a :
  valid_account a -> MSISDN a <> "" ->
  world l !! MSISDN a = None ->
  exists l',
    POST_assets tx (Ok a) l = (JSON 201 (H_message "created" (MSISDN a)), l')
    /\ GET_asset (MSISDN a) l' = JSON 200 (OneAccount a).
Proof.
  intros Ha _ Hk. destruct (valid_account_range a Ha) as [Hb Ht].
  destruct (submit_create l tx a Hb Ht) as (raw & Hraw & Hrun).
  rewrite Hk in Hrun.
  exists (apply_access tx l (WriteState (MSISDN a) raw)). split.
  - unfold POST_assets, client.SubmitTransaction. by rewrite Hrun.
  - apply (GET_asset_stored _ _ raw); try done.
    cbn [apply_access world]. apply lookup_insert_eq.
Qed.

Lemma valid_demo_account : valid_account demo.account.
Proof. unfold valid_account, in_int64. vm_compute. repeat split; discriminate. Qed.

Lemma valid_demo_anonymous : valid_account demo.anonymous.
Proof. unfold valid_account, in_int64. vm_compute. repeat split; discriminate. Qed.

Lemma POST_then_GET_witness :
  valid_account demo.account /\ MSISDN demo.account <> ""
  /\ world genesis !! MSISDN demo.account = None
  /\ exists l',
       POST_assets sample.tx1 (Ok demo.account) genesis
       = (JSON 201 (H_message "created" (MSISDN demo.account)), l')
       /\ GET_asset (MSISDN demo.account) l' = JSON 200 (OneAccount demo.account).
Proof.
  assert (Hne : MSISDN demo.account <> "") by discriminate.
  assert (Hk : world genesis !! MSISDN demo.account = None)
    by (vm_compute; reflexivity).
  split; [exact valid_demo_account|]. split; [exact Hne|]. split; [exact Hk|].
  exact (POST_then_GET genesis sample.tx1 demo.account valid_demo_account Hne Hk).
Defined.



(** X12: when the body of a [PUT /assets/:msisdn] names a subscriber,
    the path parameter is not used: the record of the subscriber of the
    body is replaced by the account of the body, which a [GET] for that
    subscriber then returns, and the record and the history of the
    subscriber of the path are as they were. *)
Theorem PUT_body_overrides_path l tx p a :
  valid_account a ->
  MSISDN a <> "" -> MSISDN a <> p -> world l !! MSISDN a <> None ->
  exists l',
    PUT_asset tx p (Ok a) l = (JSON 200 (H_message "updated" (MSISDN a)), l')
    /\ GET_asset (MSISDN a) l' = JSON 200 (OneAccount a)
    /\ world l' !! p = world l !! p
    /\ history_of l' p = history_of l p
    /\ GET_asset p l' = GET_asset p l.
Proof.
  intros Ha Hne Hp Hlive. destruct (valid_account_range a Ha) as [Hb Ht].
  destruct (PUT_asset_run l tx p a Hb Ht) as (raw & Hraw & Hrun).
  assert (Hput : put_account p a = a).
  { unfold put_account. apply String.eqb_neq in Hne. by rewrite Hne. }
  rewrite Hput in *.
  destruct (world l !! MSISDN a) as [v|] eqn:Hv; [|done].
  exists (apply_access tx l (WriteState (MSISDN a) raw)).
  destruct (apply_access_other tx l (WriteState (MSISDN a) raw) p) as [Hw Hh];
    [cbn; congruence|].
  split_and!; try done.
  - apply (GET_asset_stored _ _ raw); try done.
    cbn [apply_access world]. apply lookup_insert_eq.
  - unfold GET_asset, client.EvaluateTransaction, evaluate.
    by rewrite !ReadAsset_run, Hw.
Qed.

Lemma PUT_body_overrides_path_witness :
  valid_account demo.account /\ MSISDN demo.account <> ""
  /\ MSISDN demo.account <> sample.bob
  /\ world sample.joined !! MSISDN demo.account <> None
  /\ exists l',
       PUT_asset sample.tx3 sample.bob (Ok demo.account) sample.joined
       = (JSON 200 (H_message "updated" (MSISDN demo.account)), l')
       /\ GET_asset (MSISDN demo.account) l' = JSON 200 (OneAccount demo.account)
       /\ world l' !! sample.bob = world sample.joined !! sample.bob
       /\ history_of l' sample.bob = history_of sample.joined sample.bob
       /\ GET_asset sample.bob l' = GET_asset sample.bob sample.joined.
Proof.
  assert (Hne : MSISDN demo.account <> "") by discriminate.
  assert (Hp : MSISDN demo.account <> sample.bob) by discriminate.
  assert (Hk : world sample.joined !! MSISDN demo.account <> None)
    by (vm_compute; discriminate).
  split; [exact valid_demo_account|]. split; [exact Hne|]. split; [exact Hp|].
  split; [exact Hk|].
  exact (PUT_body_overrides_path sample.joined sample.tx3 sample.bob demo.account
           valid_demo_account Hne Hp Hk).
Defined.

(** X13: when the body of a [PUT /assets/:msisdn] names no subscriber,
    the path parameter is the subscriber: if it has a record (and is valid
    UTF-8) the answer is 200 "updated" with the path's identifier, and a
    [GET] for it then returns the account of the body with that
    identifier as its [MSISDN]. *)
Theorem PUT_path_when_body_has_none l tx p a :
  valid_account a -> utf8.ValidString p = true ->
  MSISDN a = "" -> world l !! p <> None ->
  exists l',
    PUT_asset tx p (Ok a) l = (JSON 200 (H_message "updated" p), l')
    /\ GET_asset p l'
       = JSON 200
           (OneAccount {| DEALERID := DEALERID a; MSISDN := p; MPIN := MPIN a;
                          BALANCE := BALANCE a; STATUS := STATUS a;
                          TRANSAMOUNT := TRANSAMOUNT a;
                          TRANSTYPE := TRANSTYPE a; REMARKS := REMARKS a |}).
Proof.
  intros Ha _ He Hlive. destruct (valid_account_range a Ha) as [Hb Ht].
  destruct (PUT_asset_run l tx p a Hb Ht) as (raw & Hraw & Hrun).
  unfold put_account in *. rewrite He in *. cbn [String.eqb MSISDN] in *.
  destruct (world l !! p) as [v|] eqn:Hv; [|done].
  exists (apply_access tx l (WriteState p raw)). split; [done|].
  apply (GET_asset_stored _ _ raw); try done.
  cbn [apply_access world]. apply lookup_insert_eq.
Qed.

Lemma PUT_path_when_body_has_none_witness :
  valid_account demo.anonymous /\ utf8.ValidString sample.alice = true
  /\ MSISDN demo.anonymous = ""
  /\ world sample.joined !! sample.alice <> None
  /\ exists l',
       PUT_asset sample.tx3 sample.alice (Ok demo.anonymous) sample.joined
       = (JSON 200 (H_message "updated" sample.alice), l')
       /\ GET_asset sample.alice l' = JSON 200 (OneAccount demo.account).
Proof.
  assert (Hp : utf8.ValidString sample.alice = true) by reflexivity.
  assert (He : MSISDN demo.anonymous = "") by reflexivity.
  assert (Hk : world sample.joined !! sample.alice <> None)
    by (vm_compute; discriminate).
  split; [exact valid_demo_anonymous|]. split; [exact Hp|]. split; [exact He|].
  split; [exact Hk|].
  exact (PUT_path_when_body_has_none sample.joined sample.tx3 sample.alice
           demo.anonymous valid_demo_anonymous Hp He Hk).
Defined.

(** X14: a [DELETE /assets/:msisdn] for a subscriber with a record is
    answered 200 "deleted"; afterwards a [GET] for that subscriber is
    answered 500 with the contract's NotFound (there is no 404), a second
    [DELETE] is answered 500 with NotFound and changes nothing, and the
    answer to a [GET] for any other subscriber is as before. *)
Theorem DELETE_then_GET l tx k :
  world l !! k <> None ->
  exists l',
    DELETE_asset tx k l = (JSON 200 (H_message "deleted" k), l')
    /\ GET_asset k l' = JSON 500 (H_error NotFound)
    /\ (forall tx', DELETE_asset tx' k l' = (JSON 500 (H_error NotFound), l'))
    /\ (forall key, key <> k -> GET_asset key l' = GET_asset key l).
Proof.
  intros Hk. exists (apply_access tx l (DeleteState k)).
  assert (Hgone : world (apply_access tx l (DeleteState k)) !! k = None).
  { cbn [apply_access world]. apply lookup_delete_eq. }
  split_and!.
  - unfold DELETE_asset, client.SubmitTransaction, submit.
    rewrite DeleteAsset_run. by destruct (world l !! k).
  - by apply GET_asset_absent.
  - intros tx'. unfold DELETE_asset, client.SubmitTransaction, submit.
    by rewrite DeleteAsset_run, Hgone.
  - intros key Hne.
    destruct (apply_access_other tx l (DeleteState k) key) as [Hw _];
      [cbn; congruence|].
    unfold GET_asset, client.EvaluateTransaction, evaluate.
    by rewrite !ReadAsset_run, Hw.
Qed.

Lemma DELETE_then_GET_witness :
  world sample.joined !! sample.alice <> None
  /\ exists l',
       DELETE_asset sample.tx4 sample.alice sample.joined
       = (JSON 200 (H_message "deleted" sample.alice), l')
       /\ GET_asset sample.alice l' = JSON 500 (H_error NotFound)
       /\ (forall tx', DELETE_asset tx' sample.alice l'
                       = (JSON 500 (H_error NotFound), l'))
       /\ (forall key, key <> sample.alice ->
                       GET_asset key l' = GET_asset key sample.joined).
Proof.
  assert (Hk : world sample.joined !! sample.alice <> None)
    by (vm_compute; discriminate).
  split; [exact Hk|].
  exact (DELETE_then_GET sample.joined sample.tx4 sample.alice Hk).
Defined.

(** X15: on every ledger that the contract can produce the two [GET]
    handlers relay what the contract returns, through both JSON codecs:
    [GET /assets/:msisdn] is answered 500 with NotFound when the
    subscriber has no record and otherwise 200 with the record that
    [ReadAsset] returns; [GET /assets] is answered 200 with the sequence
    that [GetAllAssets] returns, an empty sequence (not null) when there
    is no record. *)
Theorem GET_on_reachable_ledgers l :
  reachable l ->
  (forall k,
     (world l !! k = None /\ GET_asset k l = JSON 500 (H_error NotFound))
     \/ (exists a, evaluate (ReadAsset k) l = Ok a
                   /\ GET_asset k l = JSON 200 (OneAccount a)))
  /\ (exists accs,
        evaluate GetAllAssets l = Ok accs
        /\ GET_assets l = JSON 200 (Accounts (Some accs))).
Proof.
  intros Hl. apply reachable_well_formed in Hl. split.
  - intros k. destruct (world l !! k) as [raw|] eqn:Hk.
    + right. destruct (Hl _ _ Hk) as (a & Hraw & Hm & Hb & Ht).
      exists a. split; [|by eapply GET_asset_stored].
      unfold evaluate. rewrite ReadAsset_run, Hk. cbn [fst].
      by apply Marshal_Unmarshal.
    + left. split; [done|]. by apply GET_asset_absent.
  - destruct (GetAllAssets_well_formed l Hl) as (accs & Hrun & _ & _ & _ & Hread).
    exists accs. unfold GET_assets, client.EvaluateTransaction, evaluate.
    rewrite Hrun. cbn [fst]. split; [done|].
    assert (Hall : Forall (fun a => in_int64 (BALANCE a)
                                    /\ in_int64 (TRANSAMOUNT a)) accs).
    { apply Forall_forall. intros a Ha.
      destruct (Hread a Ha) as (raw & Hraw & Hdec).
      destruct (Hl _ _ Hraw) as (a' & Hraw' & _ & Hb & Ht).
      rewrite (Marshal_Unmarshal a' raw Hb Ht Hraw') in Hdec.
      by injection Hdec as <-. }
    destruct (json_seq.Marshal accs) as [res|e] eqn:Hres.
    + destruct (Marshal_Unmarshal_seq accs res Hall Hres) as [Hdec Hne].
      rewrite Hdec. destruct res; [done|]. reflexivity.
    + exfalso. unfold json_seq.Marshal in Hres.
      destruct (encode_all_total accs) as [raws Henc]. by rewrite Henc in Hres.
Qed.

Lemma GET_on_reachable_ledgers_witness :
  reachable sample.joined
  /\ (forall k,
        (world sample.joined !! k = None
         /\ GET_asset k sample.joined = JSON 500 (H_error NotFound))
        \/ (exists a, evaluate (ReadAsset k) sample.joined = Ok a
                      /\ GET_asset k sample.joined = JSON 200 (OneAccount a)))
  /\ (exists accs,
        evaluate GetAllAssets sample.joined = Ok accs
        /\ GET_assets sample.joined = JSON 200 (Accounts (Some accs))).
Proof.
  assert (Hr : reachable sample.joined).
  { unfold sample.joined, sample.created.
    do 2 apply reachable_step. apply reachable_genesis. }
  split; [exact Hr|].
  exact (GET_on_reachable_ledgers sample.joined Hr).
Defined.

End facade.
